(** * TriangleMesh and OpenGLView: a shallow embedding of the mesh core

    The development follows [trianglemesh.cpp] (bounding boxes, normal
    synthesis, OFF loading, GPU-handle bookkeeping, view-frustum culling,
    terrain generation) and the paint loop of [openglview.cpp].

    C++ [float] is IEEE-754 binary32; it is modelled bit-exactly with the
    parameterised specification [SpecFloat] at precision 24 and maximal
    exponent 128 (round to nearest, ties to even, no fused operations).
    Undefined behaviour of the C++ program (an index outside a vector, a read
    of an indeterminate local, an overflow of a signed integer) is an
    explicit outcome of the model. *)

From Stdlib Require Import ZArith List Bool Lia String.
From Stdlib Require Import Floats.SpecFloat.
Import ListNotations.
Local Open Scope Z_scope.

(* ------------------------------------------------------------------ *)
(** ** Single-precision numbers *)

Module F32.
Definition prec : Z := 24.
Definition emax : Z := 128.

Definition float : Type := spec_float.

Definition add : float -> float -> float := SFadd prec emax.
Definition sub : float -> float -> float := SFsub prec emax.
Definition mul : float -> float -> float := SFmul prec emax.
Definition div : float -> float -> float := SFdiv prec emax.
Definition sqrt : float -> float := SFsqrt prec emax.
Definition neg : float -> float := SFopp.

(** [m * 2^e], correctly rounded. *)
Definition of_scaled (m e : Z) : float := binary_normalize prec emax m e false.
(** [static_cast<float>(n)] on an integer. *)
Definition of_Z (n : Z) : float := of_scaled n 0.
(** The literal [n/d] written in decimal, e.g. [0.35f] is [of_ratio 35 100]:
    both integers are exact and the division rounds once. *)
Definition of_ratio (n d : Z) : float := div (of_Z n) (of_Z d).

Definition zero : float := S754_zero false.
Definition one : float := of_Z 1.
Definition half : float := of_scaled 1 (-1).
Definition FLT_MAX : float := SFmax_float prec emax.

Definition ltb : float -> float -> bool := SFltb.
Definition leb : float -> float -> bool := SFleb.
Definition eqb : float -> float -> bool := SFeqb.
(** [x >= y] *)
Definition geb (x y : float) : bool := SFleb y x.

Definition is_nan (x : float) : bool :=
  match x with S754_nan => true | _ => false end.
Definition is_zero (x : float) : bool :=
  match x with S754_zero _ => true | _ => false end.

(** [std::min(a, b)] is [(b < a) ? b : a]; [std::max(a, b)] is
    [(a < b) ? b : a]. *)
Definition min (a b : float) : float := if ltb b a then b else a.
Definition max (a b : float) : float := if ltb a b then b else a.

(** [std::clamp(v, lo, hi)] is [(v < lo) ? lo : (hi < v) ? hi : v]. *)
Definition clamp (v lo hi : float) : float :=
  if ltb v lo then lo else if ltb hi v then hi else v.
End F32.

Abbreviation float := F32.float.

Declare Scope f32_scope.
Delimit Scope f32_scope with f32.
Infix "+" := F32.add : f32_scope.
Infix "-" := F32.sub : f32_scope.
Infix "*" := F32.mul : f32_scope.
Infix "/" := F32.div : f32_scope.
Infix "<?" := F32.ltb : f32_scope.
Infix ">=?" := F32.geb (at level 70) : f32_scope.

(** Double precision appears only where the source multiplies a [float] by
    one of the [double] constants of <cmath>. *)
Module F64.
Definition prec : Z := 53.
Definition emax : Z := 1024.
Definition add : spec_float -> spec_float -> spec_float := SFadd prec emax.
Definition mul : spec_float -> spec_float -> spec_float := SFmul prec emax.
Definition div : spec_float -> spec_float -> spec_float := SFdiv prec emax.
Definition of_scaled (m e : Z) : spec_float := binary_normalize prec emax m e false.

Definition renorm (p em : Z) (x : spec_float) : spec_float :=
  match x with
  | S754_finite s m e => binary_normalize p em (if s then Z.neg m else Z.pos m) e s
  | _ => x
  end.
(** [float] to [double] (exact) and [double] to [float] (one rounding). *)
Definition of_f32 (x : float) : spec_float := renorm prec emax x.
Definition to_f32 (x : spec_float) : float := renorm F32.prec F32.emax x.

Definition M_PI : spec_float := of_scaled 7074237752028440 (-51).
Definition M_1_PI : spec_float := of_scaled 5734161139222659 (-54).
Definition two : spec_float := of_scaled 2 0.
Definition half : spec_float := of_scaled 1 (-1).
End F64.

(* ------------------------------------------------------------------ *)
(** ** Vectors and matrices *)

Record Vec3 (T : Type) : Type := mkVec3 { vx : T; vy : T; vz : T }.
Arguments mkVec3 {T} _ _ _.
Arguments vx {T} _.
Arguments vy {T} _.
Arguments vz {T} _.

Definition Vec3f : Type := Vec3 float.
(** Index triples; the components are [unsigned int] values. *)
Definition Triangle : Type := Vec3 Z.
Definition TexCoord : Type := (float * float)%type.

Module Vec.
Local Open Scope f32_scope.

(** Modelled from the spec: vec3.h is not among the sources.  A
    default-constructed vector is the zero vector (the accumulation of
    [calculateNormalsByArea] starts from the value [resize] creates). *)
Definition zero : Vec3f := mkVec3 F32.zero F32.zero F32.zero.

(** Modelled from the spec: vec3.h is not among the sources; componentwise
    sum, difference and scaling. *)
Definition add (u v : Vec3f) : Vec3f :=
  mkVec3 (vx u + vx v) (vy u + vy v) (vz u + vz v).
Definition sub (u v : Vec3f) : Vec3f :=
  mkVec3 (vx u - vx v) (vy u - vy v) (vz u - vz v).
Definition scale (s : float) (v : Vec3f) : Vec3f :=
  mkVec3 (s * vx v) (s * vy v) (s * vz v).

(** Modelled from the spec: vec3.h is not among the sources; the
    (non-normalized) cross product of two edge vectors. *)
Definition cross (u v : Vec3f) : Vec3f :=
  mkVec3 (vy u * vz v - vz u * vy v)
         (vz u * vx v - vx u * vz v)
         (vx u * vy v - vy u * vx v).

(** Modelled from the spec: vec3.h is not among the sources; a vector is
    normalized by dividing by [sqrt(x*x + y*y + z*z)]. *)
Definition length (v : Vec3f) : float :=
  F32.sqrt (vx v * vx v + vy v * vy v + vz v * vz v).
Definition normalize (v : Vec3f) : Vec3f :=
  let l := length v in mkVec3 (vx v / l) (vy v / l) (vz v / l).
End Vec.

(** [QMatrix4x4::data()]: sixteen floats; [m[[i]]] is the C expression
    [m[i]]. *)
Definition Mat4 : Type := list float.
Notation "m [[ i ]]" := (nth i m F32.zero) (at level 1, format "m [[ i ]]").

(** The local [struct Plane] of [boundingBoxIsVisible] with its
    [normalize]. *)
Module Plane.
Local Open Scope f32_scope.
Record t : Type := mk { a : float; b : float; c : float; d : float }.

Definition normalize (p : t) : t :=
  let length := F32.sqrt (a p * a p + b p * b p + c p * c p) in
  mk (a p / length) (b p / length) (c p / length) (d p / length).
End Plane.

(* ------------------------------------------------------------------ *)
(** ** Render state *)

(** Modelled from the spec: renderstate.h is not among the sources.  The
    state holds the stack of model-view matrices (the current one on top),
    the projection matrix, the light position and the handles of the current
    and of the standard shader program. *)
Record RenderState : Type := mkRenderState {
  modelViewMatrix : Mat4;
  modelViewStack : list Mat4;
  projectionMatrix : Mat4;
  lightPosition : Vec3f;
  currentProgram : Z;
  standardProgram : Z
}.

Definition getCurrentModelViewMatrix (s : RenderState) : Mat4 := modelViewMatrix s.
Definition getCurrentProjectionMatrix (s : RenderState) : Mat4 := projectionMatrix s.
Definition getCurrentProgram (s : RenderState) : Z := currentProgram s.

Definition setModelViewMatrix (m : Mat4) (s : RenderState) : RenderState :=
  mkRenderState m (modelViewStack s) (projectionMatrix s) (lightPosition s)
                (currentProgram s) (standardProgram s).
Definition setCurrentProgram (p : Z) (s : RenderState) : RenderState :=
  mkRenderState (modelViewMatrix s) (modelViewStack s) (projectionMatrix s)
                (lightPosition s) p (standardProgram s).
Definition switchToStandardProgram (s : RenderState) : RenderState :=
  setCurrentProgram (standardProgram s) s.
(** [pushModelViewMatrix] duplicates the top of the stack. *)
Definition pushModelViewMatrix (s : RenderState) : RenderState :=
  mkRenderState (modelViewMatrix s) (modelViewMatrix s :: modelViewStack s)
                (projectionMatrix s) (lightPosition s)
                (currentProgram s) (standardProgram s).
(** [popModelViewMatrix] removes the top; it fails below the base matrix. *)
Definition popModelViewMatrix (s : RenderState) : option RenderState :=
  match modelViewStack s with
  | [] => None
  | m :: rest =>
      Some (mkRenderState m rest (projectionMatrix s) (lightPosition s)
                          (currentProgram s) (standardProgram s))
  end.

(** What the model takes from outside the repository: Qt's matrix algebra,
    the uniform locations the render state hands out, the GL driver's
    location query and the elementary functions of libm. *)
Class Platform : Type := {
  QMatrix4x4_mul : Mat4 -> Mat4 -> Mat4;
  QMatrix4x4_translate : Mat4 -> float -> float -> float -> Mat4;
  QMatrix4x4_scale : Mat4 -> float -> float -> float -> Mat4;
  calculateNormalMatrix : RenderState -> list float;
  getModelViewUniform : RenderState -> Z;
  getNormalMatrixUniform : RenderState -> Z;
  getUseTextureUniform : RenderState -> Z;
  getTextureUniform : RenderState -> Z;
  glGetUniformLocation : Z -> string -> Z;
  (** the size the driver reports back after a [glBufferData] of that size *)
  glBufferSize : Z -> Z;
  (** byte sizes of the unit-box tables of utilities.h *)
  BoxVerticesSize : Z;
  BoxLineIndicesSize : Z;
  sinf : float -> float;
  cosf : float -> float;
  asinf : float -> float;
  atan2f : float -> float -> float
}.

(* ------------------------------------------------------------------ *)
(** ** The OpenGL calls the mesh issues *)

Inductive BufferTarget : Type := GL_ARRAY_BUFFER | GL_ELEMENT_ARRAY_BUFFER.
Inductive DrawPrimitive : Type := GL_TRIANGLES | GL_LINES.

(** The attribute locations are named constants of a header that is not
    among the sources; [drawVBO] also addresses an attribute by its number. *)
Inductive Attrib : Type :=
| POSITION_LOCATION | NORMAL_LOCATION | COLOR_LOCATION
| TEXCOORD_LOCATION | TANGENT_LOCATION
| AttribIndex (i : Z).

Inductive glcall : Type :=
| glGenVertexArrays (id : Z)
| glGenBuffers (id : Z)
| glBindVertexArray (id : Z)
| glBindBuffer (target : BufferTarget) (id : Z)
| glBufferData (target : BufferTarget) (size : Z)
| glBufferSubData (target : BufferTarget) (size : Z)
| glDeleteVertexArrays (id : Z)
| glDeleteBuffers (id : Z)
| glVertexAttribPointer (loc : Attrib) (components : Z)
| glEnableVertexAttribArray (loc : Attrib)
| glDisableVertexAttribArray (loc : Attrib)
| glVertexAttrib3fv (loc : Attrib) (v : Vec3f)
| glVertexAttrib3f (loc : Attrib) (x y z : float)
| glUniformMatrix4fv (loc : Z) (m : Mat4)
| glUniformMatrix3fv (loc : Z) (m : list float)
| glUniform1ui (loc : Z) (v : Z)
| glUniform1i (loc : Z) (v : Z)
| glActiveTexture (unit : Z)
| glBindTexture2D (id : Z)
| glDrawElements (mode : DrawPrimitive) (count : Z)
| glDrawArrays (mode : DrawPrimitive) (first count : Z).

Definition is_delete (c : glcall) : bool :=
  match c with
  | glDeleteVertexArrays _ | glDeleteBuffers _ => true
  | _ => false
  end.

Definition GL_TRUE : Z := 1.
Definition GL_FALSE : Z := 0.

(* ------------------------------------------------------------------ *)
(** ** Outcomes, the world and its monad *)

Inductive ub : Type :=
| OutOfBounds (what : string) (index size : Z)
| Indeterminate (what : string)
| StackUnderflow
| SignedOverflow (what : string).

Inductive outcome (A : Type) : Type :=
| Done (a : A)
| Undefined (u : ub).
Arguments Done {A} _.
Arguments Undefined {A} _.

Definition obind {A B} (x : outcome A) (k : A -> outcome B) : outcome B :=
  match x with Done a => k a | Undefined u => Undefined u end.

(** A text file as [operator>>] sees it: whitespace-separated fields.  A
    field is a word (text that starts no number, of at most 255
    characters), an integer literal, or a decimal literal, that is one with
    a fraction or an exponent.  A literal carries the value its extraction
    yields.  An extraction into an integer stops inside a decimal literal,
    behind its leading digits: [TFloat x lead behind] has the value [x] when
    read as a [float], its sign and leading digits spell the integer [lead]
    (1 in 1.5, 3 in 3e8) and leave the field [behind] (.5 in 1.5, the word
    e8 in 3e8); [TFraction x] is a decimal literal that no digit leads
    (.5). *)
Inductive token : Type :=
| TWord (s : string)
| TInt (n : Z)
| TFloat (x : float) (lead : Z) (behind : token)
| TFraction (x : float).

(** The world outside the mesh: the next object name the GL driver hands
    out (never zero), the GL calls issued so far in order, the lines
    written to [std::cout], and the files that can be opened. *)
Record World : Type := mkWorld {
  glNext : Z;
  glLog : list glcall;
  cout : list string;
  files : string -> option (list token)
}.

Definition M (A : Type) : Type := World -> outcome (A * World).

Definition ret {A} (a : A) : M A := fun w => Done (a, w).
Definition bind {A B} (x : M A) (k : A -> M B) : M B :=
  fun w => match x w with
           | Done (a, w') => k a w'
           | Undefined u => Undefined u
           end.
Definition undefined {A} (u : ub) : M A := fun _ => Undefined u.
Definition lift {A} (x : outcome A) : M A :=
  fun w => match x with Done a => Done (a, w) | Undefined u => Undefined u end.

Declare Scope world_scope.
Delimit Scope world_scope with world.
Notation "x <- c ;; k" := (bind c (fun x => k))
  (at level 61, c at next level, right associativity) : world_scope.
Notation "c ;;; k" := (bind c (fun _ => k))
  (at level 61, right associativity) : world_scope.
Notation "x <~ c ;; k" := (obind c (fun x => k))
  (at level 61, c at next level, right associativity).

Definition gl (c : glcall) : M unit :=
  fun w => Done (tt, mkWorld (glNext w) (glLog w ++ [c]) (cout w) (files w)).
Definition print (line : string) : M unit :=
  fun w => Done (tt, mkWorld (glNext w) (glLog w) (cout w ++ [line]) (files w)).
(** [glGenBuffers(1, &id)] and [glGenVertexArrays(1, &id)]: a fresh name. *)
Definition gen (mk : Z -> glcall) : M Z :=
  fun w => Done (glNext w,
                 mkWorld (glNext w + 1) (glLog w ++ [mk (glNext w)]) (cout w)
                         (files w)).
Definition open (filename : string) : M (option (list token)) :=
  fun w => Done (files w filename, w).

Definition when (b : bool) (c : M unit) : M unit := if b then c else ret tt.

(** Checked indexing: [v[i]] on a [std::vector] is undefined outside
    [0 .. size-1]. *)
Definition at_ {A} (what : string) (v : list A) (i : Z) : outcome A :=
  if (0 <=? i) && (i <? Z.of_nat (List.length v))
  then match nth_error v (Z.to_nat i) with
       | Some a => Done a
       | None => Undefined (OutOfBounds what i (Z.of_nat (List.length v)))
       end
  else Undefined (OutOfBounds what i (Z.of_nat (List.length v))).

Fixpoint replace_nth {A} (n : nat) (a : A) (v : list A) : list A :=
  match v, n with
  | [], _ => []
  | _ :: t, O => a :: t
  | h :: t, S n' => h :: replace_nth n' a t
  end.

Definition put {A} (what : string) (v : list A) (i : Z) (a : A) : outcome (list A) :=
  if (0 <=? i) && (i <? Z.of_nat (List.length v))
  then Done (replace_nth (Z.to_nat i) a v)
  else Undefined (OutOfBounds what i (Z.of_nat (List.length v))).

(** [v.resize(n)]: keep the first [n] elements, pad with value-initialised
    ones. *)
Definition resize {A} (dflt : A) (n : nat) (v : list A) : list A :=
  firstn n v ++ repeat dflt (n - List.length v).

(* ------------------------------------------------------------------ *)
(** ** The mesh *)

Inductive ColoringType : Type := STATIC_COLOR | COLOR_ARRAY | TEXTURE | BUMP_MAPPING.

Record Geometry : Type := mkGeometry {
  g_vertices : list Vec3f;
  g_triangles : list Triangle;
  g_normals : list Vec3f;
  g_colors : list Vec3f;
  g_texCoords : list TexCoord;
  g_tangents : list Vec3f
}.

Record BoundingBox : Type := mkBoundingBox {
  bbMin : Vec3f;
  bbMax : Vec3f;
  bbMid : Vec3f;
  bbSize : Vec3f
}.

Record DrawMode : Type := mkDrawMode {
  d_coloringType : ColoringType;
  d_withBB : bool;
  d_withNormals : bool;
  d_textureID : Z;
  d_normalMapID : Z;
  d_displacementMapID : Z;
  d_enableDiffuseTexture : bool;
  d_enableNormalMapping : bool;
  d_enableDisplacementMapping : bool;
  d_staticColor : Vec3f
}.

(** The twelve GPU object names a mesh owns; zero means absent. *)
Record Handles : Type := mkHandles {
  VAO : Z; VBOv : Z; VBOn : Z; VBOf : Z; VBOc : Z; VBOt : Z; VBOtan : Z;
  VAObb : Z; VBOvbb : Z; VBOfbb : Z;
  VAOn : Z; VBOvn : Z
}.

(** [f] tells whether the mesh holds a GL function table ([f != nullptr]). *)
Record TriangleMesh : Type := mkMesh {
  geometry : Geometry;
  box : BoundingBox;
  mode : DrawMode;
  f : bool;
  handles : Handles
}.

Definition vertices (m : TriangleMesh) := g_vertices (geometry m).
Definition triangles (m : TriangleMesh) := g_triangles (geometry m).
Definition normals (m : TriangleMesh) := g_normals (geometry m).
Definition colors (m : TriangleMesh) := g_colors (geometry m).
Definition texCoords (m : TriangleMesh) := g_texCoords (geometry m).
Definition tangents (m : TriangleMesh) := g_tangents (geometry m).
Definition boundingBoxMin (m : TriangleMesh) := bbMin (box m).
Definition boundingBoxMax (m : TriangleMesh) := bbMax (box m).
Definition boundingBoxMid (m : TriangleMesh) := bbMid (box m).
Definition boundingBoxSize (m : TriangleMesh) := bbSize (box m).
Definition getBoundingBoxMin := boundingBoxMin.
Definition getBoundingBoxMax := boundingBoxMax.
Definition coloringType (m : TriangleMesh) := d_coloringType (mode m).
Definition withBB (m : TriangleMesh) := d_withBB (mode m).
Definition withNormals (m : TriangleMesh) := d_withNormals (mode m).
Definition textureID (m : TriangleMesh) := d_textureID (mode m).
Definition staticColor (m : TriangleMesh) := d_staticColor (mode m).

Definition set_geometry (g : Geometry) (m : TriangleMesh) : TriangleMesh :=
  mkMesh g (box m) (mode m) (f m) (handles m).
Definition set_box (b : BoundingBox) (m : TriangleMesh) : TriangleMesh :=
  mkMesh (geometry m) b (mode m) (f m) (handles m).
Definition set_mode (d : DrawMode) (m : TriangleMesh) : TriangleMesh :=
  mkMesh (geometry m) (box m) d (f m) (handles m).
Definition set_handles (h : Handles) (m : TriangleMesh) : TriangleMesh :=
  mkMesh (geometry m) (box m) (mode m) (f m) h.
Definition setGLFunctionPtr (fp : bool) (m : TriangleMesh) : TriangleMesh :=
  mkMesh (geometry m) (box m) (mode m) fp (handles m).

Definition set_vertices (v : list Vec3f) (m : TriangleMesh) : TriangleMesh :=
  let g := geometry m in
  set_geometry (mkGeometry v (g_triangles g) (g_normals g) (g_colors g)
                           (g_texCoords g) (g_tangents g)) m.
Definition set_triangles (t : list Triangle) (m : TriangleMesh) : TriangleMesh :=
  let g := geometry m in
  set_geometry (mkGeometry (g_vertices g) t (g_normals g) (g_colors g)
                           (g_texCoords g) (g_tangents g)) m.
Definition set_normals (n : list Vec3f) (m : TriangleMesh) : TriangleMesh :=
  let g := geometry m in
  set_geometry (mkGeometry (g_vertices g) (g_triangles g) n (g_colors g)
                           (g_texCoords g) (g_tangents g)) m.
Definition set_colors (c : list Vec3f) (m : TriangleMesh) : TriangleMesh :=
  let g := geometry m in
  set_geometry (mkGeometry (g_vertices g) (g_triangles g) (g_normals g) c
                           (g_texCoords g) (g_tangents g)) m.
Definition set_texCoords (t : list TexCoord) (m : TriangleMesh) : TriangleMesh :=
  let g := geometry m in
  set_geometry (mkGeometry (g_vertices g) (g_triangles g) (g_normals g)
                           (g_colors g) t (g_tangents g)) m.
Definition set_tangents (t : list Vec3f) (m : TriangleMesh) : TriangleMesh :=
  let g := geometry m in
  set_geometry (mkGeometry (g_vertices g) (g_triangles g) (g_normals g)
                           (g_colors g) (g_texCoords g) t) m.

Definition setColoringMode (c : ColoringType) (m : TriangleMesh) : TriangleMesh :=
  let d := mode m in
  set_mode (mkDrawMode c (d_withBB d) (d_withNormals d) (d_textureID d)
                       (d_normalMapID d) (d_displacementMapID d)
                       (d_enableDiffuseTexture d) (d_enableNormalMapping d)
                       (d_enableDisplacementMapping d) (d_staticColor d)) m.
Definition setTexture (t : Z) (m : TriangleMesh) : TriangleMesh :=
  let d := mode m in
  set_mode (mkDrawMode (d_coloringType d) (d_withBB d) (d_withNormals d) t
                       (d_normalMapID d) (d_displacementMapID d)
                       (d_enableDiffuseTexture d) (d_enableNormalMapping d)
                       (d_enableDisplacementMapping d) (d_staticColor d)) m.
Definition setStaticColor (c : Vec3f) (m : TriangleMesh) : TriangleMesh :=
  let d := mode m in
  set_mode (mkDrawMode (d_coloringType d) (d_withBB d) (d_withNormals d)
                       (d_textureID d) (d_normalMapID d) (d_displacementMapID d)
                       (d_enableDiffuseTexture d) (d_enableNormalMapping d)
                       (d_enableDisplacementMapping d) c) m.

Definition noHandles : Handles := mkHandles 0 0 0 0 0 0 0 0 0 0 0 0.

(* ------------------------------------------------------------------ *)
(** ** GPU resources: teardown *)

Local Open Scope world_scope.

Definition present (id : Z) : bool := negb (id =? 0).

(** [TriangleMesh::cleanupVBO(QOpenGLFunctions_3_3_Core *f)] *)
Definition cleanupVBO_with (m : TriangleMesh) : M TriangleMesh :=
  let h := handles m in
  when (present (VAO h)) (gl (glDeleteVertexArrays (VAO h))) ;;;
  when (present (VBOv h)) (gl (glDeleteBuffers (VBOv h))) ;;;
  when (present (VBOn h)) (gl (glDeleteBuffers (VBOn h))) ;;;
  when (present (VBOf h)) (gl (glDeleteBuffers (VBOf h))) ;;;
  when (present (VBOc h)) (gl (glDeleteBuffers (VBOc h))) ;;;
  when (present (VBOt h)) (gl (glDeleteBuffers (VBOt h))) ;;;
  when (present (VBOtan h)) (gl (glDeleteBuffers (VBOtan h))) ;;;
  when (present (VAObb h)) (gl (glDeleteVertexArrays (VAObb h))) ;;;
  when (present (VBOvbb h)) (gl (glDeleteBuffers (VBOvbb h))) ;;;
  when (present (VBOfbb h)) (gl (glDeleteBuffers (VBOfbb h))) ;;;
  when (present (VAOn h)) (gl (glDeleteVertexArrays (VAOn h))) ;;;
  when (present (VBOvn h)) (gl (glDeleteBuffers (VBOvn h))) ;;;
  ret (set_handles noHandles m).

(** [TriangleMesh::cleanupVBO()] *)
Definition cleanupVBO (m : TriangleMesh) : M TriangleMesh :=
  if f m then cleanupVBO_with m else ret m.

Definition FLT_MAX3 : Vec3f := mkVec3 F32.FLT_MAX F32.FLT_MAX F32.FLT_MAX.
Definition negFLT_MAX3 : Vec3f :=
  mkVec3 (F32.neg F32.FLT_MAX) (F32.neg F32.FLT_MAX) (F32.neg F32.FLT_MAX).

(** [TriangleMesh::clear]; the tangents and the two bump-mapping textures
    are not touched. *)
Definition clear (m : TriangleMesh) : M TriangleMesh :=
  let g := mkGeometry [] [] [] [] [] (tangents m) in
  let b := mkBoundingBox FLT_MAX3 negFLT_MAX3 Vec.zero Vec.zero in
  let d0 := mode m in
  let d := mkDrawMode STATIC_COLOR false false 0
                      (d_normalMapID d0) (d_displacementMapID d0)
                      (d_enableDiffuseTexture d0) (d_enableNormalMapping d0)
                      (d_enableDisplacementMapping d0) (d_staticColor d0) in
  cleanupVBO (mkMesh g b d (f m) (handles m)).

(* ------------------------------------------------------------------ *)
(** ** Normals, texture coordinates, bounding box *)

Definition to_uint (z : Z) : Z := z mod 2 ^ 32.

(** The body of the loop over the triangles in [calculateNormalsByArea]. *)
Definition addTriangleNormal (vs : list Vec3f) (ns : list Vec3f) (t : Triangle)
  : outcome (list Vec3f) :=
  let id0 := to_uint (vx t) in
  let id1 := to_uint (vy t) in
  let id2 := to_uint (vz t) in
  v0 <~ at_ "vertices" vs id0 ;;
  v1 <~ at_ "vertices" vs id1 ;;
  v2 <~ at_ "vertices" vs id2 ;;
  let vec1 := Vec.sub v1 v0 in
  let vec2 := Vec.sub v2 v0 in
  let normal := Vec.cross vec1 vec2 in
  n0 <~ at_ "normals" ns id0 ;;
  ns <~ put "normals" ns id0 (Vec.add n0 normal) ;;
  n1 <~ at_ "normals" ns id1 ;;
  ns <~ put "normals" ns id1 (Vec.add n1 normal) ;;
  n2 <~ at_ "normals" ns id2 ;;
  put "normals" ns id2 (Vec.add n2 normal).

Fixpoint sumTriangleNormals (vs : list Vec3f) (ts : list Triangle) (ns : list Vec3f)
  : outcome (list Vec3f) :=
  match ts with
  | [] => Done ns
  | t :: ts' => ns' <~ addTriangleNormal vs ns t ;; sumTriangleNormals vs ts' ns'
  end.

(** [TriangleMesh::calculateNormalsByArea] *)
Definition calculateNormalsByArea (m : TriangleMesh) : outcome TriangleMesh :=
  let ns := resize Vec.zero (List.length (vertices m)) (normals m) in
  ns' <~ sumTriangleNormals (vertices m) (triangles m) ns ;;
  Done (set_normals (map Vec.normalize ns') m).

(** [TriangleMesh::calculateBB] and the vertex loop of [loadOFF] grow the
    box by one vertex in the same way. *)
Definition growMin (lo v : Vec3f) : Vec3f :=
  mkVec3 (F32.min (vx v) (vx lo)) (F32.min (vy v) (vy lo)) (F32.min (vz v) (vz lo)).
Definition growMax (hi v : Vec3f) : Vec3f :=
  mkVec3 (F32.max (vx v) (vx hi)) (F32.max (vy v) (vy hi)) (F32.max (vz v) (vz hi)).

Definition midOf (lo hi : Vec3f) : Vec3f :=
  Vec.add (Vec.scale F32.half lo) (Vec.scale F32.half hi).
Definition sizeOf (lo hi : Vec3f) : Vec3f := Vec.sub hi lo.

(** [TriangleMesh::calculateBB] *)
Definition calculateBB (m : TriangleMesh) : TriangleMesh :=
  let lo := fold_left growMin (vertices m) FLT_MAX3 in
  let hi := fold_left growMax (vertices m) negFLT_MAX3 in
  set_box (mkBoundingBox lo hi (midOf lo hi) (sizeOf lo hi)) m.

Section Model.
Context {P : Platform}.

(** [TriangleMesh::calculateTexCoordsSphereMapping]: the products with
    [M_1_PI] are taken in double precision and stored as [float]. *)
Definition sphereMapping (mid vertex : Vec3f) : TexCoord :=
  let dist := Vec.sub vertex mid in
  let u := F64.add (F64.mul (F64.div F64.M_1_PI F64.two)
                            (F64.of_f32 (atan2f (vx dist) (vz dist))))
                   F64.half in
  let v := F64.mul F64.M_1_PI
                   (F64.of_f32 (asinf (vy dist / Vec.length dist)%f32)) in
  (F64.to_f32 u, F64.to_f32 v).

Definition calculateTexCoordsSphereMapping (m : TriangleMesh) : TriangleMesh :=
  set_texCoords (map (sphereMapping (boundingBoxMid m)) (vertices m)) m.

(* ------------------------------------------------------------------ *)
(** ** GPU resources: creation *)

(** [TriangleMesh::createVBO]; [dataSize] is the byte size of the upload. *)
Definition createVBO (dataSize : Z) (target : BufferTarget) : M Z :=
  id <- gen glGenBuffers ;;
  gl (glBindBuffer target id) ;;;
  gl (glBufferData target dataSize) ;;;
  if dataSize =? glBufferSize dataSize
  then gl (glBindBuffer target 0) ;;; ret id
  else gl (glDeleteBuffers id) ;;;
       print "createVBO() ERROR: Data size is mismatch with input array." ;;;
       gl (glBindBuffer target 0) ;;; ret 0.

Definition len {A} (v : list A) : Z := Z.of_nat (List.length v).

(** [TriangleMesh::createBBVAO] *)
Definition createBBVAO (h : Handles) : M Handles :=
  vaobb <- gen glGenVertexArrays ;;
  vbovbb <- createVBO BoxVerticesSize GL_ARRAY_BUFFER ;;
  vbofbb <- createVBO BoxLineIndicesSize GL_ELEMENT_ARRAY_BUFFER ;;
  gl (glBindVertexArray vaobb) ;;;
  gl (glBindBuffer GL_ARRAY_BUFFER vbovbb) ;;;
  gl (glVertexAttribPointer POSITION_LOCATION 3) ;;;
  gl (glBindBuffer GL_ELEMENT_ARRAY_BUFFER vbofbb) ;;;
  gl (glEnableVertexAttribArray POSITION_LOCATION) ;;;
  gl (glBindVertexArray 0) ;;;
  gl (glBindBuffer GL_ARRAY_BUFFER 0) ;;;
  gl (glBindBuffer GL_ELEMENT_ARRAY_BUFFER 0) ;;;
  ret (mkHandles (VAO h) (VBOv h) (VBOn h) (VBOf h) (VBOc h) (VBOt h) (VBOtan h)
                 vaobb vbovbb vbofbb (VAOn h) (VBOvn h)).

(** [TriangleMesh::createNormalVAO]: two line end points per vertex. *)
Definition createNormalVAO (g : Geometry) (h : Handles) : M Handles :=
  if negb (len (g_vertices g) =? len (g_normals g)) then ret h
  else
    vaon <- gen glGenVertexArrays ;;
    vbovn <- createVBO (2 * len (g_vertices g) * 12) GL_ARRAY_BUFFER ;;
    gl (glBindVertexArray vaon) ;;;
    gl (glBindBuffer GL_ARRAY_BUFFER vbovn) ;;;
    gl (glEnableVertexAttribArray POSITION_LOCATION) ;;;
    gl (glVertexAttribPointer POSITION_LOCATION 3) ;;;
    gl (glBindVertexArray 0) ;;;
    gl (glBindBuffer GL_ARRAY_BUFFER 0) ;;;
    ret (mkHandles (VAO h) (VBOv h) (VBOn h) (VBOf h) (VBOc h) (VBOt h) (VBOtan h)
                   (VAObb h) (VBOvbb h) (VBOfbb h) vaon vbovn).

Definition bindAttrib (id : Z) (loc : Attrib) (components : Z) : M unit :=
  gl (glBindBuffer GL_ARRAY_BUFFER id) ;;;
  gl (glVertexAttribPointer loc components) ;;;
  gl (glEnableVertexAttribArray loc).

(** [TriangleMesh::createAllVBOs] *)
Definition createAllVBOs (m : TriangleMesh) : M TriangleMesh :=
  if negb (f m) then ret m
  else
    let g := geometry m in
    let h := handles m in
    vao <- gen glGenVertexArrays ;;
    vbof <- createVBO (len (g_triangles g) * 12) GL_ELEMENT_ARRAY_BUFFER ;;
    vbov <- createVBO (len (g_vertices g) * 12) GL_ARRAY_BUFFER ;;
    vbon <- createVBO (len (g_normals g) * 12) GL_ARRAY_BUFFER ;;
    vboc <- (if len (g_colors g) =? len (g_vertices g)
             then id <- createVBO (len (g_colors g) * 12) GL_ARRAY_BUFFER ;;
                  gl (glEnableVertexAttribArray COLOR_LOCATION) ;;; ret id
             else ret (VBOc h)) ;;
    vbot <- (if len (g_texCoords g) =? len (g_vertices g)
             then id <- createVBO (len (g_texCoords g) * 8) GL_ARRAY_BUFFER ;;
                  gl (glEnableVertexAttribArray TEXCOORD_LOCATION) ;;; ret id
             else ret (VBOt h)) ;;
    vbotan <- (if len (g_tangents g) =? len (g_vertices g)
               then id <- createVBO (len (g_tangents g) * 12) GL_ARRAY_BUFFER ;;
                    gl (glEnableVertexAttribArray TANGENT_LOCATION) ;;; ret id
               else ret (VBOtan h)) ;;
    gl (glBindVertexArray vao) ;;;
    gl (glBindBuffer GL_ELEMENT_ARRAY_BUFFER vbof) ;;;
    bindAttrib vbov POSITION_LOCATION 3 ;;;
    bindAttrib vbon NORMAL_LOCATION 3 ;;;
    when (present vboc) (bindAttrib vboc COLOR_LOCATION 3) ;;;
    when (present vbot) (bindAttrib vbot TEXCOORD_LOCATION 2) ;;;
    when (present vbotan) (bindAttrib vbotan TANGENT_LOCATION 3) ;;;
    gl (glBindVertexArray 0) ;;;
    h1 <- createBBVAO (mkHandles vao vbov vbon vbof vboc vbot vbotan
                                 (VAObb h) (VBOvbb h) (VBOfbb h) (VAOn h) (VBOvn h)) ;;
    h2 <- createNormalVAO g h1 ;;
    ret (set_handles h2 m).

(* ------------------------------------------------------------------ *)
(** ** Loading an OFF file *)

Record istream : Type := mkStream { rest : list token; failed : bool }.

Definition INT_MIN : Z := - 2 ^ 31.
Definition INT_MAX : Z := 2 ^ 31 - 1.
Definition UINT_MAX : Z := 2 ^ 32 - 1.

(** [in >> n] into an [int].  [None] means that the target keeps the value
    it had: the stream had failed before, or the input is exhausted.  A
    field without leading digits stores zero and fails the stream; digits
    out of range store the nearest bound and fail the stream.  Of a decimal
    literal the leading digits are read and the rest stays in the stream as
    the next field. *)
Definition store_int (n : Z) (r : list token) : option Z * istream :=
  if n <? INT_MIN then (Some INT_MIN, mkStream r true)
  else if INT_MAX <? n then (Some INT_MAX, mkStream r true)
  else (Some n, mkStream r false).

Definition read_int (s : istream) : option Z * istream :=
  if failed s then (None, s)
  else match rest s with
       | [] => (None, mkStream [] true)
       | TInt n :: r => store_int n r
       | TFloat _ n behind :: r => store_int n (behind :: r)
       | _ :: _ => (Some 0, mkStream (rest s) true)
       end.

(** [in >> n] into an [unsigned int]: a negative literal wraps around. *)
Definition store_uint (n : Z) (r : list token) : option Z * istream :=
  if (n <? - UINT_MAX) || (UINT_MAX <? n)
  then (Some UINT_MAX, mkStream r true)
  else (Some (to_uint n), mkStream r false).

Definition read_uint (s : istream) : option Z * istream :=
  if failed s then (None, s)
  else match rest s with
       | [] => (None, mkStream [] true)
       | TInt n :: r => store_uint n r
       | TFloat _ n behind :: r => store_uint n (behind :: r)
       | _ :: _ => (Some 0, mkStream (rest s) true)
       end.

(** [in >> x] into a [float]: a literal beyond the largest float stores
    that one and fails the stream. *)
Definition store_float (x : float) (r : list token) : option float * istream :=
  match x with
  | S754_infinity sg =>
      (Some (if sg then F32.neg F32.FLT_MAX else F32.FLT_MAX), mkStream r true)
  | _ => (Some x, mkStream r false)
  end.

Definition read_float (s : istream) : option float * istream :=
  if failed s then (None, s)
  else match rest s with
       | [] => (None, mkStream [] true)
       | TFloat x _ _ :: r => store_float x r
       | TFraction x :: r => store_float x r
       | TInt n :: r => store_float (F32.of_Z n) r
       | TWord _ :: _ => (Some F32.zero, mkStream (rest s) true)
       end.

Definition stored {A} (old : A) (read : option A) : A :=
  match read with Some a => a | None => old end.

(** [in >> v[0]; in >> v[1]; in >> v[2]] *)
Definition read_vec3f (old : Vec3f) (s : istream) : Vec3f * istream :=
  let (x, s1) := read_float s in
  let (y, s2) := read_float s1 in
  let (z, s3) := read_float s2 in
  (mkVec3 (stored (vx old) x) (stored (vy old) y) (stored (vz old) z), s3).

Inductive Tag : Type := TagOFF | TagNOFF | TagUnknown.

(** The test on the first word [s]: [s[0]=='O' && s[1]=='F' && s[2]=='F'],
    else [s[0]=='N' && s[1]=='O' && s[2]=='F' && s[3]=='F'].  A numeric
    field starts with a digit, a sign or a point. *)
Definition tagOf (t : token) : Tag :=
  match t with
  | TWord s => if prefix "OFF" s then TagOFF
               else if prefix "NOFF" s then TagNOFF
               else TagUnknown
  | _ => TagUnknown
  end.

Record Loading : Type := mkLoading {
  l_vertices : list Vec3f;
  l_normals : list Vec3f;
  l_min : Vec3f;
  l_max : Vec3f;
  l_in : istream
}.

(** One round of the vertex loop of [loadOFF]. *)
Definition loadVertex (noff : bool) (i : Z) (st : Loading) : outcome Loading :=
  old <~ at_ "vertices" (l_vertices st) i ;;
  let (v, s1) := read_vec3f old (l_in st) in
  vs <~ put "vertices" (l_vertices st) i v ;;
  let lo := growMin (l_min st) v in
  let hi := growMax (l_max st) v in
  if noff
  then oldn <~ at_ "normals" (l_normals st) i ;;
       let (n, s2) := read_vec3f oldn s1 in
       ns <~ put "normals" (l_normals st) i n ;;
       Done (mkLoading vs ns lo hi s2)
  else Done (mkLoading vs (l_normals st) lo hi s1).

Fixpoint loadVertices (noff : bool) (count : nat) (i : Z) (st : Loading)
  : outcome Loading :=
  match count with
  | O => Done st
  | S count' => st' <~ loadVertex noff i st ;; loadVertices noff count' (i + 1) st'
  end.

(** One round of the face loop: the leading count, then three indices. *)
Definition loadTriangle (i : Z) (st : list Triangle * istream)
  : outcome (list Triangle * istream) :=
  let (ts, s) := st in
  let (_, s0) := read_int s in
  old <~ at_ "triangles" ts i ;;
  let (a, s1) := read_uint s0 in
  let (b, s2) := read_uint s1 in
  let (c, s3) := read_uint s2 in
  ts' <~ put "triangles" ts i
            (mkVec3 (stored (vx old) a) (stored (vy old) b) (stored (vz old) c)) ;;
  Done (ts', s3).

Fixpoint loadTriangles (count : nat) (i : Z) (st : list Triangle * istream)
  : outcome (list Triangle * istream) :=
  match count with
  | O => Done st
  | S count' => st' <~ loadTriangle i st ;; loadTriangles count' (i + 1) st'
  end.

Definition zeroTriangle : Triangle := mkVec3 0 0 0.

(** [loadOFF] from the counts on: [s] is the stream behind the tag. *)
Definition readMesh (noff : bool) (s : istream) (createVBOs : bool) (m : TriangleMesh)
  : M TriangleMesh :=
  let (onv, s1) := read_int s in
  let (onf, s2) := read_int s1 in
  let (_, s3) := read_int s2 in
  match onv with
  | None => undefined (Indeterminate "nv")
  | Some nv =>
      if nv <=? 0 then ret m
      else match onf with
           | None => undefined (Indeterminate "nf")
           | Some nf =>
               if nf <=? 0 then ret m
               else
                 st <- lift (loadVertices noff (Z.to_nat nv) 0
                               (mkLoading (resize Vec.zero (Z.to_nat nv) (vertices m))
                                          (normals m)
                                          (boundingBoxMin m) (boundingBoxMax m) s3)) ;;
                 let m1 := set_box (mkBoundingBox (l_min st) (l_max st)
                                      (midOf (l_min st) (l_max st))
                                      (sizeOf (l_min st) (l_max st)))
                             (set_normals (l_normals st)
                                (set_vertices (l_vertices st) m)) in
                 ts <- lift (loadTriangles (Z.to_nat nf) 0
                               (resize zeroTriangle (Z.to_nat nf) (triangles m1),
                                l_in st)) ;;
                 let m2 := set_triangles (fst ts) m1 in
                 m3 <- (if noff then ret m2 else lift (calculateNormalsByArea m2)) ;;
                 let m4 := calculateTexCoordsSphereMapping m3 in
                 if createVBOs then createAllVBOs m4 else ret m4
           end
  end.

(** What [loadOFF] does once the file is open: the first word is the tag;
    with no word at all the buffer [s] is read without having been
    written. *)
Definition parseOFF (input : list token) (createVBOs : bool) (m : TriangleMesh)
  : M TriangleMesh :=
  match input with
  | [] => undefined (Indeterminate "s")
  | t :: input' =>
      match tagOf t with
      | TagUnknown => ret m
      | TagOFF => readMesh false (mkStream input' false) createVBOs m
      | TagNOFF => readMesh true (mkStream input' false) createVBOs m
      end
  end.

(** [TriangleMesh::loadOFF(const char *filename, bool createVBOs)] *)
Definition loadOFF (filename : string) (createVBOs : bool) (m : TriangleMesh)
  : M TriangleMesh :=
  m0 <- clear m ;;
  file <- open filename ;;
  match file with
  | None => print ("loadOFF: can not find " ++ filename) ;;; ret m0
  | Some input => parseOFF input createVBOs m0
  end.

(* ------------------------------------------------------------------ *)
(** ** View-frustum culling *)

(** [planes[0] .. planes[5]] before normalisation. *)
Definition extractPlanes (m : Mat4) : list Plane.t :=
  [ Plane.mk (m[[3]] - m[[0]]) (m[[7]] - m[[4]]) (m[[11]] - m[[8]]) (m[[15]] - m[[12]]);
    Plane.mk (m[[3]] + m[[0]]) (m[[7]] + m[[4]]) (m[[11]] + m[[8]]) (m[[15]] + m[[12]]);
    Plane.mk (m[[3]] + m[[1]]) (m[[7]] + m[[5]]) (m[[11]] + m[[9]]) (m[[15]] + m[[13]]);
    Plane.mk (m[[3]] - m[[1]]) (m[[7]] - m[[5]]) (m[[11]] - m[[9]]) (m[[15]] - m[[13]]);
    Plane.mk (m[[3]] + m[[2]]) (m[[7]] + m[[6]]) (m[[11]] + m[[10]]) (m[[15]] + m[[14]]);
    Plane.mk (m[[3]] - m[[2]]) (m[[7]] - m[[6]]) (m[[11]] - m[[10]]) (m[[15]] - m[[14]])
  ]%f32.

Definition boxCorners (lo hi : Vec3f) : list Vec3f :=
  [ mkVec3 (vx lo) (vy lo) (vz lo); mkVec3 (vx hi) (vy lo) (vz lo);
    mkVec3 (vx lo) (vy hi) (vz lo); mkVec3 (vx hi) (vy hi) (vz lo);
    mkVec3 (vx lo) (vy lo) (vz hi); mkVec3 (vx hi) (vy lo) (vz hi);
    mkVec3 (vx lo) (vy hi) (vz hi); mkVec3 (vx hi) (vy hi) (vz hi) ].

(** [plane.a * corner.x() + plane.b * corner.y() + plane.c * corner.z() + plane.d] *)
Definition planeValue (p : Plane.t) (corner : Vec3f) : float :=
  (Plane.a p * vx corner + Plane.b p * vy corner + Plane.c p * vz corner + Plane.d p)%f32.

Definition onInside (p : Plane.t) (corner : Vec3f) : bool :=
  (planeValue p corner >=? F32.zero)%f32.

(** The inner loop: [allOutside] stays true unless some corner passes. *)
Fixpoint allOutside (p : Plane.t) (cs : list Vec3f) : bool :=
  match cs with
  | [] => true
  | corner :: cs' => if onInside p corner then false else allOutside p cs'
  end.

(** The outer loop: the first plane with all corners outside answers false. *)
Fixpoint noPlaneRejects (planes : list Plane.t) (cs : list Vec3f) : bool :=
  match planes with
  | [] => true
  | p :: planes' => if allOutside p cs then false else noPlaneRejects planes' cs
  end.

Definition clipMatrix (state : RenderState) : Mat4 :=
  QMatrix4x4_mul (getCurrentProjectionMatrix state) (getCurrentModelViewMatrix state).

Definition frustumPlanes (state : RenderState) : list Plane.t :=
  map Plane.normalize (extractPlanes (clipMatrix state)).

(** [TriangleMesh::boundingBoxIsVisible] *)
Definition boundingBoxIsVisible (state : RenderState) (m : TriangleMesh) : bool :=
  noPlaneRejects (frustumPlanes state)
                 (boxCorners (getBoundingBoxMin m) (getBoundingBoxMax m)).

(* ------------------------------------------------------------------ *)
(** ** Drawing *)

(** [TriangleMesh::drawBB] *)
Definition drawBB (m : TriangleMesh) (state : RenderState) : M RenderState :=
  gl (glBindVertexArray (VAObb (handles m))) ;;;
  let s1 := pushModelViewMatrix state in
  let mid := boundingBoxMid m in
  let size := boundingBoxSize m in
  let s2 := setModelViewMatrix
              (QMatrix4x4_translate (getCurrentModelViewMatrix s1) (vx mid) (vy mid) (vz mid)) s1 in
  let s3 := setModelViewMatrix
              (QMatrix4x4_scale (getCurrentModelViewMatrix s2) (vx size) (vy size) (vz size)) s2 in
  gl (glUniformMatrix4fv (getModelViewUniform s3) (getCurrentModelViewMatrix s3)) ;;;
  gl (glVertexAttrib3f (AttribIndex 2) F32.one F32.one F32.one) ;;;
  gl (glDrawElements GL_LINES 24) ;;;
  match popModelViewMatrix s3 with
  | Some s4 => ret s4
  | None => undefined StackUnderflow
  end.

(** [TriangleMesh::drawNormals] *)
Definition drawNormals (m : TriangleMesh) (state : RenderState) : M unit :=
  gl (glBindVertexArray (VAOn (handles m))) ;;;
  gl (glUniformMatrix4fv (getModelViewUniform state) (getCurrentModelViewMatrix state)) ;;;
  gl (glVertexAttrib3f (AttribIndex 2) F32.one F32.one F32.one) ;;;
  gl (glDrawArrays GL_LINES 0 (len (vertices m) * 2)).

Definition flag (b : bool) : Z := if b then 1 else 0.

(** The three labelled groups of the [switch] in [drawVBO] that can be
    entered from the label above. *)
Definition bindStaticColor (m : TriangleMesh) (state : RenderState) : M unit :=
  gl (glUniform1ui (getUseTextureUniform state) GL_FALSE) ;;;
  gl (glDisableVertexAttribArray COLOR_LOCATION) ;;;
  gl (glVertexAttrib3fv (AttribIndex 2) (staticColor m)).

Definition bindColorArray (m : TriangleMesh) (state : RenderState) : M unit :=
  if present (VBOc (handles m))
  then gl (glUniform1ui (getUseTextureUniform state) GL_FALSE) ;;;
       gl (glEnableVertexAttribArray COLOR_LOCATION)
  else bindStaticColor m state.

Definition bindTexture (m : TriangleMesh) (state : RenderState) : M unit :=
  if present (textureID m)
  then gl (glUniform1ui (getUseTextureUniform state) GL_TRUE) ;;;
       gl (glActiveTexture 0) ;;;
       gl (glBindTexture2D (textureID m)) ;;;
       gl (glUniform1i (getTextureUniform state) 0)
  else bindColorArray m state.

Definition bindBumpMapping (m : TriangleMesh) (state : RenderState) : M unit :=
  let d := mode m in
  let program := getCurrentProgram state in
  gl (glDisableVertexAttribArray COLOR_LOCATION) ;;;
  gl (glVertexAttrib3fv (AttribIndex 2) (staticColor m)) ;;;
  gl (glUniform1ui (glGetUniformLocation program "useDiffuse")
                   (flag (d_enableDiffuseTexture d))) ;;;
  gl (glUniform1ui (glGetUniformLocation program "useNormal")
                   (flag (d_enableNormalMapping d))) ;;;
  gl (glUniform1ui (glGetUniformLocation program "useDisplacement")
                   (flag (d_enableDisplacementMapping d))) ;;;
  gl (glUniform1i (glGetUniformLocation program "diffuseTexture") 0) ;;;
  gl (glActiveTexture 0) ;;;
  gl (glBindTexture2D (d_textureID d)) ;;;
  gl (glUniform1i (glGetUniformLocation program "normalTexture") 1) ;;;
  gl (glActiveTexture 1) ;;;
  gl (glBindTexture2D (d_normalMapID d)) ;;;
  gl (glUniform1i (glGetUniformLocation program "displacementTexture") 3) ;;;
  gl (glActiveTexture 3) ;;;
  gl (glBindTexture2D (d_displacementMapID d)).

(** [TriangleMesh::drawVBO] *)
Definition drawVBO (m : TriangleMesh) (state : RenderState) : M unit :=
  gl (glBindVertexArray (VAO (handles m))) ;;;
  gl (glUniformMatrix4fv (getModelViewUniform state) (getCurrentModelViewMatrix state)) ;;;
  gl (glUniformMatrix3fv (getNormalMatrixUniform state) (calculateNormalMatrix state)) ;;;
  match coloringType m with
  | TEXTURE => bindTexture m state
  | COLOR_ARRAY => bindColorArray m state
  | STATIC_COLOR => bindStaticColor m state
  | BUMP_MAPPING => bindBumpMapping m state
  end ;;;
  gl (glDrawElements GL_TRIANGLES (3 * len (triangles m))).

(** [TriangleMesh::draw]: the number of triangles drawn and the render
    state afterwards. *)
Definition draw (m : TriangleMesh) (state : RenderState) : M (Z * RenderState) :=
  if negb (boundingBoxIsVisible state m) then ret (0, state)
  else if VAO (handles m) =? 0 then ret (0, state)
  else
    s' <- (if withBB m || withNormals m
           then let formerProgram := getCurrentProgram state in
                let s1 := switchToStandardProgram state in
                s2 <- (if withBB m then drawBB m s1 else ret s1) ;;
                when (withNormals m) (drawNormals m s2) ;;;
                ret (setCurrentProgram formerProgram s2)
           else ret state) ;;
    drawVBO m s' ;;;
    ret (to_uint (len (triangles m)), s').

(* ------------------------------------------------------------------ *)
(** ** The sphere *)

Definition longdiv : Z := 200.
Definition latdiv : Z := 100.

(** [float(angle01 * factor * M_PI)] with the product by [M_PI] in double. *)
Definition timesPi (x : float) : float :=
  F64.to_f32 (F64.mul (F64.of_f32 x) F64.M_PI).

Definition up : Vec3f := mkVec3 F32.zero F32.one F32.zero.

(** The body of the inner vertex loop of [generateSphere]. *)
Definition sphereVertex (latitude longitude : Z) (g : Geometry) : Geometry :=
  let v := (F32.of_Z latitude / F32.of_Z latdiv)%f32 in
  let latangle := timesPi v in
  let extent := sinf latangle in
  let y := F32.neg (cosf latangle) in
  let u := (F32.of_Z longitude / F32.of_Z longdiv)%f32 in
  let longangle := timesPi (u * F32.of_Z 2)%f32 in
  let z := (sinf longangle * extent)%f32 in
  let x := (cosf longangle * extent)%f32 in
  let pos := mkVec3 x y z in
  mkGeometry (g_vertices g ++ [pos]) (g_triangles g) (g_normals g ++ [pos])
             (g_colors g)
             (g_texCoords g ++ [((F32.of_Z 2 - F32.of_Z 2 * u)%f32, v)])
             (g_tangents g ++ [Vec.cross up pos]).

(** The body of the inner face loop of [generateSphere]. *)
Definition sphereFaces (latitude longitude : Z) (g : Geometry) : Geometry :=
  let bottomBase := to_uint (latitude * (longdiv + 1)) in
  let topBase := to_uint ((latitude + 1) * (longdiv + 1)) in
  let bottomCurrent := to_uint (bottomBase + longitude) in
  let bottomNext := to_uint (bottomBase + (longitude + 1)) in
  let topCurrent := to_uint (topBase + longitude) in
  let topNext := to_uint (topBase + (longitude + 1)) in
  mkGeometry (g_vertices g)
             (g_triangles g ++ [mkVec3 bottomCurrent bottomNext topNext;
                                mkVec3 topNext topCurrent bottomCurrent])
             (g_normals g) (g_colors g) (g_texCoords g) (g_tangents g).

(** [for (i = 0; i < n; i++)] as the list of the values of [i]. *)
Definition upto (n : Z) : list Z := map Z.of_nat (seq 0 (Z.to_nat n)).

Definition grid {A} (rows cols : Z) (body : Z -> Z -> A -> A) (a : A) : A :=
  fold_left (fun acc r => fold_left (fun acc' c => body r c acc') (upto cols) acc)
            (upto rows) a.

(** [TriangleMesh::generateSphere] *)
Definition generateSphere (fp : bool) (m : TriangleMesh) : M TriangleMesh :=
  let m1 := setGLFunctionPtr fp m in
  let g1 := grid (latdiv + 1) (longdiv + 1) sphereVertex (geometry m1) in
  let g2 := grid latdiv longdiv sphereFaces g1 in
  let two := F32.of_Z 2 in
  let b := mkBoundingBox (mkVec3 (F32.of_Z (-1)) (F32.of_Z (-1)) (F32.of_Z (-1)))
                         (mkVec3 F32.one F32.one F32.one)
                         (mkVec3 F32.zero F32.zero F32.zero)
                         (mkVec3 two two two) in
  createAllVBOs (set_box b (set_geometry g2 m1)).

(* ------------------------------------------------------------------ *)
(** ** The terrain *)

Definition to_int (z : Z) : Z := (z + 2 ^ 31) mod 2 ^ 32 - 2 ^ 31.

Definition Heightmap : Type := list (list float).

(** [heightmap[x][z]] *)
Definition height (hm : Heightmap) (x z : Z) : outcome float :=
  column <~ at_ "heightmap" hm x ;; at_ "heightmap[x]" column z.

(** [heightmap[x][z] = y] *)
Definition setHeight (hm : Heightmap) (x z : Z) (y : float) : outcome Heightmap :=
  column <~ at_ "heightmap" hm x ;;
  column' <~ put "heightmap[x]" column z y ;;
  put "heightmap" hm x column'.

(** The values of [i] in [for (i = start; i < bound; i += step)], for a
    positive [step]. *)
Definition stride (start bound step : Z) : list Z :=
  map (fun k => start + k * step) (upto ((bound - start + step - 1) / step)).

Fixpoint foldM {A S} (body : A -> S -> outcome S) (l : list A) (s : S) : outcome S :=
  match l with
  | [] => Done s
  | a :: l' => s' <~ body a s ;; foldM body l' s'
  end.

(** The height field under construction and the number of values drawn so
    far from the random source. *)
Definition Field : Type := (Heightmap * nat)%type.

Section Terrain.
(** [dist(gen)]: the successive draws of the uniform distribution. *)
Variable dist : nat -> float.
Variables h w : Z.

Definition quarter : float := F32.of_scaled 1 (-2).

Definition offsetBy (roughness : float) (k : nat) : float :=
  (dist k * roughness - roughness * F32.half)%f32.

(** The body of the diamond step. *)
Definition diamond (halfStep : Z) (roughness : float) (x z : Z) (fd : Field)
  : outcome Field :=
  let (hm, k) := fd in
  a <~ height hm (x - halfStep) (z - halfStep) ;;
  b <~ height hm (x + halfStep) (z - halfStep) ;;
  c <~ height hm (x - halfStep) (z + halfStep) ;;
  d <~ height hm (x + halfStep) (z + halfStep) ;;
  let avg := ((a + b + c + d) * quarter)%f32 in
  hm' <~ setHeight hm x z (avg + offsetBy roughness k)%f32 ;;
  Done (hm', S k).

(** One guarded neighbour of the square step: [sum] and [count]. *)
Definition neighbour (hm : Heightmap) (guard : bool) (x z : Z) (acc : float * Z)
  : outcome (float * Z) :=
  if guard
  then y <~ height hm x z ;; Done ((fst acc + y)%f32, snd acc + 1)
  else Done acc.

(** The body of the square step. *)
Definition square (halfStep : Z) (roughness : float) (x z : Z) (fd : Field)
  : outcome Field :=
  let (hm, k) := fd in
  let W := to_int w in
  let H := to_int h in
  acc <~ neighbour hm ((x - halfStep >=? 0) && (z - halfStep >=? 0))
           (x - halfStep) (z - halfStep) (F32.zero, 0) ;;
  acc <~ neighbour hm ((x + halfStep <=? W) && (z - halfStep >=? 0))
           (x + halfStep) (z - halfStep) acc ;;
  acc <~ neighbour hm ((x - halfStep >=? 0) && (z + halfStep <=? H))
           (x - halfStep) (z + halfStep) acc ;;
  acc <~ neighbour hm ((x + halfStep <=? W) && (z + halfStep <=? H))
           (x + halfStep) (z + halfStep) acc ;;
  let (sum, count) := acc in
  let avg := if count >? 0 then (sum / F32.of_Z count)%f32 else F32.zero in
  hm' <~ setHeight hm x z (avg + offsetBy roughness k)%f32 ;;
  Done (hm', S k).

(** One round of the [while (stepSize > 1)] loop. *)
Definition refine (stepSize : Z) (roughness : float) (fd : Field) : outcome Field :=
  let halfStep := stepSize / 2 in
  fd1 <~ foldM (fun x => foldM (diamond halfStep roughness x)
                               (stride halfStep (to_int h) stepSize))
               (stride halfStep (to_int w) stepSize) fd ;;
  foldM (fun x => foldM (square halfStep roughness x)
                        (stride (if (x / halfStep) mod 2 =? 0 then halfStep else 0)
                                (to_int h + 1) stepSize))
        (stride 0 (to_int w + 1) halfStep) fd1.

(** The loop runs while [stepSize > 1] and halves [stepSize]: that is
    [Z.log2 stepSize] rounds, counted by [rounds]. *)
Fixpoint diamondSquare (rounds : nat) (stepSize : Z) (roughness : float) (fd : Field)
  : outcome Field :=
  match rounds with
  | O => Done fd
  | S rounds' =>
      fd' <~ refine stepSize roughness fd ;;
      diamondSquare rounds' (stepSize / 2) (roughness * F32.half)%f32 fd'
  end.

(** The lambda [computeColor]. *)
Definition computeColor (heightValue : float) : Vec3f :=
  let v := F32.clamp heightValue F32.zero (F32.of_Z 10) in
  if (v <? F32.of_ratio 15 10)%f32 then mkVec3 F32.zero F32.zero F32.one
  else if (v <? F32.of_ratio 25 10)%f32
       then mkVec3 F32.half (F32.of_ratio 35 100) (F32.of_ratio 5 100)
  else if (v <? F32.of_Z 4)%f32 then mkVec3 F32.zero (F32.of_ratio 7 10) F32.zero
  else if (v <? F32.of_Z 6)%f32 then mkVec3 F32.half F32.half F32.half
  else mkVec3 F32.one F32.one F32.one.

(** The body of the loop that emits one vertex per grid point. *)
Definition terrainVertex (hm : Heightmap) (z x : Z) (g : Geometry) : outcome Geometry :=
  y <~ height hm x z ;;
  Done (mkGeometry (g_vertices g ++ [mkVec3 (F32.of_Z x) y (F32.of_Z z)])
                   (g_triangles g)
                   (g_normals g ++ [up])
                   (g_colors g ++ [computeColor y])
                   (g_texCoords g) (g_tangents g)).

(** The body of the loop that emits two triangles per grid cell. *)
Definition terrainCell (z x : Z) (g : Geometry) : Geometry :=
  let i0 := to_uint (z * to_uint (w + 1) + x) in
  let i1 := to_uint (i0 + 1) in
  let i2 := to_uint ((z + 1) * to_uint (w + 1) + x) in
  let i3 := to_uint (i2 + 1) in
  mkGeometry (g_vertices g)
             (g_triangles g ++ [mkVec3 i0 i2 i1; mkVec3 i1 i2 i3])
             (g_normals g) (g_colors g) (g_texCoords g) (g_tangents g).

(** Steps 2 to 4 of [generateTerrain]: the height field. *)
Definition heightField : outcome Heightmap :=
  let hm := repeat (repeat F32.zero (Z.to_nat (to_uint (h + 1))))
                   (Z.to_nat (to_uint (w + 1))) in
  hm <~ setHeight hm 0 0 (dist 0) ;;
  hm <~ setHeight hm w 0 (dist 1) ;;
  hm <~ setHeight hm 0 h (dist 2) ;;
  hm <~ setHeight hm w h (dist 3) ;;
  let stepSize := to_int (Z.max w h) in
  fd <~ diamondSquare (Z.to_nat (Z.log2 stepSize)) stepSize (F32.of_Z 3) (hm, 4%nat) ;;
  Done (fst fd).

(** Step 5 of [generateTerrain]: the mesh over the height field. *)
Definition terrainGeometry (hm : Heightmap) (g : Geometry) : outcome Geometry :=
  g1 <~ foldM (fun z => foldM (terrainVertex hm z) (upto (to_int w + 1)))
              (upto (to_int h + 1)) g ;;
  Done (grid (to_int h) (to_int w) terrainCell g1).

(** [TriangleMesh::generateTerrain(h, w, iterations)]; [iterations] is not
    used by the body. *)
Definition generateTerrain (m : TriangleMesh) : M TriangleMesh :=
  m0 <- clear m ;;
  hm <- lift heightField ;;
  g <- lift (terrainGeometry hm (geometry m0)) ;;
  m1 <- lift (calculateNormalsByArea (set_geometry g m0)) ;;
  createAllVBOs (calculateBB m1).

End Terrain.

End Model.

(* ------------------------------------------------------------------ *)
(** ** The paint loop *)

Inductive signal : Type :=
| fpsCountChanged (newFps : Z)
| triangleCountChanged (newTriangles : Z)
| shaderCompiled (index : Z).

Record OpenGLView : Type := mkView {
  gridSize : Z;
  trianglesLastRun : Z;
  mesh_drawn : Z;
  mesh_culled : Z;
  frameCounter : Z;
  objectPositions : list Vec3f
}.

(** [OpenGLView::generateRandomPosition]: 500 more positions, whatever
    [newObjectCount] is; [position k] is the [k]-th vector the random
    source yields. *)
Definition generateRandomPosition (position : nat -> Vec3f) (newObjectCount : Z)
    (v : OpenGLView) : OpenGLView :=
  mkView (gridSize v) (trianglesLastRun v) (mesh_drawn v) (mesh_culled v)
         (frameCounter v) (objectPositions v ++ map position (seq 0 500)).

(** What one frame's [draw] calls return, in the order [paintGL] issues
    them: the bump-mapped sphere, the [i]-th instance of [meshes[0]], and
    [meshes[1]], [meshes[2]], ...  The vector [meshes] holds [meshes[0]]:
    [initializeGL] puts two meshes there before the first frame and no
    function removes one. *)
Record Frame : Type := mkFrame {
  bumpSphereDrawn : Z;
  instanceDrawn : Z -> Z;
  meshDrawn : list Z
}.

(** [gridSize * 5] in [int]: an overflow is undefined. *)
Definition instanceCount (v : OpenGLView) : outcome Z :=
  let n := gridSize v * 5 in
  if (INT_MIN <=? n) && (n <=? INT_MAX) then Done n
  else Undefined (SignedOverflow "gridSize * 5").

(** One round of the loop over the instances in openglview.cpp: the
    instance is moved to [objectPositions[i]] and drawn; a culled one is
    counted, the triangles are summed in an [unsigned int]. *)
Definition drawInstance (fr : Frame) (positions : list Vec3f) (i : Z) (acc : Z * Z)
  : outcome (Z * Z) :=
  let (trianglesDrawn, culled) := acc in
  position <~ at_ "objectPositions" positions i ;;
  let triangles_check := to_int (instanceDrawn fr i) in
  Done (to_uint (trianglesDrawn + triangles_check),
        if triangles_check =? 0 then culled + 1 else culled).

Definition drawInstances (fr : Frame) (positions : list Vec3f) (count : Z)
    (acc : Z * Z) : outcome (Z * Z) :=
  foldM (drawInstance fr positions) (upto count) acc.

Definition drawMeshes (fr : Frame) (trianglesDrawn : Z) : Z :=
  fold_left (fun acc n => to_uint (acc + n)) (meshDrawn fr) trianglesDrawn.

(** The end of [paintGL]: compare with the recorded total, notify. *)
Definition notify (trianglesDrawn : Z) (v : OpenGLView) : OpenGLView * list signal :=
  if negb (trianglesDrawn =? trianglesLastRun v)
  then (mkView (gridSize v) trianglesDrawn (mesh_drawn v) (mesh_culled v) (frameCounter v)
               (objectPositions v),
        [triangleCountChanged trianglesDrawn])
  else (v, []).

(** [OpenGLView::paintGL] of openglview.cpp (random object positions).
    [mesh_drawn = gridSize * 5 - mesh_culled] stays an [int]: the loop
    counts at most [gridSize * 5] culled instances. *)
Definition paintGL (fr : Frame) (v : OpenGLView) : outcome (OpenGLView * list signal) :=
  instances <~ instanceCount v ;;
  drawn <~ drawInstances fr (objectPositions v) instances
             (to_uint (0 + bumpSphereDrawn fr), 0) ;;
  let (trianglesDrawn, culled) := drawn in
  let trianglesDrawn := drawMeshes fr trianglesDrawn in
  let (v1, signals) := notify trianglesDrawn v in
  Done (mkView (gridSize v1) (trianglesLastRun v1) (instances - culled) culled
               (to_uint (frameCounter v1 + 1)) (objectPositions v1),
        signals).

(** [OpenGLView::paintGL] of the second variant of the file: a row of
    [gridSize] instances of [meshes[0]], each one unit further along x; no
    positions are read and no culling statistics are kept. *)
Definition paintGL_row (fr : Frame) (v : OpenGLView) : OpenGLView * list signal :=
  let trianglesDrawn :=
    fold_left (fun acc i => to_uint (acc + instanceDrawn fr i)) (upto (gridSize v))
              (to_uint (0 + bumpSphereDrawn fr)) in
  let trianglesDrawn := drawMeshes fr trianglesDrawn in
  let (v1, signals) := notify trianglesDrawn v in
  (mkView (gridSize v1) (trianglesLastRun v1) (mesh_drawn v1) (mesh_culled v1)
          (to_uint (frameCounter v1 + 1)) (objectPositions v1),
   signals).

(** A run of frames painted by [paint]: the signals of each frame, and the
    view at the end. *)
Fixpoint paintFrames
    (paint : Frame -> OpenGLView -> outcome (OpenGLView * list signal))
    (frames : list Frame) (v : OpenGLView)
  : outcome (OpenGLView * list (list signal)) :=
  match frames with
  | [] => Done (v, [])
  | fr :: frames' =>
      painted <~ paint fr v ;;
      later <~ paintFrames paint frames' (fst painted) ;;
      Done (fst later, snd painted :: snd later)
  end.

(* ------------------------------------------------------------------ *)
(** ** A reference platform

    Column-major 4x4 matrices with the textbook product; it serves to
    evaluate the model on concrete scenes.  The elementary functions are
    only needed where a mesh gets texture coordinates; the reference
    platform answers zero there. *)

Definition entry (m : Mat4) (row col : nat) : float := m[[(col * 4 + row)%nat]].

Definition matMul (a b : Mat4) : Mat4 :=
  flat_map (fun col =>
    map (fun row =>
      (entry a row 0 * entry b 0 col + entry a row 1 * entry b 1 col
       + entry a row 2 * entry b 2 col + entry a row 3 * entry b 3 col)%f32)
      (seq 0 4)) (seq 0 4).

Definition identity4 : Mat4 :=
  let o := F32.one in let z := F32.zero in
  [o; z; z; z;  z; o; z; z;  z; z; o; z;  z; z; z; o].

Definition translation (x y z : float) : Mat4 :=
  let o := F32.one in let n := F32.zero in
  [o; n; n; n;  n; o; n; n;  n; n; o; n;  x; y; z; o].

Definition scaling (x y z : float) : Mat4 :=
  let o := F32.one in let n := F32.zero in
  [x; n; n; n;  n; y; n; n;  n; n; z; n;  n; n; n; o].

Definition referencePlatform : Platform := {|
  QMatrix4x4_mul := matMul;
  QMatrix4x4_translate := fun m x y z => matMul m (translation x y z);
  QMatrix4x4_scale := fun m x y z => matMul m (scaling x y z);
  calculateNormalMatrix := fun s =>
    let m := modelViewMatrix s in
    [m[[0]]; m[[1]]; m[[2]]; m[[4]]; m[[5]]; m[[6]]; m[[8]]; m[[9]]; m[[10]]];
  getModelViewUniform := fun _ => 0;
  getNormalMatrixUniform := fun _ => 1;
  getUseTextureUniform := fun _ => 2;
  getTextureUniform := fun _ => 3;
  glGetUniformLocation := fun _ _ => 4;
  glBufferSize := fun n => n;
  BoxVerticesSize := 96;
  BoxLineIndicesSize := 96;
  sinf := fun _ => F32.zero;
  cosf := fun _ => F32.zero;
  asinf := fun _ => F32.zero;
  atan2f := fun _ _ => F32.zero
|}.

(* ------------------------------------------------------------------ *)
(** ** Worked inputs *)

Definition emptyMesh : TriangleMesh :=
  mkMesh (mkGeometry [] [] [] [] [] [])
         (mkBoundingBox FLT_MAX3 negFLT_MAX3 Vec.zero Vec.zero)
         (mkDrawMode STATIC_COLOR false false 0 0 0 false false false
                     (mkVec3 F32.one F32.one F32.one))
         true noHandles.

(** The box from (-1,-1,-1) to (1,1,1). *)
Definition unitBox : TriangleMesh :=
  set_box (mkBoundingBox (mkVec3 (F32.of_Z (-1)) (F32.of_Z (-1)) (F32.of_Z (-1)))
                         (mkVec3 F32.one F32.one F32.one)
                         Vec.zero (mkVec3 (F32.of_Z 2) (F32.of_Z 2) (F32.of_Z 2)))
          emptyMesh.

(** A render state with the identity as model-view matrix. *)
Definition stateWith (projection : Mat4) : RenderState :=
  mkRenderState identity4 [] projection Vec.zero 1 1.

(** A clip matrix whose only non-zero entry is [m[15] = 1]: each of the six
    planes is (0, 0, 0, 1), which every point satisfies. *)
Definition degenerateClip : Mat4 := repeat F32.zero 15 ++ [F32.one].

(** The triangle (0,0,0), (1,0,0), (0,1,0). *)
Definition singleTriangle : TriangleMesh :=
  set_triangles [mkVec3 0 1 2]
    (set_vertices [mkVec3 F32.zero F32.zero F32.zero;
                   mkVec3 F32.one F32.zero F32.zero;
                   mkVec3 F32.zero F32.one F32.zero] emptyMesh).

(** The box that [calculateBB] derives for a single vertex without a
    number in any coordinate: [Min] and [Max] are that vertex. *)
Definition nanBox : TriangleMesh :=
  calculateBB (set_vertices [mkVec3 S754_nan S754_nan S754_nan] emptyMesh).

(* ------------------------------------------------------------------ *)
(** ** Vocabulary of the statements *)

(** A plane whose normal (a, b, c) is zero. *)
Definition zeroNormal (p : Plane.t) : Prop :=
  F32.is_zero (Plane.a p) = true /\ F32.is_zero (Plane.b p) = true
  /\ F32.is_zero (Plane.c p) = true.

(** The world after some more GL calls. *)
Definition logged (w : World) (calls : list glcall) : World :=
  mkWorld (glNext w) (glLog w ++ calls) (cout w) (files w).

Definition deleteIf (id : Z) (call : glcall) : list glcall :=
  if present id then [call] else [].

(** The delete calls [cleanupVBO] issues: one per handle that is present. *)
Definition deletions (h : Handles) : list glcall :=
  deleteIf (VAO h) (glDeleteVertexArrays (VAO h))
  ++ deleteIf (VBOv h) (glDeleteBuffers (VBOv h))
  ++ deleteIf (VBOn h) (glDeleteBuffers (VBOn h))
  ++ deleteIf (VBOf h) (glDeleteBuffers (VBOf h))
  ++ deleteIf (VBOc h) (glDeleteBuffers (VBOc h))
  ++ deleteIf (VBOt h) (glDeleteBuffers (VBOt h))
  ++ deleteIf (VBOtan h) (glDeleteBuffers (VBOtan h))
  ++ deleteIf (VAObb h) (glDeleteVertexArrays (VAObb h))
  ++ deleteIf (VBOvbb h) (glDeleteBuffers (VBOvbb h))
  ++ deleteIf (VBOfbb h) (glDeleteBuffers (VBOfbb h))
  ++ deleteIf (VAOn h) (glDeleteVertexArrays (VAOn h))
  ++ deleteIf (VBOvn h) (glDeleteBuffers (VBOvn h)).

Definition handleList (h : Handles) : list Z :=
  [VAO h; VBOv h; VBOn h; VBOf h; VBOc h; VBOt h; VBOtan h;
   VAObb h; VBOvbb h; VBOfbb h; VAOn h; VBOvn h].

(** The loop over the instances stays inside the positions: [gridSize * 5]
    is an [int] and no more than the number of positions. *)
Definition positionsSuffice (v : OpenGLView) : Prop :=
  INT_MIN <= gridSize v * 5 <= INT_MAX
  /\ gridSize v * 5 <= Z.of_nat (List.length (objectPositions v)).

Definition sumZ (l : list Z) : Z := fold_right Z.add 0 l.

(** A frame's total of drawn triangles, after the words of the
    specification: the triangles of the bump-mapped sphere, of each of the
    [instances] instances and of each further mesh, counted in an
    [unsigned int]. *)
Definition spec_frameTotal (instances : Z) (fr : Frame) : Z :=
  to_uint (bumpSphereDrawn fr
           + sumZ (map (instanceDrawn fr) (upto instances))
           + sumZ (meshDrawn fr)).

(** The instances that [draw] reports without a triangle. *)
Definition withoutTriangles (fr : Frame) (l : list Z) : list Z :=
  filter (fun i => to_int (instanceDrawn fr i) =? 0) l.

(** The view right after [initializeGL] filled the positions: the grid
    size 3 of [setDefaults], nothing recorded, 500 positions. *)
Definition freshView : OpenGLView :=
  generateRandomPosition (fun _ => Vec.zero) 500 (mkView 3 0 0 0 0 []).

(** A paint function that always returns. *)
Definition always (paint : Frame -> OpenGLView -> OpenGLView * list signal)
    (fr : Frame) (v : OpenGLView) : outcome (OpenGLView * list signal) :=
  Done (paint fr v).

(** The notifications a run of frames is to give, after the words of the
    specification: a frame notifies exactly when its total differs from
    the total recorded before it, and then that total is recorded. *)
Fixpoint spec_notifications (total : Frame -> Z) (frames : list Frame) (recorded : Z)
  : list (list signal) :=
  match frames with
  | [] => []
  | fr :: frames' =>
      (if total fr =? recorded then [] else [triangleCountChanged (total fr)])
      :: spec_notifications total frames' (total fr)
  end.

(** The face normal of [t] as [calculateNormalsByArea] computes it: the
    cross product of the edges [v1 - v0] and [v2 - v0], not normalized. *)
Definition spec_faceNormal (vs : list Vec3f) (t : Triangle) : Vec3f :=
  let v0 := nth (Z.to_nat (to_uint (vx t))) vs Vec.zero in
  let v1 := nth (Z.to_nat (to_uint (vy t))) vs Vec.zero in
  let v2 := nth (Z.to_nat (to_uint (vz t))) vs Vec.zero in
  Vec.cross (Vec.sub v1 v0) (Vec.sub v2 v0).

(** After the words of the specification: the accumulator of vertex [i]
    receives the face normal of [t] once for each corner of [t] that is
    vertex [i]. *)
Definition spec_addIncident (vs : list Vec3f) (i : nat) (acc : Vec3f) (t : Triangle)
  : Vec3f :=
  let n := spec_faceNormal vs t in
  let acc := if to_uint (vx t) =? Z.of_nat i then Vec.add acc n else acc in
  let acc := if to_uint (vy t) =? Z.of_nat i then Vec.add acc n else acc in
  if to_uint (vz t) =? Z.of_nat i then Vec.add acc n else acc.

Definition spec_accumulated (vs : list Vec3f) (ts : list Triangle) (i : nat)
    (start : Vec3f) : Vec3f :=
  fold_left (spec_addIncident vs i) ts start.

(** The three indices of [t] address vertices of [vs]. *)
Definition inRange (vs : list Vec3f) (t : Triangle) : Prop :=
  to_uint (vx t) < Z.of_nat (List.length vs)
  /\ to_uint (vy t) < Z.of_nat (List.length vs)
  /\ to_uint (vz t) < Z.of_nat (List.length vs).

Definition unitZ : Vec3f := mkVec3 F32.zero F32.zero F32.one.

(** The mesh and the world right after [clear]. *)
Definition cleared (m : TriangleMesh) : TriangleMesh :=
  mkMesh (mkGeometry [] [] [] [] [] (tangents m))
         (mkBoundingBox FLT_MAX3 negFLT_MAX3 Vec.zero Vec.zero)
         (mkDrawMode STATIC_COLOR false false 0
                     (d_normalMapID (mode m)) (d_displacementMapID (mode m))
                     (d_enableDiffuseTexture (mode m)) (d_enableNormalMapping (mode m))
                     (d_enableDisplacementMapping (mode m)) (d_staticColor (mode m)))
         (f m)
         (if f m then noHandles else handles m).

Definition afterClear (m : TriangleMesh) (w : World) : World :=
  if f m then logged w (deletions (handles m)) else w.

(** A computation that returns from each world, with a result in [Q]. *)
Definition returns {A} (x : M A) (Q : A -> Prop) : Prop :=
  forall w, exists a w', x w = Done (a, w') /\ Q a.

(** Files for the worked inputs: a file with an unknown tag, a NOFF file
    with one vertex, an OFF file whose only vertex has the largest float as
    first coordinate (written out in full, with the fraction .0), an OFF
    file with the single triangle, the same with the face count written
    1.5, and the same with the first index written 7.0. *)
Definition exampleFiles (name : string) : option (list token) :=
  if String.eqb name "unknown.off"
  then Some [TWord "XYZ"; TInt 1; TInt 1; TInt 0;
             TInt 0; TInt 0; TInt 0; TInt 3; TInt 0; TInt 0; TInt 0]
  else if String.eqb name "normals.off"
  then Some [TWord "NOFF"; TInt 1; TInt 1; TInt 0;
             TInt 0; TInt 0; TInt 0; TInt 0; TInt 0; TInt 1;
             TInt 3; TInt 0; TInt 0; TInt 0]
  else if String.eqb name "huge.off"
  then Some [TWord "OFF"; TInt 1; TInt 1; TInt 0;
             TFloat F32.FLT_MAX (2 ^ 128 - 2 ^ 104) (TFraction F32.zero);
             TInt 0; TInt 0; TInt 3; TInt 0; TInt 0; TInt 0]
  else if String.eqb name "triangle.off"
  then Some [TWord "OFF"; TInt 3; TInt 1; TInt 0;
             TInt 0; TInt 0; TInt 0;  TInt 1; TInt 0; TInt 0;  TInt 0; TInt 1; TInt 0;
             TInt 3; TInt 0; TInt 1; TInt 2]
  else if String.eqb name "decimal.off"
  then Some [TWord "OFF"; TInt 3; TFloat (F32.of_ratio 3 2) 1 (TFraction F32.half); TInt 0;
             TInt 0; TInt 0; TInt 0;  TInt 1; TInt 0; TInt 0;  TInt 0; TInt 1; TInt 0;
             TInt 3; TInt 0; TInt 1; TInt 2]
  else if String.eqb name "index.off"
  then Some [TWord "OFF"; TInt 3; TInt 1; TInt 0;
             TInt 0; TInt 0; TInt 0;  TInt 1; TInt 0; TInt 0;  TInt 0; TInt 1; TInt 0;
             TInt 3; TFloat (F32.of_Z 7) 7 (TFraction F32.zero); TInt 1; TInt 2]
  else None.

Definition exampleWorld : World := mkWorld 1 [] [] exampleFiles.

(** No coordinate of [v] is NaN. *)
Definition noNaN (v : Vec3f) : Prop :=
  F32.is_nan (vx v) = false /\ F32.is_nan (vy v) = false /\ F32.is_nan (vz v) = false.

(** [lo <= hi] in each component. *)
Definition ordered (lo hi : Vec3f) : Prop :=
  F32.leb (vx lo) (vx hi) = true /\ F32.leb (vy lo) (vy hi) = true
  /\ F32.leb (vz lo) (vz hi) = true.




(** Whether a run came to its end. *)
Definition returned {A} (x : outcome A) : bool :=
  match x with Done _ => true | Undefined _ => false end.

(** A fixed sequence of draws for the worked terrains. *)
Definition exampleDraws (k : nat) : float := F32.of_Z (Z.of_nat k mod 5).

(** A perspective projection looking down the negative z axis: opening
    angle 90 degrees, aspect 1, near plane 1, far plane 3 (column-major). *)
Definition perspective13 : Mat4 :=
  let o := F32.one in let n := F32.zero in
  [o; n; n; n;  n; o; n; n;  n; n; F32.of_Z (-2); F32.of_Z (-1);  n; n; F32.of_Z (-3); n].

(** The box of edge 1 around the origin, and the same box around
    (1000, 1000, 1000). *)
Definition boxAround (c : Z) : TriangleMesh :=
  let lo := (F32.of_Z c - F32.half)%f32 in
  let hi := (F32.of_Z c + F32.half)%f32 in
  set_box (mkBoundingBox (mkVec3 lo lo lo) (mkVec3 hi hi hi) Vec.zero Vec.zero)
          emptyMesh.

(* ------------------------------------------------------------------ *)
(** ** Changing the raw data of a mesh *)

(** Modelled from the spec: vec3.h is not among the sources; [v *= s]
    multiplies each component by [s]. *)
Definition scaled (v : Vec3f) (s : float) : Vec3f :=
  mkVec3 (vx v * s)%f32 (vy v * s)%f32 (vz v * s)%f32.

Section RawData.
Context {P : Platform}.

(** [TriangleMesh::flipNormals] *)
Definition flipNormals (createVBOs : bool) (m : TriangleMesh) : M TriangleMesh :=
  let m1 := set_normals (map (fun n => scaled n (F32.of_Z (-1))) (normals m)) m in
  if createVBOs && present (VBOn (handles m1))
  then if negb (f m1) then ret m1
       else gl (glBindBuffer GL_ARRAY_BUFFER (VBOn (handles m1))) ;;;
            gl (glBufferSubData GL_ARRAY_BUFFER (len (normals m1) * 12)) ;;;
            gl (glBindBuffer GL_ARRAY_BUFFER 0) ;;;
            ret m1
  else ret m1.

(** The end of [translateToCenter] and of [scaleToLength]: delete the
    buffers and create new ones. *)
Definition rebuildVBOs (createVBOs : bool) (m : TriangleMesh) : M TriangleMesh :=
  if createVBOs then m1 <- cleanupVBO m ;; createAllVBOs m1 else ret m.

(** [TriangleMesh::translateToCenter] *)
Definition translateToCenter (newBBmid : Vec3f) (createVBOs : bool) (m : TriangleMesh)
  : M TriangleMesh :=
  let trans := Vec.sub newBBmid (boundingBoxMid m) in
  let b := box m in
  rebuildVBOs createVBOs
    (set_box (mkBoundingBox (Vec.add (bbMin b) trans) (Vec.add (bbMax b) trans)
                            (Vec.add (bbMid b) trans) (bbSize b))
       (set_vertices (map (fun vertex => Vec.add vertex trans) (vertices m)) m)).

(** The factor of [scaleToLength]: [newLength] over the largest extent. *)
Definition scaleFactor (newLength : float) (m : TriangleMesh) : float :=
  let size := boundingBoxSize m in
  let length := F32.max (F32.max (vx size) (vy size)) (vz size) in
  (newLength / length)%f32.

(** [TriangleMesh::scaleToLength] *)
Definition scaleToLength (newLength : float) (createVBOs : bool) (m : TriangleMesh)
  : M TriangleMesh :=
  let scale := scaleFactor newLength m in
  let b := box m in
  rebuildVBOs createVBOs
    (set_box (mkBoundingBox (scaled (bbMin b) scale) (scaled (bbMax b) scale)
                            (scaled (bbMid b) scale) (scaled (bbSize b) scale))
       (set_vertices (map (fun vertex => scaled vertex scale) (vertices m)) m)).

(** [TriangleMesh::loadOFF(const char *filename, const Vec3f &BBmid,
    const float BBlength)] *)
Definition loadOFF_fitted (filename : string) (BBmid : Vec3f) (BBlength : float)
    (m : TriangleMesh) : M TriangleMesh :=
  m1 <- loadOFF filename false m ;;
  m2 <- translateToCenter BBmid false m1 ;;
  scaleToLength BBlength true m2.

End RawData.

(* ------------------------------------------------------------------ *)
(** ** The slots of the view *)

(** [OpenGLView::getTriangleCount]: the body returns its initial zero. *)
Definition getTriangleCount (v : OpenGLView) : Z := to_uint 0.

(** [OpenGLView::setGridSize] *)
Definition setGridSize (newGridSize : Z) (v : OpenGLView) : OpenGLView * list signal :=
  let v1 := mkView newGridSize (trianglesLastRun v) (mesh_drawn v) (mesh_culled v)
                   (frameCounter v) (objectPositions v) in
  (v1, [triangleCountChanged (getTriangleCount v1)]).

(** [OpenGLView::refreshFpsCounter]; the signal carries an [int]. *)
Definition refreshFpsCounter (v : OpenGLView) : OpenGLView * list signal :=
  (mkView (gridSize v) (trianglesLastRun v) (mesh_drawn v) (mesh_culled v) 0
          (objectPositions v),
   [fpsCountChanged (to_int (frameCounter v))]).

(** The shader programs the view knows and the one in use. *)
Record Shaders : Type := mkShaders {
  programIDs : list Z;
  currentProgramID : Z
}.

(** [OpenGLView::changeShader]: [programIDs.at(index)]; an index outside
    the vector ends in [qFatal], which terminates the process ([None]). *)
Definition changeShader (index : Z) (s : Shaders) : option Shaders :=
  if (0 <=? index) && (index <? len (programIDs s))
  then match nth_error (programIDs s) (Z.to_nat index) with
       | Some progID => Some (mkShaders (programIDs s) progID)
       | None => None
       end
  else None.

(** [OpenGLView::compileShader]; [programHandle] is what [readShaders]
    returned, zero on failure. *)
Definition compileShader (programHandle : Z) (s : Shaders) : Shaders * list signal :=
  if negb (programHandle =? 0)
  then let ids := programIDs s ++ [programHandle] in
       (mkShaders ids (currentProgramID s), [shaderCompiled (to_uint (len ids - 1))])
  else (s, []).

(* ------------------------------------------------------------------ *)
(** ** Vocabulary for the GL object names *)

Definition generatedBy (c : glcall) : list Z :=
  match c with
  | glGenVertexArrays id | glGenBuffers id => [id]
  | _ => []
  end.

Definition deletedBy (c : glcall) : list Z :=
  match c with
  | glDeleteVertexArrays id | glDeleteBuffers id => [id]
  | _ => []
  end.

(** The names generated, and the names deleted, by a run of calls. *)
Definition generated (calls : list glcall) : list Z := flat_map generatedBy calls.
Definition deleted (calls : list glcall) : list Z := flat_map deletedBy calls.

(** How often [id] occurs. *)
Definition occ (id : Z) (l : list Z) : nat := count_occ Z.eq_dec l id.

Definition nz (id : Z) : list Z := if id =? 0 then [] else [id].

(** The names a mesh holds: its handles that are not zero. *)
Definition held (h : Handles) : list Z := flat_map nz (handleList h).

(** The names [first], [first + 1], ..., [next - 1]. *)
Definition names (first next : Z) : list Z :=
  map (fun k => first + Z.of_nat k) (seq 0 (Z.to_nat (next - first))).

(** [x] keeps account of the names: started with the names [owned] it
    returns, generates the next names of the driver in order, and each name
    owned or generated is afterwards deleted or held by the result - counted
    with multiplicity. *)
Definition tracks {A} (owned : list Z) (x : M A) (holds : A -> list Z)
    (Q : A -> Prop) : Prop :=
  forall w, 0 < glNext w ->
    exists a w' calls,
      x w = Done (a, w')
      /\ glLog w' = glLog w ++ calls
      /\ glNext w <= glNext w'
      /\ generated calls = names (glNext w) (glNext w')
      /\ (forall id, (occ id owned + occ id (generated calls)
                      = occ id (deleted calls) + occ id (holds a))%nat)
      /\ Q a.

(** All fields of [h'] but the three of the box wireframe, respectively the
    two of the normal lines, are those of [h]. *)
Definition sameButBox (h h' : Handles) : Prop :=
  h' = mkHandles (VAO h) (VBOv h) (VBOn h) (VBOf h) (VBOc h) (VBOt h) (VBOtan h)
                 (VAObb h') (VBOvbb h') (VBOfbb h') (VAOn h) (VBOvn h).

Definition sameButNormalLines (h h' : Handles) : Prop :=
  h' = mkHandles (VAO h) (VBOv h) (VBOn h) (VBOf h) (VBOc h) (VBOt h) (VBOtan h)
                 (VAObb h) (VBOvbb h) (VBOfbb h) (VAOn h') (VBOvn h').

(** [lo <= v <= hi] in each component. *)
Definition within (lo hi v : Vec3f) : Prop := ordered lo v /\ ordered v hi.

(** A number of the binary32 format. *)
Definition representable (x : float) : Prop := valid_binary F32.prec F32.emax x = true.
Definition representable3 (v : Vec3f) : Prop :=
  representable (vx v) /\ representable (vy v) /\ representable (vz v).

(** The names in the slots that [createAllVBOs] assigns for a geometry. *)
Definition created (g : Geometry) (h' : Handles) : list Z :=
  nz (VAO h') ++ nz (VBOf h') ++ nz (VBOv h') ++ nz (VBOn h')
  ++ (if len (g_colors g) =? len (g_vertices g) then nz (VBOc h') else [])
  ++ (if len (g_texCoords g) =? len (g_vertices g) then nz (VBOt h') else [])
  ++ (if len (g_tangents g) =? len (g_vertices g) then nz (VBOtan h') else [])
  ++ nz (VAObb h') ++ nz (VBOvbb h') ++ nz (VBOfbb h')
  ++ (if len (g_vertices g) =? len (g_normals g)
      then nz (VAOn h') ++ nz (VBOvn h') else []).

(** The names in the slots that [createAllVBOs] leaves as they were. *)
Definition retained (g : Geometry) (h : Handles) : list Z :=
  (if len (g_colors g) =? len (g_vertices g) then [] else nz (VBOc h))
  ++ (if len (g_texCoords g) =? len (g_vertices g) then [] else nz (VBOt h))
  ++ (if len (g_tangents g) =? len (g_vertices g) then [] else nz (VBOtan h))
  ++ (if len (g_vertices g) =? len (g_normals g)
      then [] else nz (VAOn h) ++ nz (VBOvn h)).

(** The slots that [createAllVBOs] always assigns anew. *)
Definition overwritten (h : Handles) : list Z :=
  nz (VAO h) ++ nz (VBOv h) ++ nz (VBOn h) ++ nz (VBOf h)
  ++ nz (VAObb h) ++ nz (VBOvbb h) ++ nz (VBOfbb h).

(** Zero or a finite number: neither an infinity nor NaN. *)
Definition is_finite (x : float) : bool :=
  match x with S754_zero _ | S754_finite _ _ _ => true | _ => false end.






(** No component of [v] is finite, and each component of [v] is NaN. *)
Definition nowhereFinite (v : Vec3f) : Prop :=
  is_finite (vx v) = false /\ is_finite (vy v) = false /\ is_finite (vz v) = false.
Definition allNaN (v : Vec3f) : Prop :=
  F32.is_nan (vx v) = true /\ F32.is_nan (vy v) = true /\ F32.is_nan (vz v) = true.
Definition allZero (v : Vec3f) : Prop :=
  F32.is_zero (vx v) = true /\ F32.is_zero (vy v) = true /\ F32.is_zero (vz v) = true.

(** A height map of [columns] columns with [rows] heights each. *)
Definition shaped (columns rows : nat) (hm : Heightmap) : Prop :=
  List.length hm = columns /\ Forall (fun column => List.length column = rows) hm.

(** The height at a grid point, zero outside the height map. *)
Definition heightAt (hm : Heightmap) (x z : Z) : float :=
  match height hm x z with Done y => y | Undefined _ => F32.zero end.

(** The vertex that [generateTerrain] emits for a grid point. *)
Definition gridVertex (hm : Heightmap) (z x : Z) : Vec3f :=
  mkVec3 (F32.of_Z x) (heightAt hm x z) (F32.of_Z z).

(** The height field under construction has [w + 1] columns with [h + 1]
    heights each. *)
Definition fieldOf (w h : Z) (fd : Field) : Prop :=
  shaped (Z.to_nat (w + 1)) (Z.to_nat (h + 1)) (fst fd).

(** The four reads of the diamond step stay inside the height map, for
    each [x] and each [z] the loops of one round visit. *)
Definition diamondInside (w h stepSize : Z) : bool :=
  let halfStep := stepSize / 2 in
  forallb (fun x => (0 <=? x - halfStep) && (x + halfStep <=? w))
          (stride halfStep w stepSize)
  && forallb (fun z => (0 <=? z - halfStep) && (z + halfStep <=? h))
             (stride halfStep h stepSize).

(** The same for each round of the loop [while (stepSize > 1)]. *)
Fixpoint roundsInside (w h : Z) (rounds : nat) (stepSize : Z) : bool :=
  match rounds with
  | O => true
  | S rounds' =>
      (2 <=? stepSize) && diamondInside w h stepSize
      && roundsInside w h rounds' (stepSize / 2)
  end.

(* ------------------------------------------------------------------ *)
(** * Properties *)

(** ** Comparisons of single-precision numbers *)

Lemma geb_zero_false (x : float) :
  F32.geb x F32.zero = false <->
  F32.ltb x F32.zero = true \/ F32.is_nan x = true.
Proof.
  destruct x as [s | s | | s m e]; try destruct s; cbn;
    intuition discriminate.
Qed.

Lemma geb_nan_l (y : float) : F32.geb S754_nan y = false.
Proof. destruct y as [s | s | | s m e]; reflexivity. Qed.

Lemma mul_nan_l (y : float) : F32.mul S754_nan y = S754_nan.
Proof. reflexivity. Qed.

Lemma add_nan_l (y : float) : F32.add S754_nan y = S754_nan.
Proof. reflexivity. Qed.

(** ** The two loops of the visibility test *)

Lemma allOutside_true (p : Plane.t) (cs : list Vec3f) :
  allOutside p cs = true <-> forall c, In c cs -> onInside p c = false.
Proof.
  induction cs as [| c cs IH]; simpl.
  - split; [intros _ c [] | reflexivity].
  - destruct (onInside p c) eqn:E.
    + split; [discriminate |].
      intros H. specialize (H c (or_introl eq_refl)). congruence.
    + rewrite IH. split.
      * intros H c' [<- | Hc]; [exact E | now apply H].
      * intros H c' Hc. apply H. now right.
Qed.

Lemma allOutside_false (p : Plane.t) (cs : list Vec3f) :
  allOutside p cs = false <-> exists c, In c cs /\ onInside p c = true.
Proof.
  induction cs as [| c cs IH]; simpl.
  - split; [discriminate | intros [c [ [] _] ] ].
  - destruct (onInside p c) eqn:E.
    + split; [| reflexivity]. intros _. exists c. split; [now left | exact E].
    + rewrite IH. split.
      * intros [c' [Hc Hin] ]. exists c'. split; [now right | exact Hin].
      * intros [c' [ [<- | Hc] Hin] ]; [congruence |]. now exists c'.
Qed.

Lemma noPlaneRejects_true (ps : list Plane.t) (cs : list Vec3f) :
  noPlaneRejects ps cs = true <->
  forall p, In p ps -> exists c, In c cs /\ onInside p c = true.
Proof.
  induction ps as [| p ps IH]; simpl.
  - split; [intros _ p [] | reflexivity].
  - destruct (allOutside p cs) eqn:E.
    + split; [discriminate |].
      intros H. pose proof (H p (or_introl eq_refl)) as Hc.
      apply allOutside_false in Hc. congruence.
    + rewrite IH. split.
      * intros H q [<- | Hq]; [now apply allOutside_false | now apply H].
      * intros H q Hq. apply H. now right.
Qed.

Lemma noPlaneRejects_false (ps : list Plane.t) (cs : list Vec3f) :
  noPlaneRejects ps cs = false <->
  exists p, In p ps /\ forall c, In c cs -> onInside p c = false.
Proof.
  induction ps as [| p ps IH]; simpl.
  - split; [discriminate | intros [p [ [] _] ] ].
  - destruct (allOutside p cs) eqn:E.
    + split; [| reflexivity]. intros _. exists p.
      split; [now left | now apply allOutside_true].
    + rewrite IH. split.
      * intros [q [Hq Hout] ]. exists q. split; [now right | exact Hout].
      * intros [q [ [<- | Hq] Hout] ]; [| now exists q].
        apply allOutside_true in Hout. congruence.
Qed.

Section Culling.
Context {P : Platform}.
Local Open Scope f32_scope.

(** C1, as the code has it.  The visibility test takes the six planes
    from the clip matrix [m = projection * modelView] by the formulas
    (m3-m0, m7-m4, m11-m8, m15-m12), (m3+m0, ...), (m3+m1, ...),
    (m3-m1, ...), (m3+m2, ...), (m3-m2, ...), normalizes each by the length
    of its normal, and tests them against the eight corners that combine
    the components of the box minimum and maximum.  It answers visible
    exactly when every plane has a corner with [a*x + b*y + c*z + d >= 0],
    and not visible exactly when some plane has no such corner: each
    corner's value on that plane is below zero or is NaN.  The second case
    is not one of "all corners strictly on the negative side". *)
Theorem boundingBoxIsVisible_six_planes_eight_corners
    (state : RenderState) (mesh : TriangleMesh) :
  let m := QMatrix4x4_mul (getCurrentProjectionMatrix state)
                          (getCurrentModelViewMatrix state) in
  let lo := getBoundingBoxMin mesh in
  let hi := getBoundingBoxMax mesh in
  let value (p : Plane.t) (c : Vec3f) :=
    Plane.a p * vx c + Plane.b p * vy c + Plane.c p * vz c + Plane.d p in
  frustumPlanes state =
    map Plane.normalize
      [ Plane.mk (m[[3]] - m[[0]]) (m[[7]] - m[[4]]) (m[[11]] - m[[8]]) (m[[15]] - m[[12]]);
        Plane.mk (m[[3]] + m[[0]]) (m[[7]] + m[[4]]) (m[[11]] + m[[8]]) (m[[15]] + m[[12]]);
        Plane.mk (m[[3]] + m[[1]]) (m[[7]] + m[[5]]) (m[[11]] + m[[9]]) (m[[15]] + m[[13]]);
        Plane.mk (m[[3]] - m[[1]]) (m[[7]] - m[[5]]) (m[[11]] - m[[9]]) (m[[15]] - m[[13]]);
        Plane.mk (m[[3]] + m[[2]]) (m[[7]] + m[[6]]) (m[[11]] + m[[10]]) (m[[15]] + m[[14]]);
        Plane.mk (m[[3]] - m[[2]]) (m[[7]] - m[[6]]) (m[[11]] - m[[10]]) (m[[15]] - m[[14]]) ]
  /\ (forall p : Plane.t,
        let l := F32.sqrt (Plane.a p * Plane.a p + Plane.b p * Plane.b p
                           + Plane.c p * Plane.c p) in
        Plane.normalize p =
        Plane.mk (Plane.a p / l) (Plane.b p / l) (Plane.c p / l) (Plane.d p / l))
  /\ (forall c : Vec3f,
        In c (boxCorners lo hi) <->
        (vx c = vx lo \/ vx c = vx hi) /\ (vy c = vy lo \/ vy c = vy hi)
        /\ (vz c = vz lo \/ vz c = vz hi))
  /\ List.length (boxCorners lo hi) = 8%nat
  /\ (boundingBoxIsVisible state mesh = true <->
      forall p, In p (frustumPlanes state) ->
        exists c, In c (boxCorners lo hi) /\ (value p c >=? F32.zero) = true)
  /\ (boundingBoxIsVisible state mesh = false <->
      exists p, In p (frustumPlanes state) /\
        forall c, In c (boxCorners lo hi) ->
          (value p c <? F32.zero) = true \/ F32.is_nan (value p c) = true).
Proof.
  intros m lo hi value.
  split; [reflexivity |].
  split; [reflexivity |].
  split.
  { intros [x y z]. unfold boxCorners. simpl.
    split.
    - intros H.
      repeat (destruct H as [H | H]; [inversion H; subst; tauto |]).
      destruct H.
    - intros [ [-> | ->] [ [-> | ->] [-> | ->] ] ]; tauto. }
  split; [reflexivity |].
  split.
  - unfold boundingBoxIsVisible. apply noPlaneRejects_true.
  - unfold boundingBoxIsVisible. rewrite noPlaneRejects_false.
    split; intros [p [Hp H] ]; exists p; (split; [exact Hp |]); intros c Hc.
    + apply geb_zero_false. exact (H c Hc).
    + apply geb_zero_false. exact (H c Hc).
Qed.

Lemma normalize_zeroNormal (p : Plane.t) :
  zeroNormal p ->
  Plane.a (Plane.normalize p) = S754_nan
  /\ Plane.b (Plane.normalize p) = S754_nan
  /\ Plane.c (Plane.normalize p) = S754_nan.
Proof.
  destruct p as [a b c d]. unfold zeroNormal. simpl.
  intros [Ha [Hb Hc] ].
  destruct a as [sa | | |]; try discriminate.
  destruct b as [sb | | |]; try discriminate.
  destruct c as [sc | | |]; try discriminate.
  destruct sa, sb, sc; repeat split; reflexivity.
Qed.

Lemma onInside_nan_plane (p : Plane.t) (c : Vec3f) :
  Plane.a p = S754_nan -> onInside p c = false.
Proof.
  intros Ha. unfold onInside, planeValue. rewrite Ha.
  rewrite mul_nan_l. rewrite !add_nan_l. apply geb_nan_l.
Qed.

(** C2, as the code has it.  The normalization divides without a test.  A
    plane whose normal (a, b, c) is zero has length zero; the division
    turns a, b and c into NaN, no corner passes the comparison with zero,
    and the box is reported not visible. *)
Theorem zero_normal_plane_culls_the_box
    (state : RenderState) (mesh : TriangleMesh) (p : Plane.t) :
  In p (extractPlanes (clipMatrix state)) ->
  zeroNormal p ->
  Plane.a (Plane.normalize p) = S754_nan
  /\ Plane.b (Plane.normalize p) = S754_nan
  /\ Plane.c (Plane.normalize p) = S754_nan
  /\ boundingBoxIsVisible state mesh = false.
Proof.
  intros Hin Hz.
  destruct (normalize_zeroNormal p Hz) as [Ha [Hb Hc] ].
  repeat (split; [assumption |]).
  unfold boundingBoxIsVisible. apply noPlaneRejects_false.
  exists (Plane.normalize p). split.
  - unfold frustumPlanes. now apply in_map.
  - intros c _. now apply onInside_nan_plane.
Qed.

End Culling.

(** Two scenes: the box of edge 1 around the origin is visible under the
    identity clip matrix; around (1000, 1000, 1000) it is culled under a
    perspective projection that looks down the negative z axis. *)
Lemma culling_examples :
  boundingBoxIsVisible (P := referencePlatform) (stateWith identity4) (boxAround 0) = true
  /\ boundingBoxIsVisible (P := referencePlatform) (stateWith perspective13)
                           (boxAround 1000) = false.
Proof. split; vm_compute; reflexivity. Qed.

(** C1, counterexample.  Two boxes that the test reports not visible
    although no corner lies strictly on the negative side of any plane:
    each of the 48 values [a*x + b*y + c*z + d] is NaN, none is below zero.
    In the first scene the planes are degenerate (clip matrix with the
    single entry [m[15] = 1]) and the box is the unit box; in the second
    the planes are those of the identity clip matrix and the box is the one
    [calculateBB] derives for a vertex without numbers. *)
Lemma culled_without_a_corner_below_zero :
  let nowhereBelow (state : RenderState) (mesh : TriangleMesh) :=
    forallb (fun p =>
               forallb (fun c => negb (F32.ltb (planeValue p c) F32.zero)
                                 && F32.is_nan (planeValue p c))
                       (boxCorners (getBoundingBoxMin mesh) (getBoundingBoxMax mesh)))
            (frustumPlanes (P := referencePlatform) state) in
  boundingBoxIsVisible (P := referencePlatform) (stateWith degenerateClip) unitBox = false
  /\ nowhereBelow (stateWith degenerateClip) unitBox = true
  /\ List.length (frustumPlanes (P := referencePlatform) (stateWith degenerateClip)) = 6%nat
  /\ boundingBoxIsVisible (P := referencePlatform) (stateWith identity4) nanBox = false
  /\ nowhereBelow (stateWith identity4) nanBox = true
  /\ map Plane.a (frustumPlanes (P := referencePlatform) (stateWith identity4))
     = [F32.of_Z (-1); F32.one; F32.zero; F32.zero; F32.zero; F32.zero].
Proof. vm_compute. repeat split. Qed.

(** C2, witness: the clip matrix with the single entry [m[15] = 1]. *)
Lemma zero_normal_plane_culls_the_box_witness :
  boundingBoxIsVisible (P := referencePlatform) (stateWith degenerateClip) unitBox = false.
Proof.
  refine (proj2 (proj2 (proj2
    (zero_normal_plane_culls_the_box (P := referencePlatform)
       (stateWith degenerateClip) unitBox
       (Plane.mk F32.zero F32.zero F32.zero F32.one) _ _)))).
  - vm_compute. left. reflexivity.
  - vm_compute. repeat split.
Defined.

(** C2, counterexample.  Under the clip matrix with the single entry
    [m[15] = 1] the first plane has a zero normal, each corner of the unit
    box passes the test against each plane as extracted (so leaving the
    planes as they are would keep the box), yet the division is carried out
    on the zero length and the box is culled. *)
Lemma degenerate_plane_is_divided_and_culls :
  let state := stateWith degenerateClip in
  let planes := extractPlanes (clipMatrix (P := referencePlatform) state) in
  let corners := boxCorners (getBoundingBoxMin unitBox) (getBoundingBoxMax unitBox) in
  nth 0 planes (Plane.mk F32.one F32.one F32.one F32.one)
    = Plane.mk F32.zero F32.zero F32.zero F32.one
  /\ forallb (fun p => forallb (onInside p) corners) planes = true
  /\ noPlaneRejects planes corners = true
  /\ map Plane.a (frustumPlanes (P := referencePlatform) state) = repeat S754_nan 6
  /\ boundingBoxIsVisible (P := referencePlatform) state unitBox = false.
Proof. vm_compute. repeat split. Qed.

(* ------------------------------------------------------------------ *)
(** ** Teardown of the GPU resources *)

Lemma logged_nil (w : World) : logged w [] = w.
Proof. destruct w; unfold logged; simpl. now rewrite app_nil_r. Qed.

Lemma logged_logged (w : World) (a b : list glcall) :
  logged (logged w a) b = logged w (a ++ b).
Proof. unfold logged; simpl. now rewrite app_assoc. Qed.

Lemma bind_gl {A} (c : glcall) (k : M A) (w : World) :
  bind (gl c) (fun _ => k) w = k (logged w [c]).
Proof. reflexivity. Qed.

Lemma bind_when_delete {A} (id : Z) (c : glcall) (k : M A) (w : World) :
  bind (when (present id) (gl c)) (fun _ => k) w = k (logged w (deleteIf id c)).
Proof.
  unfold deleteIf. destruct (present id); simpl.
  - reflexivity.
  - unfold bind, ret. now rewrite logged_nil.
Qed.

Lemma cleanupVBO_with_run (m : TriangleMesh) (w : World) :
  cleanupVBO_with m w =
  Done (set_handles noHandles m, logged w (deletions (handles m))).
Proof.
  unfold cleanupVBO_with.
  rewrite !bind_when_delete. unfold ret.
  rewrite !logged_logged. reflexivity.
Qed.

Lemma deletions_are_deletes (h : Handles) :
  forallb is_delete (deletions h) = true.
Proof.
  unfold deletions, deleteIf.
  repeat match goal with |- context [present ?x] => destruct (present x) end;
    reflexivity.
Qed.

Lemma set_handles_same (m : TriangleMesh) : set_handles (handles m) m = m.
Proof. now destruct m. Qed.

(** C8.  One teardown deletes each handle that is present once, deletes
    nothing else, and leaves all twelve handles zero.  A second teardown
    right after it issues no GL call and changes nothing; the same holds
    for any mesh without resources, and for the entry point that first
    tests the function table. *)
Theorem cleanupVBO_idempotent (m : TriangleMesh) (w : World) :
  exists m1 w1,
    cleanupVBO_with m w = Done (m1, w1)
    /\ handleList (handles m1) = repeat 0 12
    /\ glLog w1 = glLog w ++ deletions (handles m)
    /\ forallb is_delete (deletions (handles m)) = true
    /\ cleanupVBO_with m1 w1 = Done (m1, w1)
    /\ cleanupVBO_with (set_handles noHandles m) w = Done (set_handles noHandles m, w)
    /\ exists m2 w2,
         cleanupVBO m w = Done (m2, w2) /\ cleanupVBO m2 w2 = Done (m2, w2).
Proof.
  exists (set_handles noHandles m), (logged w (deletions (handles m))).
  assert (Hnone : forall m' w',
             cleanupVBO_with (set_handles noHandles m') w'
             = Done (set_handles noHandles m', w')).
  { intros m' w'. rewrite cleanupVBO_with_run. simpl.
    change (deletions noHandles) with (@nil glcall).
    now rewrite logged_nil. }
  split; [apply cleanupVBO_with_run |].
  split; [reflexivity |].
  split; [reflexivity |].
  split; [apply deletions_are_deletes |].
  split; [apply Hnone |].
  split; [apply Hnone |].
  unfold cleanupVBO. destruct (f m) eqn:Hf.
  - exists (set_handles noHandles m), (logged w (deletions (handles m))).
    split; [apply cleanupVBO_with_run |].
    simpl. rewrite Hf. apply Hnone.
  - exists m, w. split; [reflexivity |]. now rewrite Hf.
Qed.

(* ------------------------------------------------------------------ *)
(** ** Colouring at draw time *)

Section Drawing.
Context {P : Platform}.

Lemma drawVBO_unfold (m : TriangleMesh) (state : RenderState) (w : World) :
  drawVBO m state w =
  bind (match coloringType m with
        | TEXTURE => bindTexture m state
        | COLOR_ARRAY => bindColorArray m state
        | STATIC_COLOR => bindStaticColor m state
        | BUMP_MAPPING => bindBumpMapping m state
        end)
       (fun _ => gl (glDrawElements GL_TRIANGLES (3 * len (triangles m))))
       (logged w [glBindVertexArray (VAO (handles m));
                  glUniformMatrix4fv (getModelViewUniform state)
                                     (getCurrentModelViewMatrix state);
                  glUniformMatrix3fv (getNormalMatrixUniform state)
                                     (calculateNormalMatrix state)]).
Proof.
  unfold drawVBO. rewrite !bind_gl. rewrite !logged_logged. reflexivity.
Qed.

Lemma bind_colouring_setColoringMode (c : ColoringType) (m : TriangleMesh)
    (state : RenderState) :
  bindStaticColor (setColoringMode c m) state = bindStaticColor m state
  /\ bindColorArray (setColoringMode c m) state = bindColorArray m state
  /\ bindTexture (setColoringMode c m) state = bindTexture m state.
Proof. repeat split. Qed.

(** C5.  With the mode TEXTURE and no texture the draw is the draw of the
    mode COLOR_ARRAY; with the mode COLOR_ARRAY (chosen or fallen back to)
    and no colour buffer it is the draw of the mode STATIC_COLOR, which
    disables the colour array and sets the constant attribute to the
    mesh's static colour. *)
Theorem drawVBO_coloring_fallback
    (m : TriangleMesh) (state : RenderState) (w : World) :
  (coloringType m = TEXTURE -> textureID m = 0 ->
     drawVBO m state w = drawVBO (setColoringMode COLOR_ARRAY m) state w)
  /\ (coloringType m = COLOR_ARRAY -> VBOc (handles m) = 0 ->
     drawVBO m state w = drawVBO (setColoringMode STATIC_COLOR m) state w)
  /\ (coloringType m = TEXTURE -> textureID m = 0 -> VBOc (handles m) = 0 ->
     drawVBO m state w = drawVBO (setColoringMode STATIC_COLOR m) state w)
  /\ drawVBO (setColoringMode STATIC_COLOR m) state w =
     Done (tt, logged w [glBindVertexArray (VAO (handles m));
                         glUniformMatrix4fv (getModelViewUniform state)
                                            (getCurrentModelViewMatrix state);
                         glUniformMatrix3fv (getNormalMatrixUniform state)
                                            (calculateNormalMatrix state);
                         glUniform1ui (getUseTextureUniform state) GL_FALSE;
                         glDisableVertexAttribArray COLOR_LOCATION;
                         glVertexAttrib3fv (AttribIndex 2) (staticColor m);
                         glDrawElements GL_TRIANGLES (3 * len (triangles m))]).
Proof.
  destruct (bind_colouring_setColoringMode COLOR_ARRAY m state) as [_ [Hc _] ].
  destruct (bind_colouring_setColoringMode STATIC_COLOR m state) as [Hs _].
  rewrite !drawVBO_unfold.
  change (coloringType (setColoringMode COLOR_ARRAY m)) with COLOR_ARRAY.
  change (coloringType (setColoringMode STATIC_COLOR m)) with STATIC_COLOR.
  rewrite Hc, Hs.
  change (handles (setColoringMode COLOR_ARRAY m)) with (handles m).
  change (handles (setColoringMode STATIC_COLOR m)) with (handles m).
  change (triangles (setColoringMode COLOR_ARRAY m)) with (triangles m).
  change (triangles (setColoringMode STATIC_COLOR m)) with (triangles m).
  repeat split.
  - intros Hmode Htex. rewrite Hmode. unfold bindTexture. now rewrite Htex.
  - intros Hmode Hbuf. rewrite Hmode. unfold bindColorArray. now rewrite Hbuf.
  - intros Hmode Htex Hbuf. rewrite Hmode.
    unfold bindTexture, bindColorArray. now rewrite Htex, Hbuf.
  - unfold bindStaticColor, bind, gl, logged. simpl.
    now rewrite <- !app_assoc.
Qed.

End Drawing.

(** C5, witness: the empty mesh switched to TEXTURE has neither a texture
    nor a colour buffer. *)
Lemma drawVBO_coloring_fallback_witness :
  let m := setColoringMode TEXTURE emptyMesh in
  let w := mkWorld 1 [] [] (fun _ => None) in
  drawVBO (P := referencePlatform) m (stateWith identity4) w
  = drawVBO (P := referencePlatform) (setColoringMode STATIC_COLOR m)
            (stateWith identity4) w.
Proof.
  intros m w.
  apply (proj1 (proj2 (proj2
    (drawVBO_coloring_fallback (P := referencePlatform) m (stateWith identity4) w))));
    reflexivity.
Defined.

(* ------------------------------------------------------------------ *)
(** ** Checked vector accesses *)

Lemma to_uint_nonneg (z : Z) : 0 <= to_uint z.
Proof. unfold to_uint. apply Z.mod_pos_bound. reflexivity. Qed.

Lemma at_in_range {A} (what : string) (v : list A) (i : Z) (d : A) :
  0 <= i < Z.of_nat (List.length v) ->
  at_ what v i = Done (nth (Z.to_nat i) v d).
Proof.
  intros [Hlo Hhi]. unfold at_.
  replace (0 <=? i) with true by (symmetry; now apply Z.leb_le).
  replace (i <? Z.of_nat (List.length v)) with true by (symmetry; now apply Z.ltb_lt).
  simpl.
  assert (Hn : (Z.to_nat i < List.length v)%nat) by lia.
  rewrite (nth_error_nth' v d Hn). reflexivity.
Qed.

Lemma at_out_of_range {A} (what : string) (v : list A) (i : Z) :
  Z.of_nat (List.length v) <= i ->
  at_ what v i = Undefined (OutOfBounds what i (Z.of_nat (List.length v))).
Proof.
  intros H. unfold at_.
  replace (i <? Z.of_nat (List.length v)) with false by (symmetry; now apply Z.ltb_ge).
  now rewrite andb_false_r.
Qed.

Lemma put_in_range {A} (what : string) (v : list A) (i : Z) (a : A) :
  0 <= i < Z.of_nat (List.length v) ->
  put what v i a = Done (replace_nth (Z.to_nat i) a v).
Proof.
  intros [Hlo Hhi]. unfold put.
  replace (0 <=? i) with true by (symmetry; now apply Z.leb_le).
  replace (i <? Z.of_nat (List.length v)) with true by (symmetry; now apply Z.ltb_lt).
  reflexivity.
Qed.

Lemma length_replace_nth {A} (n : nat) (a : A) (v : list A) :
  List.length (replace_nth n a v) = List.length v.
Proof.
  revert n. induction v as [| x v IH]; intros [| n]; simpl; auto.
Qed.

Lemma nth_replace_nth {A} (n i : nat) (a d : A) (v : list A) :
  (n < List.length v)%nat ->
  nth i (replace_nth n a v) d = if Nat.eqb n i then a else nth i v d.
Proof.
  revert n i. induction v as [| x v IH]; intros [| n] [| i] H; simpl in *;
    try lia; try reflexivity.
  apply IH. lia.
Qed.

Lemma length_resize {A} (d : A) (n : nat) (v : list A) :
  List.length (resize d n v) = n.
Proof.
  unfold resize. rewrite length_app, length_firstn, repeat_length. lia.
Qed.


(* ------------------------------------------------------------------ *)
(** ** Normal synthesis *)

(** One accumulation [normals[id] += normal]. *)
Lemma accumulate_step (ns : list Vec3f) (id : Z) (normal : Vec3f)
    (k : list Vec3f -> outcome (list Vec3f)) :
  0 <= id < Z.of_nat (List.length ns) ->
  (n0 <~ at_ "normals" ns id ;;
   ns' <~ put "normals" ns id (Vec.add n0 normal) ;; k ns')
  = k (replace_nth (Z.to_nat id)
         (Vec.add (nth (Z.to_nat id) ns Vec.zero) normal) ns).
Proof.
  intros H. rewrite (at_in_range _ _ _ Vec.zero H). simpl.
  rewrite (put_in_range _ _ _ _ H). reflexivity.
Qed.

Lemma nth_accumulated (ns : list Vec3f) (id : Z) (normal : Vec3f) (i : nat) :
  0 <= id < Z.of_nat (List.length ns) ->
  nth i (replace_nth (Z.to_nat id)
           (Vec.add (nth (Z.to_nat id) ns Vec.zero) normal) ns) Vec.zero
  = if id =? Z.of_nat i then Vec.add (nth i ns Vec.zero) normal
    else nth i ns Vec.zero.
Proof.
  intros H. rewrite nth_replace_nth by lia.
  destruct (id =? Z.of_nat i) eqn:E.
  - apply Z.eqb_eq in E. subst id. rewrite Nat2Z.id, Nat.eqb_refl. reflexivity.
  - apply Z.eqb_neq in E.
    replace (Nat.eqb (Z.to_nat id) i) with false; [reflexivity |].
    symmetry. apply Nat.eqb_neq. lia.
Qed.

Lemma addTriangleNormal_spec (vs ns : list Vec3f) (t : Triangle) :
  List.length ns = List.length vs ->
  inRange vs t ->
  exists ns',
    addTriangleNormal vs ns t = Done ns'
    /\ List.length ns' = List.length vs
    /\ forall i, nth i ns' Vec.zero = spec_addIncident vs i (nth i ns Vec.zero) t.
Proof.
  intros Hlen [H0 [H1 H2] ].
  pose proof (to_uint_nonneg (vx t)) as P0.
  pose proof (to_uint_nonneg (vy t)) as P1.
  pose proof (to_uint_nonneg (vz t)) as P2.
  unfold addTriangleNormal.
  rewrite (at_in_range _ vs (to_uint (vx t)) Vec.zero) by lia.
  rewrite (at_in_range _ vs (to_uint (vy t)) Vec.zero) by lia.
  rewrite (at_in_range _ vs (to_uint (vz t)) Vec.zero) by lia.
  cbn [obind].
  fold (spec_faceNormal vs t).
  set (normal := spec_faceNormal vs t).
  rewrite accumulate_step by lia.
  rewrite accumulate_step by (rewrite length_replace_nth; lia).
  rewrite (at_in_range _ _ (to_uint (vz t)) Vec.zero)
    by (rewrite !length_replace_nth; lia).
  cbn [obind].
  rewrite put_in_range by (rewrite !length_replace_nth; lia).
  eexists. split; [reflexivity |]. split.
  - rewrite !length_replace_nth. exact Hlen.
  - intros i. unfold spec_addIncident. fold normal.
    rewrite nth_accumulated by (rewrite !length_replace_nth; lia).
    rewrite nth_accumulated by (rewrite !length_replace_nth; lia).
    rewrite nth_accumulated by lia.
    reflexivity.
Qed.

Lemma sumTriangleNormals_spec (vs : list Vec3f) (ts : list Triangle) :
  Forall (inRange vs) ts ->
  forall ns, List.length ns = List.length vs ->
  exists ns',
    sumTriangleNormals vs ts ns = Done ns'
    /\ List.length ns' = List.length vs
    /\ forall i, nth i ns' Vec.zero = spec_accumulated vs ts i (nth i ns Vec.zero).
Proof.
  induction 1 as [| t ts Ht Hts IH]; intros ns Hlen.
  - exists ns. repeat split; assumption.
  - destruct (addTriangleNormal_spec vs ns t Hlen Ht) as [ns1 [E1 [L1 N1] ] ].
    destruct (IH ns1 L1) as [ns2 [E2 [L2 N2] ] ].
    exists ns2. simpl. rewrite E1. simpl. split; [exact E2 |].
    split; [exact L2 |].
    intros i. rewrite N2, N1. reflexivity.
Qed.




(* ------------------------------------------------------------------ *)
(** ** Loading: the failure paths *)

Lemma clear_run (m : TriangleMesh) (w : World) :
  clear m w = Done (cleared m, afterClear m w).
Proof.
  unfold clear, cleanupVBO, cleared, afterClear. simpl.
  destruct (f m) eqn:Hf.
  - rewrite cleanupVBO_with_run. reflexivity.
  - reflexivity.
Qed.

Lemma files_afterClear (m : TriangleMesh) (w : World) :
  files (afterClear m w) = files w.
Proof. unfold afterClear. now destruct (f m). Qed.

Lemma cout_afterClear (m : TriangleMesh) (w : World) :
  cout (afterClear m w) = cout w.
Proof. unfold afterClear. now destruct (f m). Qed.

Lemma loadOFF_unfold {P : Platform} (filename : string) (createVBOs : bool)
    (m : TriangleMesh) (w : World) :
  loadOFF filename createVBOs m w =
  match files w filename with
  | None => Done (cleared m,
                  mkWorld (glNext (afterClear m w)) (glLog (afterClear m w))
                          (cout w ++ [String.append "loadOFF: can not find " filename])
                          (files w))
  | Some input => parseOFF input createVBOs (cleared m) (afterClear m w)
  end.
Proof.
  unfold loadOFF, bind. rewrite clear_run. unfold open.
  rewrite files_afterClear.
  destruct (files w filename); [reflexivity |].
  unfold print, ret. now rewrite cout_afterClear, files_afterClear.
Qed.

Section Loading.
Context {P : Platform}.



(** C10.  A file whose tag is NOFF and whose counts are positive makes
    [loadOFF] index the normals at 0 while the sequence, emptied by
    [clear], has length 0: the first write to a normal is outside the
    sequence. *)
Theorem loadOFF_NOFF_first_normal_out_of_bounds
    (filename : string) (createVBOs : bool) (m : TriangleMesh) (w : World)
    (t : token) (nv nf : Z) (input : list token) :
  files w filename = Some (t :: TInt nv :: TInt nf :: input) ->
  tagOf t = TagNOFF ->
  0 < nv <= INT_MAX ->
  0 < nf <= INT_MAX ->
  normals (cleared m) = []
  /\ loadOFF filename createVBOs m w = Undefined (OutOfBounds "normals" 0 0).
Proof.
  intros Hfile Htag Hnv Hnf.
  split; [reflexivity |].
  rewrite loadOFF_unfold, Hfile. unfold parseOFF. rewrite Htag.
  unfold readMesh.
  assert (Hr : forall n rest, 0 < n <= INT_MAX ->
             read_int (mkStream (TInt n :: rest) false) = (Some n, mkStream rest false)).
  { intros n rest Hn. unfold read_int, store_int. simpl.
    replace (n <? INT_MIN) with false
      by (symmetry; apply Z.ltb_ge; unfold INT_MIN, INT_MAX in *; lia).
    replace (INT_MAX <? n) with false by (symmetry; apply Z.ltb_ge; lia).
    reflexivity. }
  rewrite (Hr nv _ Hnv), (Hr nf _ Hnf).
  destruct (read_int (mkStream input false)) as [one s3].
  replace (nv <=? 0) with false by (symmetry; apply Z.leb_gt; lia).
  replace (nf <=? 0) with false by (symmetry; apply Z.leb_gt; lia).
  destruct (Z.to_nat nv) as [| k] eqn:Hk; [lia |].
  unfold bind, lift. simpl loadVertices.
  unfold loadVertex. cbn [l_vertices l_in l_normals l_min l_max].
  rewrite (at_in_range _ _ 0 Vec.zero)
    by (rewrite length_resize; lia).
  cbn [obind].
  destruct (read_vec3f _ s3) as [v s4].
  rewrite put_in_range by (rewrite length_resize; lia).
  cbn [obind]. reflexivity.
Qed.

End Loading.



(** C10, witness: the NOFF file with one vertex and its normal. *)
Lemma loadOFF_NOFF_first_normal_out_of_bounds_witness :
  loadOFF (P := referencePlatform) "normals.off" true emptyMesh exampleWorld
  = Undefined (OutOfBounds "normals" 0 0).
Proof.
  refine (proj2 (loadOFF_NOFF_first_normal_out_of_bounds (P := referencePlatform)
                   "normals.off" true emptyMesh exampleWorld
                   (TWord "NOFF") 1 1 _ eq_refl eq_refl _ _));
    unfold INT_MAX; lia.
Defined.

(* ------------------------------------------------------------------ *)
(** ** The order of single-precision numbers *)

Ltac order_cases :=
  repeat match goal with
  | |- context [Z.compare ?a ?b] => destruct (Z.compare_spec a b)
  | H : context [Z.compare ?a ?b] |- _ => destruct (Z.compare_spec a b)
  | |- context [Pos.compare_cont Eq ?a ?b] =>
      change (Pos.compare_cont Eq a b) with (Pos.compare a b);
      destruct (Pos.compare_spec a b)
  | H : context [Pos.compare_cont Eq ?a ?b] |- _ =>
      change (Pos.compare_cont Eq a b) with (Pos.compare a b) in H;
      destruct (Pos.compare_spec a b)
  end.

Lemma compare_antisym (a b : float) :
  SFcompare a b = option_map CompOpp (SFcompare b a).
Proof.
  destruct a as [sa | sa | | sa ma ea], b as [sb | sb | | sb mb eb];
    try destruct sa; try destruct sb; cbn; try reflexivity;
    order_cases; cbn; try reflexivity; subst; try lia.
Qed.

Lemma leb_trans (a b c : float) :
  F32.leb a b = true -> F32.leb b c = true -> F32.leb a c = true.
Proof.
  unfold F32.leb, SFleb.
  destruct a as [sa | sa | | sa ma ea], b as [sb | sb | | sb mb eb],
           c as [sc | sc | | sc mc ec];
    try destruct sa; try destruct sb; try destruct sc; cbn;
    try reflexivity; try discriminate;
    intros H1 H2; order_cases; cbn in *;
    try reflexivity; try discriminate; subst; try lia.
Qed.

Lemma leb_refl (a : float) : F32.is_nan a = false -> F32.leb a a = true.
Proof.
  unfold F32.leb, SFleb.
  destruct a as [sa | sa | | sa ma ea]; try destruct sa; cbn;
    try reflexivity; try discriminate; intros _;
    rewrite Z.compare_refl;
    change (Pos.compare_cont Eq ma ma) with (Pos.compare ma ma);
    now rewrite Pos.compare_refl.
Qed.

Lemma ltb_leb (a b : float) : F32.ltb a b = true -> F32.leb a b = true.
Proof.
  unfold F32.ltb, F32.leb, SFltb, SFleb.
  destruct (SFcompare a b) as [ [ | | ] |]; congruence.
Qed.

Lemma not_ltb_leb (a b : float) :
  F32.is_nan a = false -> F32.is_nan b = false ->
  F32.ltb b a = false -> F32.leb a b = true.
Proof.
  unfold F32.ltb, F32.leb, SFltb, SFleb. intros Ha Hb.
  rewrite (compare_antisym a b).
  destruct (SFcompare b a) as [ [ | | ] |] eqn:E; cbn; try congruence.
  destruct a, b; cbn in *; discriminate.
Qed.

Lemma min_bounds (a b : float) :
  F32.is_nan a = false -> F32.is_nan b = false ->
  F32.is_nan (F32.min a b) = false
  /\ F32.leb (F32.min a b) a = true /\ F32.leb (F32.min a b) b = true.
Proof.
  intros Ha Hb. unfold F32.min. destruct (F32.ltb b a) eqn:E.
  - repeat split; [assumption | now apply ltb_leb | now apply leb_refl].
  - repeat split; [assumption | now apply leb_refl | now apply not_ltb_leb].
Qed.

Lemma max_bounds (a b : float) :
  F32.is_nan a = false -> F32.is_nan b = false ->
  F32.is_nan (F32.max a b) = false
  /\ F32.leb a (F32.max a b) = true /\ F32.leb b (F32.max a b) = true.
Proof.
  intros Ha Hb. unfold F32.max. destruct (F32.ltb a b) eqn:E.
  - repeat split; [assumption | now apply ltb_leb | now apply leb_refl].
  - repeat split; [assumption | now apply leb_refl | now apply not_ltb_leb].
Qed.

(** The running minimum stays below its start and below each value seen. *)
Lemma running_min (xs : list float) :
  Forall (fun x => F32.is_nan x = false) xs ->
  forall acc, F32.is_nan acc = false ->
  let r := fold_left (fun acc x => F32.min x acc) xs acc in
  F32.is_nan r = false /\ F32.leb r acc = true
  /\ Forall (fun x => F32.leb r x = true) xs.
Proof.
  induction 1 as [| x xs Hx Hxs IH]; intros acc Hacc; simpl.
  - repeat split; [assumption | now apply leb_refl | constructor].
  - destruct (min_bounds x acc Hx Hacc) as [Hn [Hmx Hma] ].
    destruct (IH (F32.min x acc) Hn) as [Hr [Hle Hall] ].
    repeat split; [assumption | now apply leb_trans with (F32.min x acc) |].
    constructor; [now apply leb_trans with (F32.min x acc) | assumption].
Qed.

Lemma running_max (xs : list float) :
  Forall (fun x => F32.is_nan x = false) xs ->
  forall acc, F32.is_nan acc = false ->
  let r := fold_left (fun acc x => F32.max x acc) xs acc in
  F32.is_nan r = false /\ F32.leb acc r = true
  /\ Forall (fun x => F32.leb x r = true) xs.
Proof.
  induction 1 as [| x xs Hx Hxs IH]; intros acc Hacc; simpl.
  - repeat split; [assumption | now apply leb_refl | constructor].
  - destruct (max_bounds x acc Hx Hacc) as [Hn [Hmx Hma] ].
    destruct (IH (F32.max x acc) Hn) as [Hr [Hle Hall] ].
    repeat split; [assumption | now apply leb_trans with (F32.max x acc) |].
    constructor; [now apply leb_trans with (F32.max x acc) | assumption].
Qed.

(* ------------------------------------------------------------------ *)
(** ** The bounding box *)

Lemma growMin_component (vs : list Vec3f) (lo : Vec3f) :
  vx (fold_left growMin vs lo) = fold_left (fun acc x => F32.min x acc) (map vx vs) (vx lo)
  /\ vy (fold_left growMin vs lo) = fold_left (fun acc x => F32.min x acc) (map vy vs) (vy lo)
  /\ vz (fold_left growMin vs lo) = fold_left (fun acc x => F32.min x acc) (map vz vs) (vz lo).
Proof.
  revert lo. induction vs as [| v vs IH]; intros lo; simpl.
  - repeat split.
  - apply (IH (growMin lo v)).
Qed.

Lemma growMax_component (vs : list Vec3f) (hi : Vec3f) :
  vx (fold_left growMax vs hi) = fold_left (fun acc x => F32.max x acc) (map vx vs) (vx hi)
  /\ vy (fold_left growMax vs hi) = fold_left (fun acc x => F32.max x acc) (map vy vs) (vy hi)
  /\ vz (fold_left growMax vs hi) = fold_left (fun acc x => F32.max x acc) (map vz vs) (vz hi).
Proof.
  revert hi. induction vs as [| v vs IH]; intros hi; simpl.
  - repeat split.
  - apply (IH (growMax hi v)).
Qed.


Lemma noNaN_components (vs : list Vec3f) :
  Forall noNaN vs ->
  Forall (fun x => F32.is_nan x = false) (map vx vs)
  /\ Forall (fun x => F32.is_nan x = false) (map vy vs)
  /\ Forall (fun x => F32.is_nan x = false) (map vz vs).
Proof.
  induction 1 as [| v vs [Hx [Hy Hz] ] _ [IHx [IHy IHz] ] ]; simpl.
  - repeat split; constructor.
  - repeat split; constructor; assumption.
Qed.





(* ------------------------------------------------------------------ *)
(** ** Computations that return *)

Lemma returns_ret {A} (a : A) (Q : A -> Prop) : Q a -> returns (ret a) Q.
Proof. intros H w. now exists a, w. Qed.

Lemma returns_bind {A B} (x : M A) (k : A -> M B) (R : A -> Prop) (Q : B -> Prop) :
  returns x R -> (forall a, R a -> returns (k a) Q) -> returns (bind x k) Q.
Proof.
  intros Hx Hk w. destruct (Hx w) as [a [w1 [E Ha] ] ].
  destruct (Hk a Ha w1) as [b [w2 [E2 Hb] ] ].
  exists b, w2. unfold bind. now rewrite E.
Qed.

Lemma returns_then {A B} (x : M A) (k : A -> M B) (Q : B -> Prop) :
  returns x (fun _ => True) -> (forall a, returns (k a) Q) -> returns (bind x k) Q.
Proof. intros Hx Hk. apply returns_bind with (R := fun _ => True); auto. Qed.

Lemma returns_gl (c : glcall) : returns (gl c) (fun _ => True).
Proof. intros w. eexists. eexists. split; [reflexivity | exact I]. Qed.

Lemma returns_gen (mk : Z -> glcall) : returns (gen mk) (fun _ => True).
Proof. intros w. eexists. eexists. split; [reflexivity | exact I]. Qed.

Lemma returns_print (line : string) : returns (print line) (fun _ => True).
Proof. intros w. eexists. eexists. split; [reflexivity | exact I]. Qed.

Ltac returns_step :=
  match goal with
  | |- returns (bind _ _) _ => apply returns_then; [| intros ?]
  | |- returns (ret _) _ => apply returns_ret
  | |- returns (gl _) _ => apply returns_gl
  | |- returns (gen _) _ => apply returns_gen
  | |- returns (print _) _ => apply returns_print
  | |- returns (when ?b _) _ => unfold when; destruct b
  | |- returns (if ?b then _ else _) _ => destruct b
  | |- True => exact I
  end.

Section Creation.
Context {P : Platform}.

Lemma createVBO_returns (dataSize : Z) (target : BufferTarget) :
  returns (createVBO dataSize target) (fun _ => True).
Proof. unfold createVBO. repeat returns_step. Qed.

Lemma createBBVAO_returns (h : Handles) :
  returns (createBBVAO h) (fun _ => True).
Proof.
  unfold createBBVAO.
  repeat (returns_step || apply createVBO_returns).
Qed.

Lemma createNormalVAO_returns (g : Geometry) (h : Handles) :
  returns (createNormalVAO g h) (fun _ => True).
Proof.
  unfold createNormalVAO.
  repeat (returns_step || apply createVBO_returns).
Qed.

(** [createAllVBOs] returns, and changes nothing but the handles. *)
Lemma createAllVBOs_returns (m : TriangleMesh) :
  returns (createAllVBOs m) (fun m' => exists h, m' = set_handles h m).
Proof.
  unfold createAllVBOs, bindAttrib.
  destruct (negb (f m)).
  - apply returns_ret. exists (handles m). now destruct m.
  - repeat (returns_step || apply createVBO_returns
            || apply createBBVAO_returns || apply createNormalVAO_returns).
    all: eexists; reflexivity.
Qed.

Lemma createAllVBOs_keeps (m m' : TriangleMesh) (w w' : World) :
  createAllVBOs m w = Done (m', w') ->
  geometry m' = geometry m /\ box m' = box m.
Proof.
  intros E. destruct (createAllVBOs_returns m w) as [m2 [w2 [E2 [h Hh] ] ] ].
  rewrite E in E2. inversion E2; subst. split; reflexivity.
Qed.

End Creation.

(* ------------------------------------------------------------------ *)
(** ** Halving in single precision *)











Lemma shift_back (m : positive) :
  iter_pos shr_1 23
    {| shr_m := Z.pos (8388608 * m); shr_r := false; shr_s := false |}
  = {| shr_m := Z.pos m; shr_r := false; shr_s := false |}.
Proof. reflexivity. Qed.

Lemma digits_shifted (m : positive) :
  Zdigits2 (Z.pos (8388608 * m)) = Z.pos (digits2_pos m) + 23.
Proof.
  change (8388608 * m)%positive
    with (m~0~0~0~0~0~0~0~0~0~0~0~0~0~0~0~0~0~0~0~0~0~0~0)%positive.
  cbn [Zdigits2 digits2_pos]. lia.
Qed.

















(* ------------------------------------------------------------------ *)
(** ** The box that [loadOFF] grows is the box of [calculateBB] *)

Lemma at_done {A} (what : string) (v : list A) (i : Z) (a : A) :
  at_ what v i = Done a -> 0 <= i < Z.of_nat (List.length v).
Proof.
  unfold at_.
  destruct (0 <=? i) eqn:E1; destruct (i <? Z.of_nat (List.length v)) eqn:E2;
    simpl; try discriminate.
  intros _. apply Z.leb_le in E1. apply Z.ltb_lt in E2. lia.
Qed.

Lemma loadVertex_done (noff : bool) (i : Z) (st st' : Loading) :
  loadVertex noff i st = Done st' ->
  exists v,
    0 <= i < Z.of_nat (List.length (l_vertices st))
    /\ l_vertices st' = replace_nth (Z.to_nat i) v (l_vertices st)
    /\ l_min st' = growMin (l_min st) v
    /\ l_max st' = growMax (l_max st) v.
Proof.
  unfold loadVertex.
  destruct (at_ "vertices" (l_vertices st) i) as [old | u] eqn:E; [| discriminate].
  pose proof (at_done _ _ _ _ E) as Hi.
  cbn [obind].
  destruct (read_vec3f old (l_in st)) as [v s1].
  rewrite put_in_range by exact Hi. cbn [obind].
  destruct noff.
  - destruct (at_ "normals" (l_normals st) i) as [oldn | u] eqn:En; [| discriminate].
    cbn [obind].
    destruct (read_vec3f oldn s1) as [n s2].
    destruct (put "normals" (l_normals st) i n) as [ns | u]; [| discriminate].
    cbn [obind]. intros H. inversion H; subst. exists v. simpl. auto.
  - intros H. inversion H; subst. exists v. simpl. auto.
Qed.

Lemma firstn_replace_nth {A} (k n : nat) (a : A) (v : list A) :
  (k <= n)%nat -> firstn k (replace_nth n a v) = firstn k v.
Proof.
  revert k n. induction v as [| x v IH]; intros [| k] [| n] H; simpl;
    try reflexivity; try lia.
  f_equal. apply IH. lia.
Qed.

Lemma firstn_S_inv {A} (k : nat) (l l' : list A) (d : A) :
  firstn (S k) l = firstn (S k) l' ->
  firstn k l = firstn k l' /\ nth k l d = nth k l' d.
Proof.
  intros H. split.
  - assert (E : forall x : list A, firstn k x = firstn k (firstn (S k) x)).
    { intros x. rewrite firstn_firstn. f_equal. lia. }
    rewrite (E l), (E l'). now rewrite H.
  - assert (E : forall x : list A, nth k x d = nth k (firstn (S k) x) d).
    { intros x. rewrite nth_firstn.
      now replace (k <? S k)%nat with true by (symmetry; apply Nat.ltb_lt; lia). }
    rewrite (E l), (E l'). now rewrite H.
Qed.

Lemma skipn_cons_nth {A} (k : nat) (l : list A) (d : A) :
  (k < List.length l)%nat -> skipn k l = nth k l d :: skipn (S k) l.
Proof.
  revert k. induction l as [| x l IH]; intros [| k] H; simpl in *;
    try lia; try reflexivity.
  apply IH. lia.
Qed.

Lemma loadVertices_fold (noff : bool) (count : nat) :
  forall (k : nat) (st st' : Loading),
    loadVertices noff count (Z.of_nat k) st = Done st' ->
    List.length (l_vertices st') = List.length (l_vertices st)
    /\ firstn k (l_vertices st') = firstn k (l_vertices st)
    /\ l_min st' = fold_left growMin (firstn count (skipn k (l_vertices st'))) (l_min st)
    /\ l_max st' = fold_left growMax (firstn count (skipn k (l_vertices st'))) (l_max st).
Proof.
  induction count as [| count IH]; intros k st st' H.
  - simpl in H. inversion H; subst. repeat split.
  - simpl in H.
    destruct (loadVertex noff (Z.of_nat k) st) as [st1 | u] eqn:E1; [| discriminate].
    cbn [obind] in H.
    replace (Z.of_nat k + 1) with (Z.of_nat (S k)) in H by lia.
    destruct (IH (S k) st1 st' H) as [Hlen [Hfirst [Hmin Hmax] ] ].
    destruct (loadVertex_done _ _ _ _ E1) as [v [Hk [Hvs [Hlo Hhi] ] ] ].
    rewrite Nat2Z.id in Hvs.
    assert (Hl1 : List.length (l_vertices st1) = List.length (l_vertices st))
      by (rewrite Hvs; apply length_replace_nth).
    destruct (firstn_S_inv k _ _ Vec.zero Hfirst) as [Hfk Hnth].
    assert (Hv : nth k (l_vertices st') Vec.zero = v).
    { rewrite Hnth, Hvs. rewrite nth_replace_nth by lia.
      now rewrite Nat.eqb_refl. }
    split; [congruence |].
    split; [rewrite Hfk, Hvs; now apply firstn_replace_nth |].
    rewrite (skipn_cons_nth k (l_vertices st') Vec.zero) by lia.
    rewrite Hv. simpl. rewrite <- Hlo, <- Hhi. split; assumption.
Qed.

Lemma calculateBB_unfold (m : TriangleMesh) :
  box (calculateBB m)
  = mkBoundingBox (fold_left growMin (vertices m) FLT_MAX3)
                  (fold_left growMax (vertices m) negFLT_MAX3)
                  (midOf (fold_left growMin (vertices m) FLT_MAX3)
                         (fold_left growMax (vertices m) negFLT_MAX3))
                  (sizeOf (fold_left growMin (vertices m) FLT_MAX3)
                          (fold_left growMax (vertices m) negFLT_MAX3)).
Proof. reflexivity. Qed.

Lemma calculateBB_box (m m' : TriangleMesh) :
  vertices m = vertices m' -> box (calculateBB m) = box (calculateBB m').
Proof. intros H. unfold calculateBB. simpl. now rewrite H. Qed.

Section LoadedBox.
Context {P : Platform}.

Lemma readMesh_box (noff : bool) (s : istream) (createVBOs : bool)
    (m0 m' : TriangleMesh) (w w' : World) :
  boundingBoxMin m0 = FLT_MAX3 -> boundingBoxMax m0 = negFLT_MAX3 ->
  vertices m0 = [] ->
  readMesh noff s createVBOs m0 w = Done (m', w') ->
  vertices m' = [] \/ box m' = box (calculateBB m').
Proof.
  intros Hmin Hmax Hvs. unfold readMesh.
  destruct (read_int s) as [onv s1].
  destruct (read_int s1) as [onf s2].
  destruct (read_int s2) as [one s3].
  destruct onv as [nv |]; [| discriminate].
  destruct (nv <=? 0); [intros H; inversion H; subst; now left |].
  destruct onf as [nf |]; [| discriminate].
  destruct (nf <=? 0); [intros H; inversion H; subst; now left |].
  rewrite Hmin, Hmax, Hvs.
  unfold bind at 1. unfold lift at 1.
  destruct (loadVertices noff (Z.to_nat nv) 0 _) as [st | u] eqn:EV; [| discriminate].
  change 0 with (Z.of_nat 0) in EV.
  destruct (loadVertices_fold _ _ _ _ _ EV) as [Hlen [_ [Elo Ehi] ] ].
  cbn [l_vertices l_min l_max skipn] in Hlen, Elo, Ehi.
  rewrite length_resize in Hlen.
  rewrite <- Hlen, firstn_all in Elo, Ehi.
  set (m1 := set_box _ _).
  assert (Hbox : box m1 = box (calculateBB m1)).
  { rewrite calculateBB_unfold.
    change (vertices m1) with (l_vertices st).
    rewrite <- Elo, <- Ehi. reflexivity. }
  assert (Hkeep : forall m2 : TriangleMesh,
             vertices m2 = vertices m1 -> box m2 = box m1 ->
             box m2 = box (calculateBB m2)).
  { intros m2 Hv Hb. rewrite Hb, Hbox. symmetry. now apply calculateBB_box. }
  unfold bind at 1. unfold lift at 1.
  destruct (loadTriangles (Z.to_nat nf) 0 _) as [ [ts s'] | u]; [| discriminate].
  cbn [fst].
  set (m2 := set_triangles ts m1).
  unfold bind.
  assert (Hfinish : forall m3 : TriangleMesh,
             vertices m3 = vertices m1 -> box m3 = box m1 ->
             (if createVBOs then createAllVBOs (calculateTexCoordsSphereMapping m3)
              else ret (calculateTexCoordsSphereMapping m3)) w = Done (m', w') ->
             vertices m' = [] \/ box m' = box (calculateBB m')).
  { intros m3 Hv Hb H. right. destruct createVBOs.
    - destruct (createAllVBOs_keeps _ _ _ _ H) as [Hg Hbx].
      apply Hkeep.
      + unfold vertices. rewrite Hg. exact Hv.
      + rewrite Hbx. exact Hb.
    - inversion H; subst. apply Hkeep; assumption. }
  destruct noff.
  - unfold ret at 1. apply Hfinish; reflexivity.
  - unfold lift. unfold calculateNormalsByArea.
    destruct (sumTriangleNormals _ _ _) as [acc | u]; [| discriminate].
    cbn [obind]. apply Hfinish; reflexivity.
Qed.

Lemma loadOFF_box (filename : string) (createVBOs : bool)
    (m m' : TriangleMesh) (w w' : World) :
  loadOFF filename createVBOs m w = Done (m', w') ->
  vertices m' = [] \/ box m' = box (calculateBB m').
Proof.
  rewrite loadOFF_unfold.
  destruct (files w filename) as [input |].
  - unfold parseOFF. destruct input as [| t input]; [discriminate |].
    destruct (tagOf t).
    + now apply readMesh_box.
    + now apply readMesh_box.
    + intros H. inversion H; subst. now left.
  - intros H. inversion H; subst. now left.
Qed.





End LoadedBox.



(* ------------------------------------------------------------------ *)
(** ** The terrain generator *)

Lemma length_upto (n : Z) : List.length (upto n) = Z.to_nat n.
Proof. unfold upto. now rewrite length_map, length_seq. Qed.

Lemma foldM_count {A S} (body : A -> S -> outcome S) (measure : S -> nat) (c : nat) :
  (forall a s s', body a s = Done s' -> measure s' = (measure s + c)%nat) ->
  forall l s s', foldM body l s = Done s' ->
                 measure s' = (measure s + c * List.length l)%nat.
Proof.
  intros Hbody. induction l as [| a l IH]; intros s s' H; simpl in *.
  - inversion H; subst. lia.
  - destruct (body a s) as [s1 | u] eqn:E; [| discriminate].
    cbn [obind] in H. rewrite (IH _ _ H), (Hbody _ _ _ E). lia.
Qed.

Lemma fold_left_count {A S} (body : S -> A -> S) (measure : S -> nat) (c : nat) :
  (forall a s, measure (body s a) = (measure s + c)%nat) ->
  forall l s, measure (fold_left body l s) = (measure s + c * List.length l)%nat.
Proof.
  intros Hbody. induction l as [| a l IH]; intros s; simpl.
  - lia.
  - rewrite IH, Hbody. lia.
Qed.

Lemma to_int_small (z : Z) : 0 <= z < 2 ^ 31 -> to_int z = z.
Proof.
  intros H. unfold to_int.
  rewrite Z.mod_small by (change (2 ^ 32) with (2 * 2 ^ 31); lia). lia.
Qed.

Section TerrainCounts.
Context {P : Platform}.
Variable dist : nat -> float.

Lemma terrainGeometry_counts (h w : Z) (hm : Heightmap) (g g' : Geometry) :
  0 <= h < 2 ^ 31 - 1 -> 0 <= w < 2 ^ 31 - 1 ->
  terrainGeometry h w hm g = Done g' ->
  List.length (g_vertices g')
  = (List.length (g_vertices g) + Z.to_nat ((w + 1) * (h + 1)))%nat
  /\ List.length (g_triangles g')
     = (List.length (g_triangles g) + Z.to_nat (2 * w * h))%nat.
Proof.
  intros Hh Hw. unfold terrainGeometry.
  rewrite (to_int_small h), (to_int_small w) by lia.
  destruct (foldM _ (upto (h + 1)) g) as [g1 | u] eqn:E; [| discriminate].
  cbn [obind]. intros H. inversion H; subst. clear H.
  assert (Hrow : forall z s s',
             foldM (terrainVertex hm z) (upto (w + 1)) s = Done s' ->
             List.length (g_vertices s')
             = (List.length (g_vertices s) + Z.to_nat (w + 1))%nat
             /\ List.length (g_triangles s') = List.length (g_triangles s)).
  { intros z s s' Hs. split.
    - rewrite (foldM_count (terrainVertex hm z)
                 (fun s => List.length (g_vertices s)) 1 ltac:(
                   intros a s0 s1; unfold terrainVertex;
                   destruct (height hm a z); [| discriminate];
                   cbn [obind]; intros H0; inversion H0; subst; simpl;
                   now rewrite length_app) _ _ _ Hs).
      rewrite length_upto. lia.
    - rewrite (foldM_count (terrainVertex hm z)
                 (fun s => List.length (g_triangles s)) 0 ltac:(
                   intros a s0 s1; unfold terrainVertex;
                   destruct (height hm a z); [| discriminate];
                   cbn [obind]; intros H0; inversion H0; subst; simpl; lia)
                 _ _ _ Hs). lia. }
  assert (Hv1 : List.length (g_vertices g1)
                = (List.length (g_vertices g)
                   + Z.to_nat (w + 1) * Z.to_nat (h + 1))%nat).
  { rewrite (foldM_count _ (fun s => List.length (g_vertices s)) (Z.to_nat (w + 1))
               (fun z s s' Hs => proj1 (Hrow z s s' Hs)) _ _ _ E).
    now rewrite length_upto. }
  assert (Ht1 : List.length (g_triangles g1) = List.length (g_triangles g)).
  { rewrite (foldM_count _ (fun s => List.length (g_triangles s)) 0
               (fun z s s' Hs => eq_trans (proj2 (Hrow z s s' Hs))
                                          (eq_sym (Nat.add_0_r _))) _ _ _ E).
    lia. }
  unfold grid. split.
  - rewrite (fold_left_count _ (fun s => List.length (g_vertices s)) 0).
    + rewrite Hv1. rewrite <- Z2Nat.inj_mul by lia. lia.
    + intros z s.
      rewrite (fold_left_count _ (fun s => List.length (g_vertices s)) 0); [lia |].
      intros x s0. simpl. lia.
  - rewrite (fold_left_count _ (fun s => List.length (g_triangles s)) (2 * Z.to_nat w)).
    + rewrite Ht1, length_upto. lia.
    + intros z s.
      rewrite (fold_left_count _ (fun s => List.length (g_triangles s)) 2).
      * rewrite length_upto. lia.
      * intros x s0. simpl. rewrite length_app. simpl. lia.
Qed.

(** Whenever [generateTerrain] runs to its end the mesh has
    [(w+1)*(h+1)] vertices and [2*w*h] triangles. *)
Lemma generateTerrain_counts (h w : Z) (m m' : TriangleMesh) (world world' : World) :
  0 <= h < 2 ^ 31 - 1 -> 0 <= w < 2 ^ 31 - 1 ->
  generateTerrain dist h w m world = Done (m', world') ->
  len (vertices m') = (w + 1) * (h + 1) /\ len (triangles m') = 2 * w * h.
Proof.
  intros Hh Hw. unfold generateTerrain, bind. rewrite clear_run. unfold lift.
  destruct (heightField dist h w) as [hm | u]; [| discriminate].
  destruct (terrainGeometry h w hm _) as [g | u] eqn:Eg; [| discriminate].
  destruct (terrainGeometry_counts _ _ _ _ _ Hh Hw Eg) as [Hv Ht].
  cbn [cleared geometry g_vertices g_triangles List.length Nat.add] in Hv, Ht.
  unfold calculateNormalsByArea.
  destruct (sumTriangleNormals _ _ _) as [acc | u]; [| discriminate].
  cbn [obind]. intros H.
  destruct (createAllVBOs_keeps _ _ _ _ H) as [Hg _].
  unfold len, vertices, triangles. rewrite Hg. simpl.
  rewrite Hv, Ht. cbn [Nat.add].
  split; rewrite Z2Nat.id; try reflexivity.
  - apply Z.mul_nonneg_nonneg; lia.
  - apply Z.mul_nonneg_nonneg; lia.
Qed.

(** C4.  The call [generateTerrain(4, 3, iterations)], a grid of height 4
    and width 3, does not produce a mesh: in the first diamond step
    ([stepSize = 4], [halfStep = 2], [x = 2], [z = 2]) the read of
    [heightmap[x + halfStep]] is the read of row 4 of a height map with
    the 4 rows 0 to 3. *)
Theorem generateTerrain_diamond_step_reads_outside_the_grid
    (m : TriangleMesh) (world : World) :
  generateTerrain dist 4 3 m world = Undefined (OutOfBounds "heightmap" 4 4).
Proof.
  unfold generateTerrain, bind. rewrite clear_run. unfold lift.
  assert (E : heightField dist 4 3 = Undefined (OutOfBounds "heightmap" 4 4))
    by (vm_compute; reflexivity).
  now rewrite E.
Qed.

End TerrainCounts.

(* ------------------------------------------------------------------ *)
(** ** Drawing leaves the render state as it found it *)

Section DrawRuns.
Context {P : Platform}.

Lemma gl_run (c : glcall) (w : World) : gl c w = Done (tt, logged w [c]).
Proof. reflexivity. Qed.

Lemma bind_done {A B} (x : M A) (k : A -> M B) (w w' : World) (a : A) :
  x w = Done (a, w') -> bind x k w = k a w'.
Proof. intros E. unfold bind. now rewrite E. Qed.

Lemma pop_after_push (a b : Mat4) (s : RenderState) :
  popModelViewMatrix (setModelViewMatrix a (setModelViewMatrix b (pushModelViewMatrix s)))
  = Some s.
Proof. now destruct s. Qed.

Lemma drawBB_run (m : TriangleMesh) (s : RenderState) (w : World) :
  exists calls,
    drawBB m s w = Done (s, logged w calls)
    /\ generated calls = [] /\ deleted calls = [].
Proof.
  unfold drawBB. rewrite !bind_gl.
  cbv zeta. rewrite pop_after_push. unfold ret.
  rewrite !logged_logged. eexists. split; [reflexivity |]. split; reflexivity.
Qed.

Lemma drawNormals_run (m : TriangleMesh) (s : RenderState) (w : World) :
  exists calls,
    drawNormals m s w = Done (tt, logged w calls)
    /\ generated calls = [] /\ deleted calls = [].
Proof.
  unfold drawNormals. rewrite !bind_gl, gl_run, !logged_logged. eexists. split; [reflexivity |]. split; reflexivity.
Qed.

Lemma colouring_run (m : TriangleMesh) (s : RenderState) (w : World) :
  exists calls,
    (match coloringType m with
     | TEXTURE => bindTexture m s
     | COLOR_ARRAY => bindColorArray m s
     | STATIC_COLOR => bindStaticColor m s
     | BUMP_MAPPING => bindBumpMapping m s
     end) w = Done (tt, logged w calls)
    /\ generated calls = [] /\ deleted calls = [].
Proof.
  destruct (coloringType m);
    unfold bindTexture, bindColorArray, bindStaticColor, bindBumpMapping;
    repeat match goal with |- context [if ?b then _ else _] => destruct b end;
    rewrite ?bind_gl, gl_run, ?logged_logged;
    (eexists; split; [reflexivity |]; split; reflexivity).
Qed.

Lemma drawVBO_run (m : TriangleMesh) (s : RenderState) (w : World) :
  exists before,
    drawVBO m s w
    = Done (tt, logged w (before ++ [glDrawElements GL_TRIANGLES (3 * len (triangles m))]))
    /\ generated before = [] /\ deleted before = [].
Proof.
  rewrite drawVBO_unfold.
  destruct (colouring_run m s
              (logged w [glBindVertexArray (VAO (handles m));
                         glUniformMatrix4fv (getModelViewUniform s)
                                            (getCurrentModelViewMatrix s);
                         glUniformMatrix3fv (getNormalMatrixUniform s)
                                            (calculateNormalMatrix s)]))
    as [calls [E [Hg Hd] ] ].
  unfold bind. rewrite E, gl_run.
  exists ([glBindVertexArray (VAO (handles m));
           glUniformMatrix4fv (getModelViewUniform s) (getCurrentModelViewMatrix s);
           glUniformMatrix3fv (getNormalMatrixUniform s) (calculateNormalMatrix s)]
          ++ calls).
  split; [now rewrite !logged_logged, <- !app_assoc |].
  unfold generated, deleted in *. rewrite !flat_map_app, Hg, Hd. split; reflexivity.
Qed.

Lemma setCurrentProgram_back (s s2 : RenderState) :
  s2 = switchToStandardProgram s ->
  setCurrentProgram (getCurrentProgram s) s2 = s.
Proof. intros ->. now destruct s. Qed.

(** X1 ([draw], [drawBB], [drawNormals], [drawVBO]).  [draw] returns for
    each mesh, state and world.  It hands the render state back as it
    received it (the program it switched to for the wireframes and the
    matrix it pushed are restored), it neither generates nor deletes a GL
    object, and it returns 0 without a GL call when the box is culled or
    the mesh has no vertex array, else the number of triangles, with the
    indexed draw of three indices per triangle as last call. *)
Theorem draw_returns_and_restores_state
    (m : TriangleMesh) (state : RenderState) (w : World) :
  exists n calls,
    draw m state w = Done ((n, state), logged w calls)
    /\ generated calls = [] /\ deleted calls = []
    /\ (boundingBoxIsVisible state m = false \/ VAO (handles m) = 0 ->
        n = 0 /\ calls = [])
    /\ (boundingBoxIsVisible state m = true -> VAO (handles m) <> 0 ->
        n = to_uint (len (triangles m))
        /\ exists before,
             calls = before ++ [glDrawElements GL_TRIANGLES (3 * len (triangles m))]).
Proof.
  unfold draw.
  destruct (boundingBoxIsVisible state m) eqn:Hvis; cbn [negb].
  2:{ exists 0, []. rewrite logged_nil. unfold ret.
      split; [reflexivity |]. split; [reflexivity |]. split; [reflexivity |].
      split; [intros _; split; reflexivity | discriminate]. }
  destruct (VAO (handles m) =? 0) eqn:Hvao.
  { exists 0, []. rewrite logged_nil. unfold ret.
    split; [reflexivity |]. split; [reflexivity |]. split; [reflexivity |].
    split; [intros _; split; reflexivity |].
    intros _ Hne. apply Z.eqb_eq in Hvao. contradiction. }
  apply Z.eqb_neq in Hvao.
  assert (Hdebug : exists calls,
             (if withBB m || withNormals m
              then let formerProgram := getCurrentProgram state in
                   let s1 := switchToStandardProgram state in
                   bind (if withBB m then drawBB m s1 else ret s1)
                        (fun s2 => bind (when (withNormals m) (drawNormals m s2))
                                        (fun _ => ret (setCurrentProgram formerProgram s2)))
              else ret state) w = Done (state, logged w calls)
             /\ generated calls = [] /\ deleted calls = []).
  { destruct (withBB m) eqn:Hbb; destruct (withNormals m) eqn:Hn; cbn [orb when].
    - cbv zeta. unfold bind.
      destruct (drawBB_run m (switchToStandardProgram state) w) as [c1 [E1 [G1 D1] ] ].
      rewrite E1.
      destruct (drawNormals_run m (switchToStandardProgram state) (logged w c1))
        as [c2 [E2 [G2 D2] ] ].
      rewrite E2. unfold ret. rewrite logged_logged.
      rewrite (setCurrentProgram_back state _ eq_refl).
      eexists. split; [reflexivity |].
      unfold generated, deleted in *. rewrite !flat_map_app, G1, G2, D1, D2.
      split; reflexivity.
    - cbv zeta. unfold bind.
      destruct (drawBB_run m (switchToStandardProgram state) w) as [c1 [E1 [G1 D1] ] ].
      rewrite E1. unfold ret.
      rewrite (setCurrentProgram_back state _ eq_refl).
      eexists. split; [reflexivity |]. split; assumption.
    - cbv zeta. unfold bind, ret at 1.
      destruct (drawNormals_run m (switchToStandardProgram state) w)
        as [c2 [E2 [G2 D2] ] ].
      rewrite E2. unfold ret.
      rewrite (setCurrentProgram_back state _ eq_refl).
      eexists. split; [reflexivity |]. split; assumption.
    - exists []. rewrite logged_nil. repeat split. }
  destruct Hdebug as [c1 [E1 [G1 D1] ] ].
  rewrite (bind_done _ _ _ _ _ E1).
  destruct (drawVBO_run m state (logged w c1)) as [before [E2 [G2 D2] ] ].
  rewrite (bind_done _ _ _ _ _ E2). unfold ret. rewrite logged_logged.
  eexists. eexists. split; [reflexivity |].
  unfold generated, deleted in *. rewrite !flat_map_app, G1, G2, D1, D2.
  split; [reflexivity |]. split; [reflexivity |].
  split.
  - intros [Hf | Hz]; [discriminate | contradiction].
  - intros _ _. split; [reflexivity |].
    exists (c1 ++ before). now rewrite app_assoc.
Qed.

End DrawRuns.

(* ------------------------------------------------------------------ *)
(** ** The box of [calculateBB] encloses the vertices *)

Lemma running_min_attained (xs : list float) (acc : float) :
  let r := fold_left (fun acc x => F32.min x acc) xs acc in
  r = acc \/ In r xs.
Proof.
  revert acc. induction xs as [| x xs IH]; intros acc; simpl.
  - now left.
  - destruct (IH (F32.min x acc)) as [E | Hin].
    + rewrite E. unfold F32.min. destruct (F32.ltb acc x); [now left | right; now left].
    + right. now right.
Qed.

Lemma running_max_attained (xs : list float) (acc : float) :
  let r := fold_left (fun acc x => F32.max x acc) xs acc in
  r = acc \/ In r xs.
Proof.
  revert acc. induction xs as [| x xs IH]; intros acc; simpl.
  - now left.
  - destruct (IH (F32.max x acc)) as [E | Hin].
    + rewrite E. unfold F32.max. destruct (F32.ltb x acc); [now left | right; now left].
    + right. now right.
Qed.

Lemma FLT_MAX_is_a_number :
  F32.is_nan F32.FLT_MAX = false /\ F32.is_nan (F32.neg F32.FLT_MAX) = false.
Proof. split; reflexivity. Qed.

Lemma vertices_within_fold (vs : list Vec3f) :
  Forall noNaN vs ->
  Forall (within (fold_left growMin vs FLT_MAX3) (fold_left growMax vs negFLT_MAX3)) vs.
Proof.
  intros Hall.
  destruct (noNaN_components _ Hall) as [Hx [Hy Hz] ].
  destruct (growMin_component vs FLT_MAX3) as [Ex [Ey Ez] ].
  destruct (growMax_component vs negFLT_MAX3) as [Fx [Fy Fz] ].
  destruct FLT_MAX_is_a_number as [Hmax Hmin].
  destruct (running_min _ Hx (vx FLT_MAX3) Hmax) as [_ [_ Lx] ].
  destruct (running_min _ Hy (vy FLT_MAX3) Hmax) as [_ [_ Ly] ].
  destruct (running_min _ Hz (vz FLT_MAX3) Hmax) as [_ [_ Lz] ].
  destruct (running_max _ Hx (vx negFLT_MAX3) Hmin) as [_ [_ Ux] ].
  destruct (running_max _ Hy (vy negFLT_MAX3) Hmin) as [_ [_ Uy] ].
  destruct (running_max _ Hz (vz negFLT_MAX3) Hmin) as [_ [_ Uz] ].
  rewrite Forall_map in Lx, Ly, Lz, Ux, Uy, Uz.
  rewrite Forall_forall in *.
  intros v Hv. unfold within, ordered. rewrite Ex, Ey, Ez, Fx, Fy, Fz.
  repeat split; auto.
Qed.

(** X2 ([calculateBB]).  For vertices without NaN coordinates the box
    that [calculateBB] derives encloses each vertex, [Min <= v <= Max] in
    each component.  Each component of [Min] is the start value [FLT_MAX]
    or the component of a vertex, each component of [Max] is [-FLT_MAX] or
    the component of a vertex. *)
Theorem calculateBB_box_encloses_the_vertices (m : TriangleMesh) :
  (Forall noNaN (vertices m) ->
   Forall (within (boundingBoxMin (calculateBB m)) (boundingBoxMax (calculateBB m)))
          (vertices m))
  /\ (forall c : Vec3f -> float, c = vx \/ c = vy \/ c = vz ->
        (c (boundingBoxMin (calculateBB m)) = F32.FLT_MAX
         \/ exists v, In v (vertices m) /\ c v = c (boundingBoxMin (calculateBB m)))
        /\ (c (boundingBoxMax (calculateBB m)) = F32.neg F32.FLT_MAX
            \/ exists v, In v (vertices m) /\ c v = c (boundingBoxMax (calculateBB m)))).
Proof.
  split.
  - intros Hall. apply vertices_within_fold. exact Hall.
  - intros c Hc.
    change (boundingBoxMin (calculateBB m)) with (fold_left growMin (vertices m) FLT_MAX3).
    change (boundingBoxMax (calculateBB m)) with (fold_left growMax (vertices m) negFLT_MAX3).
    destruct (growMin_component (vertices m) FLT_MAX3) as [Ex [Ey Ez] ].
    destruct (growMax_component (vertices m) negFLT_MAX3) as [Fx [Fy Fz] ].
    assert (Hin : forall (c : Vec3f -> float) (r : float),
               In r (map c (vertices m)) -> exists v, In v (vertices m) /\ c v = r).
    { intros c0 r Hr. apply in_map_iff in Hr. destruct Hr as [v [E Hv] ]. now exists v. }
    destruct Hc as [-> | [-> | ->] ].
    + rewrite Ex, Fx. split.
      * destruct (running_min_attained (map vx (vertices m)) (vx FLT_MAX3)); [now left | right; auto].
      * destruct (running_max_attained (map vx (vertices m)) (vx negFLT_MAX3)); [now left | right; auto].
    + rewrite Ey, Fy. split.
      * destruct (running_min_attained (map vy (vertices m)) (vy FLT_MAX3)); [now left | right; auto].
      * destruct (running_max_attained (map vy (vertices m)) (vy negFLT_MAX3)); [now left | right; auto].
    + rewrite Ez, Fz. split.
      * destruct (running_min_attained (map vz (vertices m)) (vz FLT_MAX3)); [now left | right; auto].
      * destruct (running_max_attained (map vz (vertices m)) (vz negFLT_MAX3)); [now left | right; auto].
Qed.

(** Witness: the single triangle. *)
Lemma calculateBB_box_encloses_the_vertices_witness :
  Forall (within (boundingBoxMin (calculateBB singleTriangle))
                 (boundingBoxMax (calculateBB singleTriangle)))
         (vertices singleTriangle).
Proof.
  apply (proj1 (calculateBB_box_encloses_the_vertices singleTriangle)).
  repeat constructor.
Defined.

(* ------------------------------------------------------------------ *)
(** ** Normal synthesis is defined exactly for indices in range *)

Lemma inRange_dec (vs : list Vec3f) (t : Triangle) : {inRange vs t} + {~ inRange vs t}.
Proof.
  unfold inRange.
  destruct (Z_lt_dec (to_uint (vx t)) (Z.of_nat (List.length vs)));
    destruct (Z_lt_dec (to_uint (vy t)) (Z.of_nat (List.length vs)));
    destruct (Z_lt_dec (to_uint (vz t)) (Z.of_nat (List.length vs)));
    (left; tauto) || (right; tauto).
Qed.

Lemma addTriangleNormal_outside (vs ns : list Vec3f) (t : Triangle) :
  ~ inRange vs t ->
  exists i,
    (i = to_uint (vx t) \/ i = to_uint (vy t) \/ i = to_uint (vz t))
    /\ Z.of_nat (List.length vs) <= i
    /\ addTriangleNormal vs ns t
       = Undefined (OutOfBounds "vertices" i (Z.of_nat (List.length vs))).
Proof.
  intros Hout. unfold addTriangleNormal.
  pose proof (to_uint_nonneg (vx t)) as P0.
  pose proof (to_uint_nonneg (vy t)) as P1.
  pose proof (to_uint_nonneg (vz t)) as P2.
  destruct (Z_lt_dec (to_uint (vx t)) (Z.of_nat (List.length vs))) as [H0 | H0].
  - rewrite (at_in_range _ vs (to_uint (vx t)) Vec.zero) by lia. cbn [obind].
    destruct (Z_lt_dec (to_uint (vy t)) (Z.of_nat (List.length vs))) as [H1 | H1].
    + rewrite (at_in_range _ vs (to_uint (vy t)) Vec.zero) by lia. cbn [obind].
      destruct (Z_lt_dec (to_uint (vz t)) (Z.of_nat (List.length vs))) as [H2 | H2].
      * exfalso. apply Hout. unfold inRange. tauto.
      * exists (to_uint (vz t)). rewrite at_out_of_range by lia.
        repeat split; auto; lia.
    + exists (to_uint (vy t)). rewrite at_out_of_range by lia.
      repeat split; auto; lia.
  - exists (to_uint (vx t)). rewrite at_out_of_range by lia.
    repeat split; auto; lia.
Qed.

Lemma sumTriangleNormals_outside (vs : list Vec3f) (ts : list Triangle) :
  ~ Forall (inRange vs) ts ->
  forall ns, List.length ns = List.length vs ->
  exists t i,
    In t ts
    /\ (i = to_uint (vx t) \/ i = to_uint (vy t) \/ i = to_uint (vz t))
    /\ Z.of_nat (List.length vs) <= i
    /\ sumTriangleNormals vs ts ns
       = Undefined (OutOfBounds "vertices" i (Z.of_nat (List.length vs))).
Proof.
  induction ts as [| t ts IH]; intros Hnot ns Hlen.
  - exfalso. apply Hnot. constructor.
  - destruct (inRange_dec vs t) as [Hin | Hout].
    + destruct (addTriangleNormal_spec vs ns t Hlen Hin) as [ns1 [E1 [L1 _] ] ].
      destruct (IH (fun H => Hnot (Forall_cons _ Hin H)) ns1 L1)
        as [t' [i [Ht' [Hi [Hge E] ] ] ] ].
      exists t', i. simpl. rewrite E1. cbn [obind].
      repeat split; auto.
    + destruct (addTriangleNormal_outside vs ns t Hout) as [i [Hi [Hge E] ] ].
      exists t, i. simpl. rewrite E. cbn [obind].
      repeat split; auto.
Qed.

(** X3 ([calculateNormalsByArea]).  [calculateNormalsByArea] returns a
    mesh exactly when each index of each triangle addresses a vertex;
    otherwise it runs into the read [vertices[i]] for an index [i] of some
    triangle that is not below the number of vertices. *)
Theorem calculateNormalsByArea_defined_iff_indices_in_range (m : TriangleMesh) :
  ((exists m', calculateNormalsByArea m = Done m')
   <-> Forall (inRange (vertices m)) (triangles m))
  /\ (~ Forall (inRange (vertices m)) (triangles m) ->
      exists t i,
        In t (triangles m)
        /\ (i = to_uint (vx t) \/ i = to_uint (vy t) \/ i = to_uint (vz t))
        /\ len (vertices m) <= i
        /\ calculateNormalsByArea m
           = Undefined (OutOfBounds "vertices" i (len (vertices m)))).
Proof.
  assert (Hout : ~ Forall (inRange (vertices m)) (triangles m) ->
                 exists t i,
                   In t (triangles m)
                   /\ (i = to_uint (vx t) \/ i = to_uint (vy t) \/ i = to_uint (vz t))
                   /\ len (vertices m) <= i
                   /\ calculateNormalsByArea m
                      = Undefined (OutOfBounds "vertices" i (len (vertices m)))).
  { intros Hnot.
    destruct (sumTriangleNormals_outside _ _ Hnot
                (resize Vec.zero (List.length (vertices m)) (normals m))
                (length_resize _ _ _)) as [t [i [Ht [Hi [Hge E] ] ] ] ].
    exists t, i. unfold calculateNormalsByArea. rewrite E.
    repeat split; auto. }
  split; [| exact Hout].
  split.
  - intros [m' E].
    destruct (Forall_dec (inRange (vertices m)) (inRange_dec (vertices m)) (triangles m))
      as [Hall | Hnot]; [exact Hall |].
    destruct (Hout Hnot) as [t [i [_ [_ [_ E'] ] ] ] ]. congruence.
  - intros Hall.
    destruct (sumTriangleNormals_spec (vertices m) (triangles m) Hall
                (resize Vec.zero (List.length (vertices m)) (normals m))
                (length_resize _ _ _)) as [acc [E _] ].
    eexists. unfold calculateNormalsByArea. rewrite E. reflexivity.
Qed.

(** Witness: a triangle whose third index is 7 on a mesh of three
    vertices. *)
Lemma calculateNormalsByArea_defined_iff_indices_in_range_witness :
  exists t i,
    In t [mkVec3 0 1 7]
    /\ (i = to_uint (vx t) \/ i = to_uint (vy t) \/ i = to_uint (vz t))
    /\ 3 <= i
    /\ calculateNormalsByArea (set_triangles [mkVec3 0 1 7] singleTriangle)
       = Undefined (OutOfBounds "vertices" i 3).
Proof.
  apply (proj2 (calculateNormalsByArea_defined_iff_indices_in_range
                  (set_triangles [mkVec3 0 1 7] singleTriangle))).
  intros H. inversion H as [| t ts [_ [_ H3] ] _]. vm_compute in H3. discriminate.
Defined.

(* ------------------------------------------------------------------ *)
(** ** What [loadOFF] returns when it returns a mesh *)

Lemma sumTriangleNormals_done (vs : list Vec3f) (ts : list Triangle) (ns ns' : list Vec3f) :
  List.length ns = List.length vs ->
  sumTriangleNormals vs ts ns = Done ns' ->
  Forall (inRange vs) ts /\ List.length ns' = List.length vs.
Proof.
  intros Hlen E.
  destruct (Forall_dec (inRange vs) (inRange_dec vs) ts) as [Hall | Hnot].
  - split; [exact Hall |].
    destruct (sumTriangleNormals_spec vs ts Hall ns Hlen) as [ns2 [E2 [L2 _] ] ].
    congruence.
  - destruct (sumTriangleNormals_outside vs ts Hnot ns Hlen) as [t [i [_ [_ [_ E'] ] ] ] ].
    congruence.
Qed.

Lemma loadTriangles_length (count : nat) :
  forall (i : Z) (st st' : list Triangle * istream),
    loadTriangles count i st = Done st' ->
    List.length (fst st') = List.length (fst st).
Proof.
  induction count as [| count IH]; intros i st st' H; simpl in H.
  - now inversion H.
  - destruct (loadTriangle i st) as [st1 | u] eqn:E1; [| discriminate].
    cbn [obind] in H. rewrite (IH _ _ _ H).
    unfold loadTriangle in E1. destruct st as [ts s].
    destruct (read_int s) as [three s0].
    destruct (at_ "triangles" ts i) as [old | u] eqn:Ea; [| discriminate].
    cbn [obind] in E1.
    destruct (read_uint s0) as [a s1]. destruct (read_uint s1) as [b s2].
    destruct (read_uint s2) as [c s3].
    rewrite put_in_range in E1 by (eapply at_done; exact Ea).
    cbn [obind] in E1. inversion E1; subst. simpl. apply length_replace_nth.
Qed.

Lemma loadVertices_NOFF_without_normals (count : nat) (i : Z) (st st' : Loading) :
  l_normals st = [] -> count <> 0%nat -> 0 <= i ->
  loadVertices true count i st = Done st' -> False.
Proof.
  intros Hn Hc Hi. destruct count as [| count]; [contradiction |].
  simpl. unfold loadVertex.
  destruct (at_ "vertices" (l_vertices st) i) as [old | u] eqn:Ea; [| discriminate].
  cbn [obind]. destruct (read_vec3f old (l_in st)) as [v s1].
  rewrite put_in_range by (eapply at_done; exact Ea). cbn [obind].
  rewrite Hn. rewrite at_out_of_range by (simpl; lia). discriminate.
Qed.

Section LoadedMesh.
Context {P : Platform}.

Lemma readMesh_wellformed (noff : bool) (s : istream) (createVBOs : bool)
    (m0 m' : TriangleMesh) (w w' : World) :
  vertices m0 = [] -> normals m0 = [] -> colors m0 = [] ->
  readMesh noff s createVBOs m0 w = Done (m', w') ->
  vertices m' <> [] ->
  noff = false
  /\ fst (read_int s) = Some (len (vertices m'))
  /\ fst (read_int (snd (read_int s))) = Some (len (triangles m'))
  /\ len (normals m') = len (vertices m')
  /\ len (texCoords m') = len (vertices m')
  /\ colors m' = []
  /\ tangents m' = tangents m0
  /\ triangles m' <> []
  /\ Forall (inRange (vertices m')) (triangles m').
Proof.
  intros Hvs Hns Hcs. unfold readMesh.
  destruct (read_int s) as [onv s1]. cbn [fst snd].
  destruct (read_int s1) as [onf s2]. cbn [fst snd].
  destruct (read_int s2) as [one s3].
  destruct onv as [nv |]; [| discriminate].
  destruct (nv <=? 0) eqn:Hnv; [intros H Hne; inversion H; subst; contradiction |].
  destruct onf as [nf |]; [| discriminate].
  destruct (nf <=? 0) eqn:Hnf; [intros H Hne; inversion H; subst; contradiction |].
  apply Z.leb_gt in Hnv, Hnf.
  rewrite Hvs, Hns.
  unfold bind at 1. unfold lift at 1.
  destruct (loadVertices noff (Z.to_nat nv) 0 _) as [st | u] eqn:EV; [| discriminate].
  destruct noff.
  { exfalso.
    eapply loadVertices_NOFF_without_normals; [| | | exact EV];
      [reflexivity | lia | lia]. }
  change 0 with (Z.of_nat 0) in EV.
  destruct (loadVertices_fold _ _ _ _ _ EV) as [Hlen _].
  cbn [l_vertices] in Hlen. rewrite length_resize in Hlen.
  set (m1 := set_box _ _).
  unfold bind at 1. unfold lift at 1.
  destruct (loadTriangles (Z.to_nat nf) 0 _) as [ [ts s'] | u] eqn:ET; [| discriminate].
  pose proof (loadTriangles_length _ _ _ _ ET) as Hlt.
  cbn [fst] in Hlt. rewrite length_resize in Hlt.
  cbn [fst]. set (m2 := set_triangles ts m1).
  unfold bind, lift. unfold calculateNormalsByArea.
  destruct (sumTriangleNormals (vertices m2) (triangles m2) _) as [acc | u] eqn:ES;
    [| discriminate].
  destruct (sumTriangleNormals_done _ _ _ _ (length_resize _ _ _) ES) as [Hin Hacc].
  cbn [obind].
  set (m4 := calculateTexCoordsSphereMapping _).
  assert (Hm4 : geometry m4
                = mkGeometry (l_vertices st) ts (map Vec.normalize acc) []
                             (map (sphereMapping (boundingBoxMid m1)) (l_vertices st))
                             (tangents m0)).
  { unfold m4, m2, m1, calculateTexCoordsSphereMapping. simpl.
    unfold colors in Hcs. now rewrite Hcs. }
  intros H Hne.
  assert (Hg : geometry m' = geometry m4).
  { destruct createVBOs.
    - now destruct (createAllVBOs_keeps _ _ _ _ H).
    - now inversion H. }
  unfold len, vertices, triangles, normals, texCoords, colors, tangents in *.
  rewrite Hg, Hm4. simpl.
  rewrite !length_map, Hlen, Hlt.
  change (g_vertices (geometry m2)) with (l_vertices st) in Hin, Hacc.
  change (g_triangles (geometry m2)) with ts in Hin.
  split; [reflexivity |].
  split; [simpl; now rewrite Z2Nat.id by lia |].
  split; [simpl; now rewrite Z2Nat.id by lia |].
  split; [now rewrite Hacc, Hlen |].
  split; [reflexivity |]. split; [reflexivity |]. split; [reflexivity |].
  split; [| exact Hin].
  intros ->. simpl in Hlt. lia.
Qed.

(** X4 ([loadOFF]).  A mesh with vertices that [loadOFF] returns comes
    from a file whose tag begins with OFF; it has as many vertices and
    triangles as the header announces, one normal and one texture
    coordinate per vertex, no colours, the tangents it had before, only
    triangle indices that address its vertices, and (for vertices without
    NaN) a box that encloses each vertex. *)
Theorem loadOFF_returns_wellformed_mesh
    (filename : string) (createVBOs : bool) (m m' : TriangleMesh) (w w' : World) :
  loadOFF filename createVBOs m w = Done (m', w') ->
  vertices m' <> [] ->
  (exists t input,
      files w filename = Some (t :: input) /\ tagOf t = TagOFF
      /\ fst (read_int (mkStream input false)) = Some (len (vertices m'))
      /\ fst (read_int (snd (read_int (mkStream input false))))
         = Some (len (triangles m')))
  /\ len (normals m') = len (vertices m')
  /\ len (texCoords m') = len (vertices m')
  /\ colors m' = []
  /\ tangents m' = tangents m
  /\ triangles m' <> []
  /\ Forall (inRange (vertices m')) (triangles m')
  /\ (Forall noNaN (vertices m') ->
      Forall (within (boundingBoxMin m') (boundingBoxMax m')) (vertices m')).
Proof.
  intros E Hne.
  assert (Hbox : Forall noNaN (vertices m') ->
                 Forall (within (boundingBoxMin m') (boundingBoxMax m')) (vertices m')).
  { intros Hall. destruct (loadOFF_box _ _ _ _ _ _ E) as [Hv | Hb]; [contradiction |].
    unfold boundingBoxMin, boundingBoxMax. rewrite Hb.
    now apply vertices_within_fold. }
  rewrite loadOFF_unfold in E.
  destruct (files w filename) as [input |] eqn:Hfile.
  2:{ inversion E; subst. contradiction. }
  unfold parseOFF in E. destruct input as [| t input]; [discriminate |].
  destruct (tagOf t) eqn:Htag.
  - destruct (readMesh_wellformed _ _ _ (cleared m) _ _ _ eq_refl eq_refl eq_refl E Hne)
      as [_ [Hnv [Hnf [H1 [H2 [H3 [H4 [H5 H6] ] ] ] ] ] ] ].
    split; [exists t, input; auto |].
    repeat (split; [assumption |]). exact Hbox.
  - destruct (readMesh_wellformed _ _ _ (cleared m) _ _ _ eq_refl eq_refl eq_refl E Hne)
      as [Hno _]. discriminate.
  - inversion E; subst. contradiction.
Qed.

End LoadedMesh.

(** Witness: the OFF file with the single triangle. *)
Lemma loadOFF_returns_wellformed_mesh_witness :
  exists m' w',
    loadOFF (P := referencePlatform) "triangle.off" true emptyMesh exampleWorld
    = Done (m', w')
    /\ len (vertices m') = 3 /\ len (normals m') = len (vertices m').
Proof.
  destruct (loadOFF (P := referencePlatform) "triangle.off" true emptyMesh exampleWorld)
    as [ [m' w'] | u] eqn:E.
  - exists m', w'. split; [reflexivity |].
    assert (Hv : len (vertices m') = 3) by (vm_compute in E; inversion E; reflexivity).
    split; [exact Hv |].
    apply (loadOFF_returns_wellformed_mesh (P := referencePlatform) _ _ _ _ _ _ E).
    intros H0. rewrite H0 in Hv. discriminate.
  - vm_compute in E. discriminate.
Defined.

(** Decimal fields where [loadOFF] extracts integers.  With the header
    OFF 3 1.5 0 the face count is read as 1 and the next extraction fails
    at the rest .5: nothing more is read, and the mesh comes back with
    three vertices and one triangle, all zero.  With the face 3 7.0 1 2 the
    index 7 is read, the next extraction fails at .0, and the normals are
    computed for the triangle (7, 0, 0), which addresses no vertex. *)
Lemma decimal_fields_are_read_by_their_leading_digits :
  (exists m' w',
     loadOFF (P := referencePlatform) "decimal.off" false emptyMesh exampleWorld
     = Done (m', w')
     /\ vertices m' = [Vec.zero; Vec.zero; Vec.zero]
     /\ triangles m' = [zeroTriangle])
  /\ loadOFF (P := referencePlatform) "index.off" false emptyMesh exampleWorld
     = Undefined (OutOfBounds "vertices" 7 3).
Proof.
  split.
  - eexists. eexists. split; [vm_compute; reflexivity |]. split; reflexivity.
  - vm_compute. reflexivity.
Qed.

(* ------------------------------------------------------------------ *)
(** ** Accounting for the GL object names *)

Lemma occ_app (id : Z) (a b : list Z) : occ id (a ++ b) = (occ id a + occ id b)%nat.
Proof. apply count_occ_app. Qed.

Lemma generated_app (a b : list glcall) : generated (a ++ b) = generated a ++ generated b.
Proof. apply flat_map_app. Qed.

Lemma deleted_app (a b : list glcall) : deleted (a ++ b) = deleted a ++ deleted b.
Proof. apply flat_map_app. Qed.

Lemma map_seq_shift {A} (g : nat -> A) (n : nat) :
  forall s, map g (seq s n) = map (fun k => g (s + k)%nat) (seq 0 n).
Proof.
  revert g. induction n as [| n IH]; intros g s; simpl.
  - reflexivity.
  - f_equal; [f_equal; lia |].
    rewrite (IH g (S s)). rewrite (IH (fun k => g (s + k)%nat) 1%nat).
    apply map_ext. intros k. f_equal. lia.
Qed.

Lemma names_none (a : Z) : names a a = [].
Proof. unfold names. now rewrite Z.sub_diag. Qed.

Lemma names_one (a : Z) : names a (a + 1) = [a].
Proof.
  unfold names. replace (a + 1 - a) with 1 by lia. simpl. f_equal. lia.
Qed.

Lemma names_split (a b c : Z) : a <= b -> b <= c -> names a b ++ names b c = names a c.
Proof.
  intros Hab Hbc. unfold names.
  replace (Z.to_nat (c - a)) with (Z.to_nat (b - a) + Z.to_nat (c - b))%nat by lia.
  rewrite seq_app, map_app. f_equal. cbn [Nat.add].
  rewrite (map_seq_shift _ _ (Z.to_nat (b - a))).
  apply map_ext. intros k. lia.
Qed.

Lemma names_bounds (a b id : Z) : In id (names a b) -> a <= id < b.
Proof.
  unfold names. intros H. apply in_map_iff in H. destruct H as [k [<- Hk] ].
  apply in_seq in Hk. lia.
Qed.

Lemma names_NoDup (a b : Z) : NoDup (names a b).
Proof.
  unfold names. generalize (Z.to_nat (b - a)) as n. generalize 0%nat as s.
  intros s n. revert s. induction n as [| n IH]; intros s; simpl.
  - constructor.
  - constructor; [| apply IH].
    intros H. apply in_map_iff in H. destruct H as [k [E Hk] ].
    apply in_seq in Hk. lia.
Qed.

Lemma occ_names_le_1 (a b id : Z) : (occ id (names a b) <= 1)%nat.
Proof. apply NoDup_count_occ. apply names_NoDup. Qed.

Lemma nz_positive (id : Z) : 0 < id -> nz id = [id].
Proof.
  intros H. unfold nz. now replace (id =? 0) with false by (symmetry; apply Z.eqb_neq; lia).
Qed.

(** *** The rules of [tracks] *)

Ltac occ_solve :=
  unfold generated, deleted; simpl; rewrite ?app_nil_r, ?occ_app; unfold occ; simpl;
  repeat match goal with
  | |- context [Z.eq_dec ?a ?b] => destruct (Z.eq_dec a b)
  end; lia.

Lemma tracks_ret {A} (owned : list Z) (a : A) (holds : A -> list Z) (Q : A -> Prop) :
  (forall id, occ id owned = occ id (holds a)) -> Q a ->
  tracks owned (ret a) holds Q.
Proof.
  intros Hocc Hq w Hw. exists a, w, [].
  split; [reflexivity |]. split; [now rewrite app_nil_r |].
  split; [lia |]. split; [now rewrite names_none |].
  split; [| exact Hq].
  intros id. simpl. rewrite Hocc. unfold occ. simpl. lia.
Qed.

Lemma tracks_bind {A B} (owned : list Z) (x : M A) (k : A -> M B)
    (hx : A -> list Z) (Qx : A -> Prop) (hk : B -> list Z) (Qk : B -> Prop) :
  tracks owned x hx Qx ->
  (forall a, Qx a -> tracks (hx a) (k a) hk Qk) ->
  tracks owned (bind x k) hk Qk.
Proof.
  intros Hx Hk w Hw.
  destruct (Hx w Hw) as [a [w1 [c1 [E1 [L1 [N1 [G1 [O1 Q1] ] ] ] ] ] ] ].
  destruct (Hk a Q1 w1 ltac:(lia)) as [b [w2 [c2 [E2 [L2 [N2 [G2 [O2 Q2] ] ] ] ] ] ] ].
  exists b, w2, (c1 ++ c2).
  split; [unfold bind; now rewrite E1 |].
  split; [now rewrite L2, L1, app_assoc |].
  split; [lia |].
  split; [rewrite generated_app, G1, G2; now apply names_split |].
  split; [| exact Q2].
  intros id. rewrite generated_app, deleted_app, !occ_app.
  specialize (O1 id). specialize (O2 id). lia.
Qed.

Lemma tracks_gl (owned : list Z) (c : glcall) :
  generatedBy c = [] -> deletedBy c = [] ->
  tracks owned (gl c) (fun _ => owned) (fun _ => True).
Proof.
  intros Hg Hd w Hw. exists tt, (logged w [c]), [c].
  split; [reflexivity |]. split; [reflexivity |]. split; [simpl; lia |].
  split; [simpl; rewrite Hg, names_none; reflexivity |].
  split; [| exact I].
  intros id. unfold generated, deleted. simpl. rewrite Hg, Hd. unfold occ. simpl. lia.
Qed.

Lemma tracks_print (owned : list Z) (line : string) :
  tracks owned (print line) (fun _ => owned) (fun _ => True).
Proof.
  intros w Hw. eexists tt, _, []. split; [reflexivity |].
  simpl. split; [now rewrite app_nil_r |]. split; [lia |].
  split; [now rewrite names_none |]. split; [| exact I].
  intros id. unfold occ. simpl. lia.
Qed.

Lemma tracks_gen (owned : list Z) (mk : Z -> glcall) :
  (forall id, generatedBy (mk id) = [id] /\ deletedBy (mk id) = []) ->
  tracks owned (gen mk) (fun id => owned ++ nz id) (fun id => 0 < id).
Proof.
  intros Hmk w Hw. eexists (glNext w), _, [mk (glNext w)].
  split; [reflexivity |]. simpl.
  destruct (Hmk (glNext w)) as [Hg Hd].
  split; [reflexivity |]. split; [lia |].
  unfold generated, deleted. simpl. rewrite Hg, Hd, app_nil_r.
  split; [now rewrite names_one |]. split; [| exact Hw].
  intros id. rewrite nz_positive by exact Hw. occ_solve.
Qed.

Lemma tracks_delete (owned : list Z) (id : Z) (c : glcall) :
  generatedBy c = [] -> deletedBy c = [id] ->
  tracks (owned ++ [id]) (gl c) (fun _ => owned) (fun _ => True).
Proof.
  intros Hg Hd w Hw. exists tt, (logged w [c]), [c].
  split; [reflexivity |]. split; [reflexivity |]. split; [simpl; lia |].
  split; [simpl; rewrite Hg, names_none; reflexivity |].
  split; [| exact I].
  intros i. unfold generated, deleted. simpl. rewrite Hg, Hd. occ_solve.
Qed.

Lemma tracks_owned {A} (owned owned' : list Z) (x : M A) (holds : A -> list Z)
    (Q : A -> Prop) :
  (forall id, occ id owned' = occ id owned) ->
  tracks owned x holds Q -> tracks owned' x holds Q.
Proof.
  intros Hocc Hx w Hw.
  destruct (Hx w Hw) as [a [w1 [c1 [E1 [L1 [N1 [G1 [O1 Q1] ] ] ] ] ] ] ].
  exists a, w1, c1. repeat (split; [assumption |]).
  split; [| exact Q1]. intros id. rewrite Hocc. apply O1.
Qed.

Lemma tracks_result {A} (owned : list Z) (x : M A) (holds holds' : A -> list Z)
    (Q Q' : A -> Prop) :
  (forall a, Q a -> (forall id, occ id (holds a) = occ id (holds' a)) /\ Q' a) ->
  tracks owned x holds Q -> tracks owned x holds' Q'.
Proof.
  intros Hres Hx w Hw.
  destruct (Hx w Hw) as [a [w1 [c1 [E1 [L1 [N1 [G1 [O1 Q1] ] ] ] ] ] ] ].
  destruct (Hres a Q1) as [Hocc Hq].
  exists a, w1, c1. repeat (split; [assumption |]).
  split; [| exact Hq]. intros id. rewrite <- Hocc. apply O1.
Qed.

Lemma tracks_skip (owned : list Z) :
  tracks owned (ret tt) (fun _ => owned) (fun _ => True).
Proof. apply tracks_ret; [reflexivity | exact I]. Qed.

Lemma tracks_when (owned : list Z) (b : bool) (c : M unit) :
  tracks owned c (fun _ => owned) (fun _ => True) ->
  tracks owned (when b c) (fun _ => owned) (fun _ => True).
Proof. intros H. unfold when. destruct b; [exact H | apply tracks_skip]. Qed.

Lemma tracks_bindAttrib (owned : list Z) (id : Z) (loc : Attrib) (components : Z) :
  tracks owned (bindAttrib id loc components) (fun _ => owned) (fun _ => True).
Proof.
  unfold bindAttrib.
  eapply tracks_bind; [apply tracks_gl; reflexivity | intros ? _; cbv beta].
  eapply tracks_bind; [apply tracks_gl; reflexivity | intros ? _; cbv beta].
  apply tracks_gl; reflexivity.
Qed.

(** A sequence of calls that neither generate nor delete. *)
Ltac tracks_calls :=
  repeat match goal with
  | |- tracks _ (bind (gl _) _) _ _ =>
      eapply tracks_bind; [apply tracks_gl; reflexivity | intros ? _; cbv beta]
  | |- tracks _ (bind (print _) _) _ _ =>
      eapply tracks_bind; [apply tracks_print | intros ? _; cbv beta]
  | |- tracks _ (bind (when _ (bindAttrib _ _ _)) _) _ _ =>
      eapply tracks_bind;
      [apply tracks_when, tracks_bindAttrib | intros ? _; cbv beta]
  | |- tracks _ (bind (bindAttrib _ _ _) _) _ _ =>
      eapply tracks_bind; [apply tracks_bindAttrib | intros ? _; cbv beta]
  end.

Section Names.
Context {P : Platform}.

Lemma createVBO_tracks (owned : list Z) (dataSize : Z) (target : BufferTarget) :
  tracks owned (createVBO dataSize target) (fun id => owned ++ nz id) (fun _ => True).
Proof.
  unfold createVBO.
  eapply tracks_bind; [apply tracks_gen; intros id; split; reflexivity |].
  intros id Hid. cbv beta.
  tracks_calls.
  destruct (dataSize =? glBufferSize dataSize).
  - tracks_calls. apply tracks_ret; [reflexivity | exact I].
  - rewrite nz_positive by exact Hid.
    eapply tracks_bind; [apply tracks_delete; reflexivity | intros ? _; cbv beta].
    tracks_calls. apply tracks_ret; [| exact I].
    intros i. occ_solve.
Qed.

Ltac tracks_step :=
  match goal with
  | |- tracks _ (bind (gen _) _) _ _ =>
      eapply tracks_bind;
      [apply tracks_gen; intros; split; reflexivity | intros ? ?; cbv beta]
  | |- tracks _ (bind (createVBO _ _) _) _ _ =>
      eapply tracks_bind; [apply createVBO_tracks | intros ? _; cbv beta]
  end.

Lemma held_unfold (h : Handles) :
  held h = nz (VAO h) ++ nz (VBOv h) ++ nz (VBOn h) ++ nz (VBOf h) ++ nz (VBOc h)
           ++ nz (VBOt h) ++ nz (VBOtan h) ++ nz (VAObb h) ++ nz (VBOvbb h)
           ++ nz (VBOfbb h) ++ nz (VAOn h) ++ nz (VBOvn h).
Proof. unfold held, handleList. simpl. now rewrite app_nil_r. Qed.

Ltac slots :=
  cbn [VAO VBOv VBOn VBOf VBOc VBOt VBOtan VAObb VBOvbb VBOfbb VAOn VBOvn
       handles set_handles geometry f] in *.

Ltac held_solve :=
  intros; unfold created, retained; rewrite ?held_unfold; slots;
  repeat match goal with H : _ = 0 |- _ => rewrite H end;
  change (nz 0) with (@nil Z);
  repeat match goal with
  | |- context [if ?b then _ else _] => destruct b
  end;
  rewrite ?app_nil_r, ?occ_app; cbn [app];
  rewrite ?occ_app; unfold occ; cbn [count_occ]; lia.

Lemma createBBVAO_tracks (owned : list Z) (h : Handles) :
  tracks owned (createBBVAO h)
    (fun h' => owned ++ nz (VAObb h') ++ nz (VBOvbb h') ++ nz (VBOfbb h'))
    (fun h' => sameButBox h h').
Proof.
  unfold createBBVAO.
  do 3 tracks_step. tracks_calls.
  apply tracks_ret; [held_solve | reflexivity].
Qed.

Lemma createNormalVAO_tracks (owned : list Z) (g : Geometry) (h : Handles) :
  tracks owned (createNormalVAO g h)
    (fun h' => owned ++ if len (g_vertices g) =? len (g_normals g)
                        then nz (VAOn h') ++ nz (VBOvn h') else [])
    (fun h' => sameButNormalLines h h'
               /\ ((len (g_vertices g) =? len (g_normals g)) = false -> h' = h)).
Proof.
  unfold createNormalVAO.
  destruct (len (g_vertices g) =? len (g_normals g)); cbn [negb].
  - do 2 tracks_step. tracks_calls.
    apply tracks_ret; [held_solve | split; [reflexivity | discriminate] ].
  - apply tracks_ret; [held_solve | split; [now destruct h | reflexivity] ].
Qed.

Lemma optionalVBO_tracks (owned : list Z) (b : bool) (size : Z) (c : glcall) (old : Z) :
  generatedBy c = [] -> deletedBy c = [] ->
  tracks owned
    (if b then id <- createVBO size GL_ARRAY_BUFFER ;; gl c ;;; ret id else ret old)%world
    (fun id => owned ++ if b then nz id else []) (fun id => b = false -> id = old).
Proof.
  intros Hg Hd. destruct b.
  - tracks_step.
    eapply tracks_bind; [apply tracks_gl; assumption | intros ? _; cbv beta].
    apply tracks_ret; [reflexivity | discriminate].
  - apply tracks_ret; [held_solve | reflexivity].
Qed.

Lemma createAllVBOs_tracks (m : TriangleMesh) :
  tracks [] (createAllVBOs m)
    (fun m' => if f m then created (geometry m) (handles m') else [])
    (fun m' => m' = set_handles (handles m') m
               /\ (f m = true -> 0 < VAO (handles m'))
               /\ (f m = true -> forall id,
                     occ id (held (handles m'))
                     = (occ id (created (geometry m) (handles m'))
                        + occ id (retained (geometry m) (handles m)))%nat)
               /\ (f m = false -> m' = m)).
Proof.
  unfold createAllVBOs. destruct (f m) eqn:Hf; cbn [negb].
  2:{ apply tracks_ret; [reflexivity |].
      split; [now destruct m |]. repeat split; try discriminate; reflexivity. }
  cbv zeta.
  do 4 tracks_step.
  eapply tracks_bind; [apply optionalVBO_tracks; reflexivity | intros vboc Hc; cbv beta].
  eapply tracks_bind; [apply optionalVBO_tracks; reflexivity | intros vbot Ht; cbv beta].
  eapply tracks_bind; [apply optionalVBO_tracks; reflexivity | intros vbotan Hn; cbv beta].
  tracks_calls.
  all: (eapply tracks_bind; [apply createBBVAO_tracks | intros h1 H1; cbv beta]).
  all: (eapply tracks_bind;
        [apply createNormalVAO_tracks | intros h2 [H2 H2']; cbv beta]).
  all: unfold sameButNormalLines in H2; unfold sameButBox in H1.
  all: apply tracks_ret;
    [ intros id; rewrite H2, H1; slots; held_solve
    | split; [reflexivity |]; split; [intros _; rewrite H2, H1; slots; assumption |];
      split; [intros _ id | discriminate] ].
  all: unfold created, retained; rewrite held_unfold.
  all: destruct (len (g_colors (geometry m)) =? len (g_vertices (geometry m)));
    [clear Hc | rewrite (Hc eq_refl) in *].
  all: destruct (len (g_texCoords (geometry m)) =? len (g_vertices (geometry m)));
    [clear Ht | rewrite (Ht eq_refl) in *].
  all: destruct (len (g_tangents (geometry m)) =? len (g_vertices (geometry m)));
    [clear Hn | rewrite (Hn eq_refl) in *].
  all: destruct (len (g_vertices (geometry m)) =? len (g_normals (geometry m)));
    [clear H2' | rewrite (H2' eq_refl) in * ].
  all: try (rewrite H2, H1); try (rewrite H1); slots.
  all: rewrite ?app_nil_r, ?occ_app; cbn [app]; rewrite ?occ_app; unfold occ;
    cbn [count_occ]; lia.
Qed.

Lemma tracks_when_delete (owned : list Z) (id : Z) (c : glcall) :
  generatedBy c = [] -> deletedBy c = [id] ->
  tracks (nz id ++ owned) (when (present id) (gl c)) (fun _ => owned) (fun _ => True).
Proof.
  intros Hg Hd. unfold when, present, nz. destruct (id =? 0); cbn [negb].
  - apply tracks_ret; [reflexivity | exact I].
  - eapply tracks_owned; [| apply tracks_delete; eassumption].
    intros i. occ_solve.
Qed.

Lemma cleanupVBO_tracks (m : TriangleMesh) :
  tracks (held (handles m)) (cleanupVBO m) (fun m' => held (handles m'))
    (fun m' => f m' = f m /\ geometry m' = geometry m
               /\ (f m = true -> handles m' = noHandles)
               /\ (f m = false -> m' = m)).
Proof.
  unfold cleanupVBO. destruct (f m) eqn:Hf.
  2:{ apply tracks_ret; [reflexivity |].
      repeat split; try assumption; try reflexivity; discriminate. }
  unfold cleanupVBO_with. cbv zeta. rewrite held_unfold.
  do 11 (eapply tracks_bind;
         [apply tracks_when_delete; reflexivity | intros ? _; cbv beta]).
  eapply tracks_bind;
    [ eapply tracks_owned; [| apply (tracks_when_delete []); reflexivity];
      intros i; now rewrite app_nil_r
    | intros ? _; cbv beta ].
  apply tracks_ret; [reflexivity |].
  repeat split; try assumption; try reflexivity; discriminate.
Qed.

Lemma tracks_frame {A} (frame owned : list Z) (x : M A) (holds : A -> list Z)
    (Q : A -> Prop) :
  tracks owned x holds Q -> tracks (frame ++ owned) x (fun a => frame ++ holds a) Q.
Proof.
  intros Hx w Hw.
  destruct (Hx w Hw) as [a [w1 [c1 [E1 [L1 [N1 [G1 [O1 Q1] ] ] ] ] ] ] ].
  exists a, w1, c1. repeat (split; [assumption |]).
  split; [| exact Q1]. intros id. rewrite !occ_app. specialize (O1 id). lia.
Qed.

Lemma rebuildVBOs_tracks (createVBOs : bool) (m : TriangleMesh) :
  tracks (held (handles m)) (rebuildVBOs createVBOs m) (fun m' => held (handles m'))
    (fun m' => geometry m' = geometry m /\ f m' = f m
               /\ (createVBOs && f m = true -> 0 < VAO (handles m'))
               /\ (createVBOs && f m = false -> m' = m)).
Proof.
  unfold rebuildVBOs. destruct createVBOs; cbn [andb].
  2:{ apply tracks_ret; [reflexivity |]. repeat split; discriminate. }
  eapply tracks_bind; [apply cleanupVBO_tracks |].
  intros m1 [F1 [G1 [H1 E1] ] ]. cbv beta.
  destruct (f m) eqn:Hf.
  - rewrite (H1 eq_refl). change (held noHandles) with (@nil Z).
    eapply tracks_result; [| apply createAllVBOs_tracks].
    intros m' [S [V [O N] ] ]. rewrite F1 in *.
    split.
    + intros id. rewrite (O eq_refl id), (H1 eq_refl).
      unfold retained, noHandles. slots. change (nz 0) with (@nil Z).
      repeat match goal with |- context [if ?b then _ else _] => destruct b end;
        cbn [app]; unfold occ; cbn [count_occ]; lia.
    + rewrite S. cbn. rewrite G1.
      split; [reflexivity |]. split; [exact F1 |]. split; [exact V | discriminate].
  - rewrite (E1 eq_refl).
    eapply tracks_owned; [intros id; symmetry; rewrite <- (app_nil_r (held (handles m))) at 1; reflexivity |].
    eapply tracks_result; [| apply tracks_frame, createAllVBOs_tracks].
    intros m' [S [V [O N] ] ]. rewrite (N Hf), Hf.
    split; [intros id; now rewrite app_nil_r |].
    split; [reflexivity |]. split; [reflexivity |]. split; [discriminate | reflexivity].
Qed.

Lemma rebuildVBOs_off (createVBOs : bool) (m : TriangleMesh) (w : World) :
  createVBOs && f m = false -> rebuildVBOs createVBOs m w = Done (m, w).
Proof.
  unfold rebuildVBOs. destruct createVBOs; cbn [andb]; [| reflexivity].
  intros Hf. unfold bind, cleanupVBO, createAllVBOs. rewrite Hf. cbn.
  now rewrite Hf.
Qed.

Lemma occ_In (id : Z) (l : list Z) : In id l <-> (0 < occ id l)%nat.
Proof. unfold occ. apply count_occ_In. Qed.

Lemma occ_names (a b id : Z) : (0 < occ id (names a b))%nat -> a <= id < b.
Proof. intros H. apply names_bounds. now apply occ_In. Qed.


(** X5 ([createAllVBOs], [createVBO], [createBBVAO], [createNormalVAO]).
    With a function pointer set, [createAllVBOs] returns; the names it
    generates are the next names of the driver, in order; each of them is
    either deleted again (a buffer whose size did not match) or stored in
    exactly one of the slots the function assigns, so no two of these slots
    share a name; it deletes no name but its own; the slots it does not
    assign keep what they held; and the vertex array object is not zero. *)
Theorem createAllVBOs_accounts_for_every_new_name (m : TriangleMesh) (w : World) :
  f m = true -> 0 < glNext w ->
  exists m' w' calls,
    createAllVBOs m w = Done (m', w')
    /\ glLog w' = glLog w ++ calls
    /\ generated calls = names (glNext w) (glNext w')
    /\ (forall id, occ id (generated calls)
                   = (occ id (deleted calls)
                      + occ id (created (geometry m) (handles m')))%nat)
    /\ NoDup (created (geometry m) (handles m'))
    /\ (forall id, In id (deleted calls) -> glNext w <= id < glNext w')
    /\ (forall id, occ id (held (handles m'))
                   = (occ id (created (geometry m) (handles m'))
                      + occ id (retained (geometry m) (handles m)))%nat)
    /\ 0 < VAO (handles m').
Proof.
  intros Hf Hw.
  destruct (createAllVBOs_tracks m w Hw)
    as [m' [w' [calls [E [L [N [G [O [S [V [R _] ] ] ] ] ] ] ] ] ] ].
  rewrite Hf in O. exists m', w', calls.
  split; [exact E |]. split; [exact L |]. split; [exact G |].
  split; [intros id; exact (O id) |].
  split.
  - apply (NoDup_count_occ Z.eq_dec). intros id.
    specialize (O id). pose proof (occ_names_le_1 (glNext w) (glNext w') id) as H1.
    rewrite <- G in H1. fold (occ id (created (geometry m) (handles m'))). change (occ id []) with 0%nat in O. lia.
  - split; [| split; [exact (R Hf) | exact (V Hf)] ].
    intros id Hin. apply occ_In in Hin. apply occ_names. rewrite <- G.
    specialize (O id). change (occ id []) with 0%nat in O. lia.
Qed.

(** X6 ([createAllVBOs], [cleanupVBO]).  Creating the buffers of a mesh
    that holds none and cleaning up afterwards deletes every generated name
    exactly once, deletes nothing else, and leaves all handles zero. *)
Theorem cleanupVBO_after_createAllVBOs_deletes_each_name_once
    (m : TriangleMesh) (w : World) :
  f m = true -> handles m = noHandles -> 0 < glNext w ->
  exists m' w' calls,
    (m1 <- createAllVBOs m ;; cleanupVBO m1)%world w = Done (m', w')
    /\ glLog w' = glLog w ++ calls
    /\ generated calls = names (glNext w) (glNext w')
    /\ (forall id, occ id (deleted calls) = occ id (generated calls))
    /\ NoDup (deleted calls)
    /\ glNext w < glNext w'
    /\ handles m' = noHandles.
Proof.
  intros Hf Hh Hw.
  assert (T : tracks [] (m1 <- createAllVBOs m ;; cleanupVBO m1)%world
                (fun m' => held (handles m'))
                (fun m' => handles m' = noHandles)).
  { eapply tracks_bind; [apply createAllVBOs_tracks |].
    intros m1 [S [V [R _] ] ]. cbv beta. rewrite Hf.
    eapply tracks_owned; [| eapply tracks_result; [| apply cleanupVBO_tracks] ].
    - intros id. rewrite (R Hf id), Hh. unfold retained, noHandles. slots.
      change (nz 0) with (@nil Z).
      repeat match goal with |- context [if ?b then _ else _] => destruct b end;
        cbn [app]; unfold occ; cbn [count_occ]; lia.
    - intros m' [F' [_ [H' _] ] ]. split; [reflexivity |].
      apply H'. rewrite S. exact Hf. }
  destruct (T w Hw) as [m' [w' [calls [E [L [N [G [O H] ] ] ] ] ] ] ].
  exists m', w', calls.
  assert (Hocc : forall id, occ id (deleted calls) = occ id (generated calls)).
  { intros id. specialize (O id). rewrite H in O.
    change (occ id (held noHandles)) with 0%nat in O.
    change (occ id []) with 0%nat in O. lia. }
  split; [exact E |]. split; [exact L |]. split; [exact G |]. split; [exact Hocc |].
  split.
  - apply (NoDup_count_occ Z.eq_dec). intros id. fold (occ id (deleted calls)).
    rewrite Hocc, G. apply occ_names_le_1.
  - split; [| exact H].
    (* the vertex array object is always generated *)
    revert E. unfold bind.
    destruct (createAllVBOs_tracks m w Hw)
      as [m1 [w1 [c1 [E1 [L1 [N1 [G1 [O1 [S1 [V1 _] ] ] ] ] ] ] ] ] ].
    rewrite E1.
    destruct (cleanupVBO_tracks m1 w1 ltac:(lia))
      as [m2 [w2 [c2 [E2 [L2 [N2 _] ] ] ] ] ].
    rewrite E2. intros E. inversion E; subst.
    assert (Hin : In (VAO (handles m1)) (generated c1)).
    { apply occ_In. specialize (O1 (VAO (handles m1))). rewrite Hf in O1.
      unfold created in O1. rewrite (nz_positive _ (V1 Hf)) in O1.
      rewrite !occ_app in O1. unfold occ in *. cbn [count_occ] in O1.
      destruct (Z.eq_dec (VAO (handles m1)) (VAO (handles m1))); [lia | congruence]. }
    rewrite G1 in Hin. apply names_bounds in Hin. lia.
Qed.

(** X7 ([translateToCenter], [scaleToLength]).  Both always return; the
    vertices are moved, or scaled, one by one; and with [createVBOs] set
    the buffers are rebuilt without loss: the names held before together
    with the names generated are exactly the names deleted together with
    the names held afterwards, counted with multiplicity.  Without
    [createVBOs], or without a function pointer, no GL call is made on
    the handles, which stay as they are. *)
Theorem translateToCenter_and_scaleToLength_rebuild_without_loss
    (newBBmid : Vec3f) (newLength : float) (createVBOs : bool)
    (m : TriangleMesh) (w : World) :
  0 < glNext w ->
  (exists m' w' calls,
     translateToCenter newBBmid createVBOs m w = Done (m', w')
     /\ glLog w' = glLog w ++ calls
     /\ vertices m'
        = map (fun v => Vec.add v (Vec.sub newBBmid (boundingBoxMid m))) (vertices m)
     /\ (forall id, (occ id (held (handles m)) + occ id (generated calls)
                     = occ id (deleted calls) + occ id (held (handles m')))%nat)
     /\ (createVBOs && f m = false -> handles m' = handles m /\ calls = []))
  /\
  (exists m' w' calls,
     scaleToLength newLength createVBOs m w = Done (m', w')
     /\ glLog w' = glLog w ++ calls
     /\ vertices m'
        = map (fun v => scaled v (scaleFactor newLength m)) (vertices m)
     /\ (forall id, (occ id (held (handles m)) + occ id (generated calls)
                     = occ id (deleted calls) + occ id (held (handles m')))%nat)
     /\ (createVBOs && f m = false -> handles m' = handles m /\ calls = [])).
Proof.
  intros Hw. split.
  - unfold translateToCenter. cbv zeta.
    match goal with |- context [rebuildVBOs _ ?m2] => set (moved := m2) end.
    destruct (rebuildVBOs_tracks createVBOs moved w Hw)
      as [m' [w' [calls [E [L [N [G [O [Hg [_ [_ Hsame] ] ] ] ] ] ] ] ] ] ].
    exists m', w', calls.
    split; [exact E |]. split; [exact L |].
    split; [unfold vertices; rewrite Hg; reflexivity |].
    split; [exact O |].
    intros Hoff. specialize (Hsame Hoff). subst m'.
    split; [reflexivity |].
    rewrite (rebuildVBOs_off createVBOs moved w Hoff) in E. inversion E; subst w'.
    rewrite <- (app_nil_r (glLog w)) in L at 1.
    apply app_inv_head in L. now symmetry.
  - unfold scaleToLength. cbv zeta.
    match goal with |- context [rebuildVBOs _ ?m2] => set (moved := m2) end.
    destruct (rebuildVBOs_tracks createVBOs moved w Hw)
      as [m' [w' [calls [E [L [N [G [O [Hg [_ [_ Hsame] ] ] ] ] ] ] ] ] ] ].
    exists m', w', calls.
    split; [exact E |]. split; [exact L |].
    split; [unfold vertices; rewrite Hg; reflexivity |].
    split; [exact O |].
    intros Hoff. specialize (Hsame Hoff). subst m'.
    split; [reflexivity |].
    rewrite (rebuildVBOs_off createVBOs moved w Hoff) in E. inversion E; subst w'.
    rewrite <- (app_nil_r (glLog w)) in L at 1.
    apply app_inv_head in L. now symmetry.
Qed.

(** X8 ([generateSphere]).  [generateSphere] creates the buffers without
    cleaning up first: names the mesh held in the slots that are assigned
    anew are lost - none of them is deleted, and none is held afterwards. *)
Theorem generateSphere_drops_the_names_it_held (m : TriangleMesh) (w : World) :
  0 < glNext w ->
  NoDup (held (handles m)) ->
  (forall id, In id (held (handles m)) -> id < glNext w) ->
  exists m' w' calls,
    generateSphere true m w = Done (m', w')
    /\ glLog w' = glLog w ++ calls
    /\ (forall id, In id (held (handles m)) -> ~ In id (deleted calls))
    /\ (forall id, In id (overwritten (handles m)) -> ~ In id (held (handles m'))).
Proof.
  intros Hw Hnd Hold. unfold generateSphere. cbv zeta.
  match goal with |- context [createAllVBOs ?m2] => set (ball := m2) end.
  assert (Hh : handles ball = handles m) by reflexivity.
  assert (Hf : f ball = true) by reflexivity.
  destruct (createAllVBOs_tracks ball w Hw)
    as [m' [w' [calls [E [L [N [G [O [S [V [R _] ] ] ] ] ] ] ] ] ] ].
  rewrite Hf in O. specialize (R Hf). rewrite Hh in R.
  exists m', w', calls. split; [exact E |]. split; [exact L |].
  assert (Fresh : forall id, (0 < occ id (generated calls))%nat -> glNext w <= id).
  { intros id Hid. rewrite G in Hid. apply occ_names in Hid. lia. }
  split.
  - intros id Hin Hdel. apply occ_In in Hdel.
    specialize (O id). specialize (Fresh id). specialize (Hold id Hin).
    change (occ id []) with 0%nat in O. lia.
  - intros id Hin Hheld.
    assert (Hid : id < glNext w).
    { apply Hold. rewrite held_unfold. unfold overwritten in Hin.
      rewrite !in_app_iff in *. tauto. }
    apply occ_In in Hin. apply occ_In in Hheld.
    rewrite R in Hheld.
    specialize (O id). specialize (Fresh id).
    apply (proj1 (NoDup_count_occ Z.eq_dec _)) with (x := id) in Hnd.
    fold (occ id (held (handles m))) in Hnd.
    assert (Hsum : (occ id (overwritten (handles m))
                    + occ id (retained (geometry ball) (handles m))
                    <= occ id (held (handles m)))%nat).
    { rewrite held_unfold. unfold overwritten, retained.
      repeat match goal with |- context [if ?b then _ else _] => destruct b end;
        rewrite ?app_nil_r, ?occ_app; cbn [app]; rewrite ?occ_app;
        unfold occ; cbn [count_occ]; lia. }
    change (occ id []) with 0%nat in O. lia.
Qed.


End Names.

Lemma createAllVBOs_accounts_for_every_new_name_witness :
  exists m' w' calls,
    createAllVBOs (P := referencePlatform) singleTriangle exampleWorld = Done (m', w')
    /\ glLog w' = glLog exampleWorld ++ calls
    /\ generated calls = names 1 (glNext w')
    /\ NoDup (created (geometry singleTriangle) (handles m')).
Proof.
  destruct (createAllVBOs_accounts_for_every_new_name
              (P := referencePlatform) singleTriangle exampleWorld)
    as [m' [w' [calls [E [L [G [_ [D _] ] ] ] ] ] ] ].
  - reflexivity.
  - reflexivity.
  - exists m', w', calls. repeat (split; [assumption |]). exact D.
Defined.

Lemma cleanupVBO_after_createAllVBOs_deletes_each_name_once_witness :
  exists m' w' calls,
    (m1 <- createAllVBOs (P := referencePlatform) singleTriangle ;; cleanupVBO m1)%world
      exampleWorld = Done (m', w')
    /\ glLog w' = glLog exampleWorld ++ calls
    /\ (forall id, occ id (deleted calls) = occ id (generated calls))
    /\ handles m' = noHandles.
Proof.
  destruct (cleanupVBO_after_createAllVBOs_deletes_each_name_once
              (P := referencePlatform) singleTriangle exampleWorld)
    as [m' [w' [calls [E [L [_ [O [_ [_ H] ] ] ] ] ] ] ] ].
  - reflexivity.
  - reflexivity.
  - reflexivity.
  - exists m', w', calls. repeat (split; [assumption |]). exact H.
Defined.

Lemma translateToCenter_and_scaleToLength_rebuild_without_loss_witness :
  exists m' w' calls,
    scaleToLength (P := referencePlatform) (F32.of_Z 2) true singleTriangle exampleWorld
    = Done (m', w')
    /\ glLog w' = glLog exampleWorld ++ calls
    /\ (forall id, (occ id (held (handles singleTriangle)) + occ id (generated calls)
                    = occ id (deleted calls) + occ id (held (handles m')))%nat).
Proof.
  destruct (translateToCenter_and_scaleToLength_rebuild_without_loss
              (P := referencePlatform) Vec.zero (F32.of_Z 2) true
              singleTriangle exampleWorld)
    as [_ [m' [w' [calls [E [L [_ [O _] ] ] ] ] ] ] ].
  - reflexivity.
  - exists m', w', calls. split; [exact E |]. split; [exact L | exact O].
Defined.

Lemma generateSphere_drops_the_names_it_held_witness :
  exists m' w' calls,
    generateSphere (P := referencePlatform) true
      (set_handles (mkHandles 1 2 3 4 0 0 0 5 6 7 8 9) emptyMesh)
      (mkWorld 10 [] [] exampleFiles) = Done (m', w')
    /\ glLog w' = calls
    /\ ~ In 1 (deleted calls)
    /\ ~ In 1 (held (handles m')).
Proof.
  destruct (generateSphere_drops_the_names_it_held
              (P := referencePlatform)
              (set_handles (mkHandles 1 2 3 4 0 0 0 5 6 7 8 9) emptyMesh)
              (mkWorld 10 [] [] exampleFiles))
    as [m' [w' [calls [E [L [D H] ] ] ] ] ].
  - reflexivity.
  - vm_compute. repeat constructor; simpl; intuition discriminate.
  - intros id Hin. vm_compute in Hin. cbn [glNext]. intuition lia.
  - exists m', w', calls. split; [exact E |]. split; [exact L |].
    split; [apply D | apply H]; vm_compute; tauto.
Defined.

(* ------------------------------------------------------------------ *)
(** ** The sphere *)

Lemma In_upto (n x : Z) : In x (upto n) -> 0 <= x < n.
Proof.
  unfold upto. intros H. apply in_map_iff in H. destruct H as [k [<- Hk] ].
  apply in_seq in Hk. lia.
Qed.

Lemma fold_left_invariant {A B} (Inv : A -> Prop) (body : A -> B -> A) (l : list B) :
  (forall b a, In b l -> Inv a -> Inv (body a b)) ->
  forall a, Inv a -> Inv (fold_left body l a).
Proof.
  induction l as [| b l IH]; intros Hbody a Ha; simpl.
  - exact Ha.
  - apply IH.
    + intros b' a' Hin. apply Hbody. now right.
    + apply Hbody; [now left | exact Ha].
Qed.

Lemma grid_invariant {A} (Inv : A -> Prop) (rows cols : Z) (body : Z -> Z -> A -> A) :
  (forall r c a, 0 <= r < rows -> 0 <= c < cols -> Inv a -> Inv (body r c a)) ->
  forall a, Inv a -> Inv (grid rows cols body a).
Proof.
  intros Hbody a Ha. unfold grid.
  apply fold_left_invariant; [| exact Ha].
  intros r a1 Hr Ha1. apply fold_left_invariant; [| exact Ha1].
  intros c a2 Hc Ha2. apply Hbody; auto using In_upto.
Qed.

Lemma grid_count {A} (measure : A -> nat) (k : nat) (rows cols : Z)
    (body : Z -> Z -> A -> A) :
  (forall r c a, measure (body r c a) = (measure a + k)%nat) ->
  forall a, measure (grid rows cols body a)
            = (measure a + k * (Z.to_nat cols * Z.to_nat rows))%nat.
Proof.
  intros Hbody a. unfold grid.
  rewrite (fold_left_count _ measure (k * Z.to_nat cols)).
  - rewrite length_upto. lia.
  - intros r s. rewrite (fold_left_count _ measure k).
    + now rewrite length_upto.
    + intros c s'. apply Hbody.
Qed.

Lemma grid_count_Z {A} (measure : A -> nat) (k : nat) (rows cols : Z)
    (body : Z -> Z -> A -> A) :
  0 <= rows -> 0 <= cols ->
  (forall r c a, measure (body r c a) = (measure a + k)%nat) ->
  forall a, Z.of_nat (measure (grid rows cols body a))
            = Z.of_nat (measure a) + Z.of_nat k * (cols * rows).
Proof.
  intros Hr Hc Hbody a. rewrite (grid_count measure k rows cols body Hbody).
  rewrite Nat2Z.inj_add, !Nat2Z.inj_mul, !Z2Nat.id by assumption. reflexivity.
Qed.

Section Sphere.
Context {P : Platform}.

(** X9 ([generateSphere]).  [generateSphere] returns for each mesh.  It
    appends 101 * 201 = 20301 positions, each also as its normal, as many
    texture coordinates and tangents, and 2 * 100 * 200 = 40000 triangles,
    and leaves the colours alone.  The indices of the new triangles count
    from zero: they address the 20301 new positions only in a mesh that
    had no vertices before. *)
Theorem generateSphere_appends_the_sphere (fp : bool) (m : TriangleMesh) (w : World) :
  exists m' w' vs ts,
    generateSphere fp m w = Done (m', w')
    /\ vertices m' = vertices m ++ vs
    /\ normals m' = normals m ++ vs
    /\ len vs = 20301
    /\ triangles m' = triangles m ++ ts
    /\ len ts = 40000
    /\ Forall (inRange vs) ts
    /\ len (texCoords m') = len (texCoords m) + 20301
    /\ len (tangents m') = len (tangents m) + 20301
    /\ colors m' = colors m.
Proof.
  unfold generateSphere. cbv zeta.
  remember (grid (latdiv + 1) (longdiv + 1) sphereVertex
                 (geometry (setGLFunctionPtr fp m))) as g1 eqn:Eg1.
  remember (grid latdiv longdiv sphereFaces g1) as g2 eqn:Eg2.
  match goal with |- context [createAllVBOs ?m2] => remember m2 as ball eqn:Eball end.
  destruct (createAllVBOs_returns ball w) as [m' [w' [E [hs Hm'] ] ] ].
  assert (Hlat : 0 <= latdiv) by (unfold latdiv; lia).
  assert (Hlong : 0 <= longdiv) by (unfold longdiv; lia).
  (* the vertex loops *)
  assert (H1 : exists vs,
             g_vertices g1 = vertices m ++ vs /\ g_normals g1 = normals m ++ vs
             /\ g_triangles g1 = triangles m /\ g_colors g1 = colors m).
  { rewrite Eg1.
    apply (grid_invariant
             (fun g => exists vs,
                g_vertices g = vertices m ++ vs /\ g_normals g = normals m ++ vs
                /\ g_triangles g = triangles m /\ g_colors g = colors m)).
    - intros r c g _ _ [vs [Hv [Hn [Ht Hc] ] ] ].
      eexists (vs ++ [_]). cbn [sphereVertex g_vertices g_normals g_triangles g_colors].
      rewrite Hv, Hn, <- !app_assoc. repeat split; assumption.
    - exists []. now rewrite !app_nil_r. }
  destruct H1 as [vs [Hv1 [Hn1 [Ht1 Hc1] ] ] ].
  assert (Hlen1 : len (g_vertices g1) = len (vertices m) + 20301).
  { rewrite Eg1. unfold len.
    rewrite (grid_count_Z (fun g => List.length (g_vertices g)) 1); [reflexivity | | |].
    - lia.
    - lia.
    - intros r c g. cbn. rewrite length_app. reflexivity. }
  assert (Hlenvs : len vs = 20301).
  { assert (Hx : len (g_vertices g1) = len (vertices m) + len vs)
      by (rewrite Hv1; unfold len; rewrite length_app; lia).
    lia. }
  assert (Htex1 : len (g_texCoords g1) = len (texCoords m) + 20301).
  { rewrite Eg1. unfold len.
    rewrite (grid_count_Z (fun g => List.length (g_texCoords g)) 1); [reflexivity | | |].
    - lia.
    - lia.
    - intros r c g. cbn. rewrite length_app. reflexivity. }
  assert (Htan1 : len (g_tangents g1) = len (tangents m) + 20301).
  { rewrite Eg1. unfold len.
    rewrite (grid_count_Z (fun g => List.length (g_tangents g)) 1); [reflexivity | | |].
    - lia.
    - lia.
    - intros r c g. cbn. rewrite length_app. reflexivity. }
  (* the face loops *)
  assert (H2 : exists ts,
             g_triangles g2 = triangles m ++ ts /\ Forall (inRange vs) ts
             /\ g_vertices g2 = g_vertices g1 /\ g_normals g2 = g_normals g1
             /\ g_colors g2 = g_colors g1 /\ g_texCoords g2 = g_texCoords g1
             /\ g_tangents g2 = g_tangents g1).
  { rewrite Eg2.
    apply (grid_invariant
             (fun g => exists ts,
                g_triangles g = triangles m ++ ts /\ Forall (inRange vs) ts
                /\ g_vertices g = g_vertices g1 /\ g_normals g = g_normals g1
                /\ g_colors g = g_colors g1 /\ g_texCoords g = g_texCoords g1
                /\ g_tangents g = g_tangents g1)).
    - intros r c g Hr Hc [ts [Ht [Hin Hrest] ] ].
      eexists (ts ++ [_; _]).
      cbn [sphereFaces g_vertices g_normals g_triangles g_colors g_texCoords g_tangents].
      rewrite Ht, <- app_assoc. split; [reflexivity |]. split; [| exact Hrest].
      apply Forall_app. split; [exact Hin |].
      assert (Hr' : 0 <= r < 100) by exact Hr.
      assert (Hc' : 0 <= c < 200) by exact Hc.
      assert (B : forall z, 0 <= z < 4294967296 -> to_uint z = z)
        by (intros z Hz; unfold to_uint; now apply Z.mod_small).
      assert (Hn : Z.of_nat (List.length vs) = 20301) by exact Hlenvs.
      change (longdiv + 1) with 201.
      repeat constructor; unfold inRange; cbn [vx vy vz]; rewrite Hn;
        repeat match goal with
        | |- context [to_uint ?z] => rewrite (B z) by lia
        end; lia.
    - exists []. rewrite app_nil_r.
      split; [exact Ht1 |]. split; [constructor |]. repeat split; reflexivity. }
  destruct H2 as [ts [Ht2 [Hin2 [Hv2 [Hn2 [Hc2 [Htex2 Htan2] ] ] ] ] ] ].
  assert (Hlen2 : len (g_triangles g2) = len (g_triangles g1) + 40000).
  { rewrite Eg2. unfold len.
    rewrite (grid_count_Z (fun g => List.length (g_triangles g)) 2); [reflexivity | | |].
    - lia.
    - lia.
    - intros r c g. cbn. rewrite length_app. reflexivity. }
  assert (Hlents : len ts = 40000).
  { assert (Hx : len (g_triangles g2) = len (g_triangles g1) + len ts)
      by (rewrite Ht2, Ht1; unfold len; rewrite length_app; lia).
    lia. }
  assert (Hgeo : geometry m' = g2) by (rewrite Hm', Eball; reflexivity).
  exists m', w', vs, ts.
  split; [exact E |].
  unfold vertices, normals, triangles, texCoords, tangents, colors.
  rewrite Hgeo, Hv2, Hn2, Hc2, Htex2, Htan2, Ht2.
  split; [exact Hv1 |]. split; [exact Hn1 |]. split; [exact Hlenvs |].
  split; [reflexivity |]. split; [exact Hlents |]. split; [exact Hin2 |].
  split; [exact Htex1 |]. split; [exact Htan1 | exact Hc1].
Qed.

End Sphere.

(* ------------------------------------------------------------------ *)
(** ** Flipping the normals *)

(** Multiplication by [-1.0f] is exact: it flips the sign. *)
Lemma mul_minus_one (x : float) :
  representable x -> (x * F32.of_Z (-1))%f32 = F32.neg x.
Proof.
  unfold representable. intros Hx.
  change (F32.of_Z (-1)) with (S754_finite true 8388608 (-23)).
  destruct x as [s | s | | s m e]; try reflexivity.
  cbn [valid_binary] in Hx. unfold bounded, canonical_mantissa in Hx.
  apply andb_prop in Hx. destruct Hx as [Hc He].
  apply Z.eqb_eq in Hc.
  unfold F32.mul, F32.neg, SFmul, SFopp.
  rewrite xorb_true_r, (Pos.mul_comm m).
  unfold binary_round_aux, shr_fexp.
  rewrite digits_shifted.
  replace (Z.pos (digits2_pos m) + 23 + (e + -23)) with (Z.pos (digits2_pos m) + e)
    by lia.
  rewrite Hc.
  replace (e - (e + -23)) with 23 by lia.
  cbn [shr_record_of_loc]. unfold shr at 1. rewrite shift_back.
  cbn [shr_m loc_of_shr_record round_nearest_even Zdigits2].
  replace (e + -23 + 23) with e by lia.
  rewrite Hc, Z.sub_diag. cbn [shr shr_record_of_loc shr_m].
  now rewrite He.
Qed.

Lemma neg_neg (x : float) : F32.neg (F32.neg x) = x.
Proof. destruct x; cbn; now rewrite ?negb_involutive. Qed.

Lemma representable_neg (x : float) : representable x -> representable (F32.neg x).
Proof. now destruct x. Qed.

Lemma scaled_minus_one (n : Vec3f) :
  representable3 n ->
  scaled n (F32.of_Z (-1)) = mkVec3 (F32.neg (vx n)) (F32.neg (vy n)) (F32.neg (vz n))
  /\ representable3 (scaled n (F32.of_Z (-1))).
Proof.
  intros [Hx [Hy Hz] ]. unfold scaled.
  rewrite !mul_minus_one by assumption.
  split; [reflexivity |]. repeat split; now apply representable_neg.
Qed.

Lemma flipped_twice (ns : list Vec3f) :
  Forall representable3 ns ->
  map (fun n => scaled n (F32.of_Z (-1))) (map (fun n => scaled n (F32.of_Z (-1))) ns)
  = ns.
Proof.
  induction 1 as [| n ns Hn _ IH]; cbn [map]; [reflexivity |].
  rewrite IH. f_equal.
  destruct (scaled_minus_one n Hn) as [E R].
  destruct (scaled_minus_one _ R) as [E' _].
  rewrite E'. rewrite E. cbn [vx vy vz]. rewrite !neg_neg. now destruct n.
Qed.

(** X10 ([flipNormals]).  [flipNormals] returns and changes the normals
    only.  For normals that are numbers of the format (NaN and the
    infinities included) the product with [-1.0f] is exact: each component
    changes its sign, and flipping twice gives the mesh back.  It
    rewrites the normal buffer, with three GL calls, exactly when
    [createVBOs] is set, the buffer exists and a function pointer is set,
    and it creates and deletes no GL object. *)
Theorem flipNormals_is_exact_and_undoes_itself
    (createVBOs : bool) (m : TriangleMesh) (w : World) :
  Forall representable3 (normals m) ->
  exists m' w' calls,
    flipNormals createVBOs m w = Done (m', w')
    /\ m' = set_normals (normals m') m
    /\ normals m'
       = map (fun n => mkVec3 (F32.neg (vx n)) (F32.neg (vy n)) (F32.neg (vz n)))
             (normals m)
    /\ w' = logged w calls
    /\ calls = (if createVBOs && present (VBOn (handles m)) && f m
                then [glBindBuffer GL_ARRAY_BUFFER (VBOn (handles m));
                      glBufferSubData GL_ARRAY_BUFFER (len (normals m) * 12);
                      glBindBuffer GL_ARRAY_BUFFER 0]
                else [])
    /\ exists w'', flipNormals createVBOs m' w' = Done (m, w'').
Proof.
  intros Hrep.
  set (flip := fun n => scaled n (F32.of_Z (-1))).
  assert (Hflip : map flip (normals m)
                  = map (fun n => mkVec3 (F32.neg (vx n)) (F32.neg (vy n))
                                         (F32.neg (vz n))) (normals m)).
  { apply map_ext_in. intros n Hn.
    apply (proj1 (scaled_minus_one n (proj1 (Forall_forall _ _) Hrep n Hn))). }
  assert (Hback : set_normals (map flip (normals (set_normals (map flip (normals m)) m)))
                              (set_normals (map flip (normals m)) m) = m).
  { unfold normals at 1. cbn [set_normals set_geometry geometry g_normals].
    fold (normals m). unfold flip. rewrite (flipped_twice _ Hrep).
    unfold normals. now destruct m as [ [? ? ? ? ? ?] ? ? ? ?]. }
  exists (set_normals (map flip (normals m)) m).
  unfold flipNormals. cbv zeta. fold flip. rewrite Hback.
  change (handles (set_normals (map flip (normals m)) m)) with (handles m).
  change (f (set_normals (map flip (normals m)) m)) with (f m).
  change (normals (set_normals (map flip (normals m)) m)) with (map flip (normals m)).
  unfold len. rewrite !length_map.
  destruct (createVBOs && present (VBOn (handles m))) eqn:Hc; cbn [andb].
  - destruct (f m) eqn:Hf; cbn [negb].
    + eexists _, _. split; [reflexivity |]. split; [reflexivity |].
      split; [exact Hflip |]. split.
      * unfold bind, gl, ret, logged. cbn. rewrite <- !app_assoc. reflexivity.
      * split; [reflexivity |]. eexists. reflexivity.
    + exists w, []. split; [reflexivity |]. split; [reflexivity |].
      split; [exact Hflip |]. split; [unfold logged; cbn; rewrite app_nil_r; now destruct w |].
      split; [reflexivity |]. exists w. reflexivity.
  - exists w, []. split; [reflexivity |]. split; [reflexivity |].
    split; [exact Hflip |]. split; [unfold logged; cbn; rewrite app_nil_r; now destruct w |].
    split; [reflexivity |]. exists w. reflexivity.
Qed.

Lemma flipNormals_is_exact_and_undoes_itself_witness :
  exists m' w' w'',
    flipNormals true (set_normals [unitZ] emptyMesh)
      exampleWorld = Done (m', w')
    /\ normals m' = [mkVec3 (F32.neg F32.zero) (F32.neg F32.zero) (F32.neg F32.one)]
    /\ flipNormals true m' w'
       = Done (set_normals [unitZ] emptyMesh, w'').
Proof.
  destruct (flipNormals_is_exact_and_undoes_itself true
              (set_normals [unitZ] emptyMesh) exampleWorld)
    as [m' [w' [calls [E [_ [N [_ [_ [w'' B] ] ] ] ] ] ] ] ].
  - repeat constructor.
  - exists m', w', w''. split; [exact E |]. split; [exact N | exact B].
Defined.

(* ------------------------------------------------------------------ *)
(** ** Scaling a mesh whose box has no extent *)

Lemma max_of_zeros (x y : float) :
  F32.is_zero x = true -> F32.is_zero y = true -> F32.is_zero (F32.max x y) = true.
Proof. intros Hx Hy. unfold F32.max. now destruct (F32.ltb x y). Qed.

Lemma div_by_zero (x z : float) :
  F32.is_zero z = true -> is_finite (x / z)%f32 = false.
Proof. destruct z; try discriminate. intros _. now destruct x. Qed.

Lemma zero_times_nonfinite (z s : float) :
  F32.is_zero z = true -> is_finite s = false -> F32.is_nan (z * s)%f32 = true.
Proof.
  destruct z; try discriminate. intros _.
  destruct s; try discriminate; reflexivity.
Qed.

Lemma times_nonfinite (x s : float) :
  is_finite s = false -> is_finite (x * s)%f32 = false.
Proof. destruct s; try discriminate; intros _; now destruct x. Qed.

Lemma scaleFactor_flat (newLength : float) (m : TriangleMesh) :
  allZero (boundingBoxSize m) -> is_finite (scaleFactor newLength m) = false.
Proof.
  intros [Hx [Hy Hz] ]. unfold scaleFactor. cbv zeta.
  apply div_by_zero. now repeat apply max_of_zeros.
Qed.

Lemma scaled_nonfinite (v : Vec3f) (s : float) :
  is_finite s = false -> nowhereFinite (scaled v s).
Proof. intros Hs. repeat split; now apply times_nonfinite. Qed.

Lemma scaled_zero_nonfinite (v : Vec3f) (s : float) :
  allZero v -> is_finite s = false -> allNaN (scaled v s).
Proof. intros [Hx [Hy Hz] ] Hs. repeat split; now apply zero_times_nonfinite. Qed.

Section FlatBox.
Context {P : Platform}.

Lemma rebuildVBOs_returns (createVBOs : bool) (m : TriangleMesh) :
  returns (rebuildVBOs createVBOs m) (fun m' => exists h, m' = set_handles h m).
Proof.
  intros w. unfold rebuildVBOs. destruct createVBOs.
  - unfold bind, cleanupVBO. destruct (f m) eqn:Hf.
    + rewrite cleanupVBO_with_run.
      destruct (createAllVBOs_returns (set_handles noHandles m)
                  (logged w (deletions (handles m)))) as [m' [w' [E [h Hh] ] ] ].
      exists m', w'. split; [exact E |]. exists h. now rewrite Hh.
    + unfold ret.
      destruct (createAllVBOs_returns m w) as [m' [w' [E [h Hh] ] ] ].
      exists m', w'. split; [exact E |]. now exists h.
  - exists m, w. split; [reflexivity |]. exists (handles m). now destruct m.
Qed.

(** X11 ([scaleToLength]).  [scaleToLength] does not guard the division by
    the largest extent of the box.  For a box whose size is zero in each
    component - a mesh of one vertex, or a mesh right after [clear] - the
    factor is an infinity or NaN whatever the new length: the call
    returns, each component of the box size is NaN afterwards, and no
    coordinate of a vertex or of a box corner is finite any more. *)
Theorem scaleToLength_without_extent_ruins_the_mesh
    (newLength : float) (createVBOs : bool) (m : TriangleMesh) (w : World) :
  allZero (boundingBoxSize m) ->
  exists m' w',
    scaleToLength newLength createVBOs m w = Done (m', w')
    /\ List.length (vertices m') = List.length (vertices m)
    /\ Forall nowhereFinite (vertices m')
    /\ allNaN (boundingBoxSize m')
    /\ nowhereFinite (boundingBoxMin m')
    /\ nowhereFinite (boundingBoxMax m')
    /\ nowhereFinite (boundingBoxMid m').
Proof.
  intros Hflat. pose proof (scaleFactor_flat newLength m Hflat) as Hs.
  unfold scaleToLength. cbv zeta.
  match goal with |- context [rebuildVBOs _ ?m2] => set (big := m2) end.
  destruct (rebuildVBOs_returns createVBOs big w) as [m' [w' [E [h Hh] ] ] ].
  exists m', w'. split; [exact E |]. subst m'.
  unfold vertices, boundingBoxSize, boundingBoxMin, boundingBoxMax, boundingBoxMid.
  cbn [set_handles big set_box set_vertices set_geometry geometry box g_vertices
       bbSize bbMin bbMax bbMid].
  split; [apply length_map |].
  split.
  - apply Forall_forall. intros v Hv. apply in_map_iff in Hv.
    destruct Hv as [v0 [<- _] ]. now apply scaled_nonfinite.
  - split; [now apply scaled_zero_nonfinite |].
    repeat split; now apply times_nonfinite.
Qed.

(** X12 ([loadOFF] with box centre and length, [translateToCenter],
    [scaleToLength]).  When the file cannot be opened the three-argument
    [loadOFF] carries on with the empty mesh: it returns a mesh without
    vertices and triangles whose box size is NaN in each component, and,
    with a function pointer set, creates the GPU objects of that empty
    mesh, so that its vertex array object is not zero. *)
Theorem loadOFF_fitted_missing_file_still_builds
    (filename : string) (BBmid : Vec3f) (BBlength : float)
    (m : TriangleMesh) (w : World) :
  files w filename = None -> 0 < glNext w ->
  exists m' w',
    loadOFF_fitted filename BBmid BBlength m w = Done (m', w')
    /\ vertices m' = [] /\ triangles m' = []
    /\ allNaN (boundingBoxSize m')
    /\ (f m = true -> 0 < VAO (handles m')).
Proof.
  intros Hfile Hw. unfold loadOFF_fitted, bind.
  rewrite loadOFF_unfold, Hfile.
  set (w1 := mkWorld _ _ _ _).
  unfold translateToCenter. cbv zeta. cbn [rebuildVBOs ret].
  match goal with |- context [scaleToLength _ _ ?m2 _] => set (m2v := m2) end.
  unfold scaleToLength. cbv zeta.
  match goal with |- context [rebuildVBOs _ ?m3] => set (m3v := m3) end.
  assert (Hw1 : 0 < glNext w1).
  { unfold w1, afterClear. cbn [glNext]. now destruct (f m). }
  destruct (rebuildVBOs_tracks true m3v w1 Hw1)
    as [m' [w' [calls [E [L [N [G [O [Hg [Hf [HV _] ] ] ] ] ] ] ] ] ] ].
  exists m', w'. split; [exact E |].
  unfold vertices, triangles, boundingBoxSize. rewrite Hg.
  split; [reflexivity |]. split; [reflexivity |].
  split.
  - destruct (rebuildVBOs_returns true m3v w1) as [m'' [w'' [E' [h Hh] ] ] ].
    rewrite E in E'. injection E' as <- <-. rewrite Hh.
    cbn [set_handles box m3v set_box bbSize].
    apply scaled_zero_nonfinite.
    + repeat split; reflexivity.
    + apply scaleFactor_flat. repeat split; reflexivity.
  - intros Hfm. apply HV. cbn [andb]. exact Hfm.
Qed.

End FlatBox.

Lemma scaleToLength_without_extent_ruins_the_mesh_witness :
  exists m' w',
    scaleToLength (P := referencePlatform) (F32.of_Z 2) true
      (set_vertices [mkVec3 F32.one F32.zero F32.zero] emptyMesh) exampleWorld
    = Done (m', w')
    /\ Forall nowhereFinite (vertices m')
    /\ allNaN (boundingBoxSize m').
Proof.
  destruct (scaleToLength_without_extent_ruins_the_mesh (P := referencePlatform)
              (F32.of_Z 2) true
              (set_vertices [mkVec3 F32.one F32.zero F32.zero] emptyMesh) exampleWorld)
    as [m' [w' [E [_ [V [S _] ] ] ] ] ].
  - repeat split; reflexivity.
  - exists m', w'. split; [exact E |]. split; [exact V | exact S].
Defined.

Lemma loadOFF_fitted_missing_file_still_builds_witness :
  exists m' w',
    loadOFF_fitted (P := referencePlatform) "missing.off" Vec.zero (F32.of_Z 2)
      emptyMesh exampleWorld = Done (m', w')
    /\ vertices m' = []
    /\ allNaN (boundingBoxSize m')
    /\ 0 < VAO (handles m').
Proof.
  destruct (loadOFF_fitted_missing_file_still_builds (P := referencePlatform)
              "missing.off" Vec.zero (F32.of_Z 2) emptyMesh exampleWorld)
    as [m' [w' [E [V [_ [S H] ] ] ] ] ].
  - reflexivity.
  - reflexivity.
  - exists m', w'. split; [exact E |]. split; [exact V |]. split; [exact S |].
    apply H. reflexivity.
Defined.

(* ------------------------------------------------------------------ *)
(** ** The view: shader programs and culling statistics *)

Lemma to_uint_small (z : Z) : 0 <= z < 2 ^ 32 -> to_uint z = z.
Proof. intros H. unfold to_uint. now apply Z.mod_small. Qed.

(** X13 ([compileShader], [changeShader]).  The index that [compileShader]
    announces with [shaderCompiled] selects the program just compiled;
    the programs compiled before keep their indices; an index that is
    not below the number of programs ends the process; and a failed
    compilation (handle zero) changes nothing and announces nothing. *)
Theorem compileShader_index_selects_the_new_program (programHandle : Z) (s : Shaders) :
  programHandle <> 0 -> len (programIDs s) < 2 ^ 32 ->
  exists s' index,
    compileShader programHandle s = (s', [shaderCompiled index])
    /\ currentProgramID s' = currentProgramID s
    /\ changeShader index s' = Some (mkShaders (programIDs s') programHandle)
    /\ (forall i, 0 <= i < len (programIDs s) ->
          exists progID,
            changeShader i s = Some (mkShaders (programIDs s) progID)
            /\ changeShader i s' = Some (mkShaders (programIDs s') progID))
    /\ (forall i, len (programIDs s') <= i -> changeShader i s' = None)
    /\ compileShader 0 s = (s, []).
Proof.
  intros Hh Hlen. unfold compileShader.
  replace (programHandle =? 0) with false by (symmetry; now apply Z.eqb_neq).
  cbn [negb]. cbv zeta.
  eexists _, _. split; [reflexivity |]. cbn [currentProgramID programIDs].
  split; [reflexivity |].
  assert (Hl : len (programIDs s ++ [programHandle]) = len (programIDs s) + 1).
  { unfold len. rewrite length_app. cbn [List.length]. lia. }
  assert (H0 : 0 <= len (programIDs s)) by (unfold len; lia).
  split.
  - unfold changeShader. cbn [programIDs]. rewrite Hl.
    replace (len (programIDs s) + 1 - 1) with (len (programIDs s)) by lia.
    rewrite to_uint_small by lia.
    replace ((0 <=? len (programIDs s)) && (len (programIDs s) <? len (programIDs s) + 1))
      with true by (symmetry; apply andb_true_intro; split; [apply Z.leb_le | apply Z.ltb_lt]; lia).
    unfold len. rewrite Nat2Z.id, nth_error_app2, Nat.sub_diag by lia. reflexivity.
  - split.
    + intros i Hi. unfold changeShader. cbn [programIDs]. rewrite Hl.
      replace ((0 <=? i) && (i <? len (programIDs s))) with true
        by (symmetry; apply andb_true_intro; split; [apply Z.leb_le | apply Z.ltb_lt]; lia).
      replace ((0 <=? i) && (i <? len (programIDs s) + 1)) with true
        by (symmetry; apply andb_true_intro; split; [apply Z.leb_le | apply Z.ltb_lt]; lia).
      assert (Hn : (Z.to_nat i < List.length (programIDs s))%nat) by (unfold len in Hi; lia).
      rewrite nth_error_app1 by exact Hn.
      destruct (nth_error (programIDs s) (Z.to_nat i)) as [progID |] eqn:E.
      * exists progID. split; reflexivity.
      * apply nth_error_None in E. lia.
    + split; [| reflexivity].
      intros i Hi. unfold changeShader. cbn [programIDs].
      replace (i <? len (programIDs s ++ [programHandle])) with false
        by (symmetry; apply Z.ltb_ge; exact Hi).
      now rewrite andb_false_r.
Qed.

Lemma compileShader_index_selects_the_new_program_witness :
  exists s',
    compileShader 7 (mkShaders [3; 5] 3) = (s', [shaderCompiled 2])
    /\ changeShader 2 s' = Some (mkShaders [3; 5; 7] 7).
Proof.
  destruct (compileShader_index_selects_the_new_program 7 (mkShaders [3; 5] 3))
    as [s' [index [E [_ [C _] ] ] ] ].
  - discriminate.
  - reflexivity.
  - exists s'. vm_compute in E. inversion E; subst. split; [reflexivity | exact C].
Defined.

(** ** Frames of the paint loop *)

Lemma to_uint_add_l (a b : Z) : to_uint (to_uint a + b) = to_uint (a + b).
Proof. unfold to_uint. apply Z.add_mod_idemp_l. apply Z.pow_nonzero; lia. Qed.

Lemma to_uint_add_to_int (a b : Z) : to_uint (a + to_int b) = to_uint (a + b).
Proof.
  unfold to_uint, to_int.
  replace (a + ((b + 2 ^ 31) mod 2 ^ 32 - 2 ^ 31))
    with ((b + 2 ^ 31) mod 2 ^ 32 + (a - 2 ^ 31)) by ring.
  rewrite Z.add_mod_idemp_l by (apply Z.pow_nonzero; lia).
  f_equal. ring.
Qed.

Lemma foldM_app {A S} (body : A -> S -> outcome S) (l1 l2 : list A) (s : S) :
  foldM body (l1 ++ l2) s = (s1 <~ foldM body l1 s ;; foldM body l2 s1).
Proof.
  revert s. induction l1 as [| a l1 IH]; intros s; cbn [foldM app obind].
  - reflexivity.
  - destruct (body a s) as [s1 | u]; cbn [obind]; [apply IH | reflexivity].
Qed.

(** The meshes behind the instances add their triangles to the total. *)
Lemma drawMeshes_total (fr : Frame) (t : Z) :
  drawMeshes fr (to_uint t) = to_uint (t + sumZ (meshDrawn fr)).
Proof.
  unfold drawMeshes. revert t.
  induction (meshDrawn fr) as [| n l IH]; intros t; cbn [fold_left sumZ fold_right].
  - now rewrite Z.add_0_r.
  - rewrite to_uint_add_l, IH. now rewrite Z.add_assoc.
Qed.

(** The loop over the instances, as long as each index addresses a
    position: the triangles are summed and the empty draws counted. *)
Lemma drawInstances_inside (fr : Frame) (positions : list Vec3f) (l : list Z) :
  (forall i, In i l -> 0 <= i < Z.of_nat (List.length positions)) ->
  forall t c,
    foldM (drawInstance fr positions) l (to_uint t, c)
    = Done (to_uint (t + sumZ (map (instanceDrawn fr) l)),
            c + Z.of_nat (List.length (withoutTriangles fr l))).
Proof.
  induction l as [| i l IH]; intros Hin t c;
    cbn [foldM map sumZ fold_right withoutTriangles filter].
  - now rewrite !Z.add_0_r.
  - unfold drawInstance at 1.
    rewrite (at_in_range _ positions i Vec.zero) by (apply Hin; now left).
    cbn [obind].
    rewrite to_uint_add_to_int, to_uint_add_l.
    rewrite IH by (intros j Hj; apply Hin; now right).
    fold (withoutTriangles fr l).
    rewrite Z.add_assoc.
    destruct (to_int (instanceDrawn fr i) =? 0); cbn [List.length];
      [| reflexivity].
    do 2 f_equal. lia.
Qed.

(** The first index behind the positions ends the loop: the subscript is
    outside the vector. *)
Lemma drawInstances_outside (fr : Frame) (positions : list Vec3f) (count : Z)
    (acc : Z * Z) :
  Z.of_nat (List.length positions) < count ->
  drawInstances fr positions count acc
  = Undefined (OutOfBounds "objectPositions" (Z.of_nat (List.length positions))
                           (Z.of_nat (List.length positions))).
Proof.
  intros Hlt. unfold drawInstances, upto.
  set (n := List.length positions) in *.
  replace (Z.to_nat count) with (n + S (Z.to_nat count - S n))%nat by lia.
  rewrite seq_app, map_app, foldM_app. cbn [seq map Nat.add].
  assert (Hpre : exists acc1,
             foldM (drawInstance fr positions) (map Z.of_nat (seq 0 n)) acc = Done acc1).
  { assert (Hin : forall i, In i (map Z.of_nat (seq 0 n)) -> 0 <= i < Z.of_nat n).
    { intros i Hi. apply in_map_iff in Hi. destruct Hi as [k [<- Hk] ].
      apply in_seq in Hk. lia. }
    clear Hlt. revert acc Hin.
    generalize (map Z.of_nat (seq 0 n)) as l.
    induction l as [| i l IH]; intros acc Hin; cbn [foldM].
    - now exists acc.
    - unfold drawInstance at 1. destruct acc as [t c].
      rewrite (at_in_range _ positions i Vec.zero) by (apply Hin; now left).
      cbn [obind]. apply IH. intros j Hj. apply Hin. now right. }
  destruct Hpre as [ [t c] ->]. cbn [obind foldM].
  unfold drawInstance. rewrite at_out_of_range by (fold n; lia).
  reflexivity.
Qed.

Lemma instanceCount_inside (v : OpenGLView) :
  INT_MIN <= gridSize v * 5 <= INT_MAX -> instanceCount v = Done (gridSize v * 5).
Proof.
  intros [Hlo Hhi]. unfold instanceCount. cbv zeta.
  apply Z.leb_le in Hlo. apply Z.leb_le in Hhi. now rewrite Hlo, Hhi.
Qed.

Lemma instanceCount_outside (v : OpenGLView) :
  gridSize v * 5 < INT_MIN \/ INT_MAX < gridSize v * 5 ->
  instanceCount v = Undefined (SignedOverflow "gridSize * 5").
Proof.
  intros H. unfold instanceCount. cbv zeta.
  destruct (INT_MIN <=? gridSize v * 5) eqn:E1;
    destruct (gridSize v * 5 <=? INT_MAX) eqn:E2; try reflexivity.
  apply Z.leb_le in E1. apply Z.leb_le in E2. lia.
Qed.

Lemma notify_result (total : Z) (v : OpenGLView) :
  notify total v =
  (mkView (gridSize v) total (mesh_drawn v) (mesh_culled v) (frameCounter v)
          (objectPositions v),
   if total =? trianglesLastRun v then [] else [triangleCountChanged total]).
Proof.
  unfold notify. destruct (total =? trianglesLastRun v) eqn:E; simpl.
  - apply Z.eqb_eq in E. subst. now destruct v.
  - reflexivity.
Qed.

(** One frame, when the positions suffice. *)
Lemma paintGL_inside (fr : Frame) (v : OpenGLView) :
  positionsSuffice v ->
  let total := spec_frameTotal (gridSize v * 5) fr in
  let culled := Z.of_nat (List.length (withoutTriangles fr (upto (gridSize v * 5)))) in
  paintGL fr v
  = Done (mkView (gridSize v) total (gridSize v * 5 - culled) culled
                 (to_uint (frameCounter v + 1)) (objectPositions v),
          if total =? trianglesLastRun v then [] else [triangleCountChanged total]).
Proof.
  intros [Hint Hlen] total culled. unfold paintGL.
  rewrite instanceCount_inside by exact Hint. cbn [obind].
  unfold drawInstances. rewrite drawInstances_inside.
  2:{ intros i Hi. apply In_upto in Hi. lia. }
  cbn [obind]. rewrite drawMeshes_total, notify_result.
  cbn [gridSize trianglesLastRun frameCounter objectPositions].
  unfold total, culled, spec_frameTotal.
  replace (0 + bumpSphereDrawn fr + sumZ (map (instanceDrawn fr) (upto (gridSize v * 5)))
           + sumZ (meshDrawn fr))
    with (bumpSphereDrawn fr + sumZ (map (instanceDrawn fr) (upto (gridSize v * 5)))
          + sumZ (meshDrawn fr)) by lia.
  reflexivity.
Qed.

(** One frame, when they do not. *)
Lemma paintGL_outside (fr : Frame) (v : OpenGLView) :
  (gridSize v * 5 < INT_MIN \/ INT_MAX < gridSize v * 5 ->
   paintGL fr v = Undefined (SignedOverflow "gridSize * 5"))
  /\ (Z.of_nat (List.length (objectPositions v)) < gridSize v * 5 <= INT_MAX ->
      paintGL fr v
      = Undefined (OutOfBounds "objectPositions"
                     (Z.of_nat (List.length (objectPositions v)))
                     (Z.of_nat (List.length (objectPositions v))))).
Proof.
  split; intros H; unfold paintGL.
  - now rewrite instanceCount_outside.
  - rewrite instanceCount_inside by (unfold INT_MIN; lia). cbn [obind].
    now rewrite drawInstances_outside by lia.
Qed.

Lemma paintGL_row_result (fr : Frame) (v : OpenGLView) :
  let total := spec_frameTotal (gridSize v) fr in
  paintGL_row fr v
  = (mkView (gridSize v) total (mesh_drawn v) (mesh_culled v)
            (to_uint (frameCounter v + 1)) (objectPositions v),
     if total =? trianglesLastRun v then [] else [triangleCountChanged total]).
Proof.
  intros total. unfold paintGL_row.
  assert (Hrow : forall l t,
             fold_left (fun acc i => to_uint (acc + instanceDrawn fr i)) l (to_uint t)
             = to_uint (t + sumZ (map (instanceDrawn fr) l))).
  { induction l as [| i l IH]; intros t; cbn [fold_left map sumZ fold_right].
    - now rewrite Z.add_0_r.
    - rewrite to_uint_add_l, IH. now rewrite Z.add_assoc. }
  rewrite Hrow, drawMeshes_total, notify_result.
  cbn [gridSize trianglesLastRun frameCounter objectPositions mesh_drawn mesh_culled].
  unfold total, spec_frameTotal.
  replace (0 + bumpSphereDrawn fr + sumZ (map (instanceDrawn fr) (upto (gridSize v)))
           + sumZ (meshDrawn fr))
    with (bumpSphereDrawn fr + sumZ (map (instanceDrawn fr) (upto (gridSize v)))
          + sumZ (meshDrawn fr)) by lia.
  reflexivity.
Qed.

(** A run of frames whose paint function returns each time, keeps the grid
    size and what it needs to return, and notifies by comparing with the
    recorded total. *)
Lemma paintFrames_run
    (paint : Frame -> OpenGLView -> outcome (OpenGLView * list signal))
    (ready : OpenGLView -> Prop) (total : Z -> Frame -> Z) :
  (forall fr v, ready v ->
     exists v',
       paint fr v
       = Done (v', if total (gridSize v) fr =? trianglesLastRun v then []
                   else [triangleCountChanged (total (gridSize v) fr)])
       /\ trianglesLastRun v' = total (gridSize v) fr
       /\ gridSize v' = gridSize v
       /\ frameCounter v' = to_uint (frameCounter v + 1)
       /\ ready v') ->
  forall frames v, ready v ->
    exists v',
      paintFrames paint frames v
      = Done (v', spec_notifications (total (gridSize v)) frames (trianglesLastRun v))
      /\ gridSize v' = gridSize v
      /\ (frameCounter v + Z.of_nat (List.length frames) < 2 ^ 32 ->
          0 <= frameCounter v ->
          frameCounter v' = frameCounter v + Z.of_nat (List.length frames))
      /\ ready v'.
Proof.
  intros Hpaint. induction frames as [| fr frames IH]; intros v Hv.
  - exists v. cbn. repeat split; [lia | exact Hv].
  - destruct (Hpaint fr v Hv) as [v1 [E1 [Hlast [Hgrid [Hcount Hready] ] ] ] ].
    destruct (IH v1 Hready) as [v2 [E2 [Hgrid2 [Hcount2 Hready2] ] ] ].
    exists v2. cbn [paintFrames spec_notifications]. rewrite E1. cbn [obind fst snd].
    rewrite E2. cbn [obind fst snd]. rewrite Hgrid, Hlast.
    split; [reflexivity |]. split; [congruence |]. split; [| exact Hready2].
    cbn [List.length]. intros Hlt H0.
    assert (E : frameCounter v1 = frameCounter v + 1).
    { rewrite Hcount. unfold to_uint. apply Z.mod_small. lia. }
    rewrite Hcount2 by lia. lia.
Qed.

Lemma paintGL_step (fr : Frame) (v : OpenGLView) :
  positionsSuffice v ->
  exists v',
    paintGL fr v
    = Done (v', if spec_frameTotal (gridSize v * 5) fr =? trianglesLastRun v then []
                else [triangleCountChanged (spec_frameTotal (gridSize v * 5) fr)])
    /\ trianglesLastRun v' = spec_frameTotal (gridSize v * 5) fr
    /\ gridSize v' = gridSize v
    /\ frameCounter v' = to_uint (frameCounter v + 1)
    /\ positionsSuffice v'.
Proof.
  intros Hv. eexists. split; [apply (paintGL_inside fr v Hv) |].
  repeat split; try reflexivity; apply Hv.
Qed.

Lemma paintGL_row_step (fr : Frame) (v : OpenGLView) :
  True ->
  exists v',
    always paintGL_row fr v
    = Done (v', if spec_frameTotal (gridSize v) fr =? trianglesLastRun v then []
                else [triangleCountChanged (spec_frameTotal (gridSize v) fr)])
    /\ trianglesLastRun v' = spec_frameTotal (gridSize v) fr
    /\ gridSize v' = gridSize v
    /\ frameCounter v' = to_uint (frameCounter v + 1)
    /\ True.
Proof.
  intros _. eexists. unfold always. rewrite paintGL_row_result.
  split; [reflexivity |]. repeat split.
Qed.




(** X14 ([paintGL], the loop over the instances).  With [gridSize * 5]
    instances, no more than the positions that exist, [paintGL] paints the
    frame to its end and leaves in [mesh_culled] the number of instances
    whose [draw] returned zero triangles - culled by the frustum test or
    not - and in [mesh_drawn] the rest: the two add up to [gridSize * 5].
    The frame counter goes up by one and the grid size stays. *)
Theorem paintGL_culled_and_drawn_add_up (fr : Frame) (v : OpenGLView) :
  0 <= gridSize v * 5 <= Z.of_nat (List.length (objectPositions v)) ->
  gridSize v * 5 <= INT_MAX ->
  exists v' signals,
    paintGL fr v = Done (v', signals)
    /\ mesh_culled v'
       = Z.of_nat (List.length (filter (fun i => to_int (instanceDrawn fr i) =? 0)
                                       (upto (gridSize v * 5))))
    /\ 0 <= mesh_culled v' <= gridSize v * 5
    /\ mesh_drawn v' + mesh_culled v' = gridSize v * 5
    /\ gridSize v' = gridSize v
    /\ frameCounter v' = to_uint (frameCounter v + 1).
Proof.
  intros Hg Hmax.
  assert (Hv : positionsSuffice v) by (unfold positionsSuffice, INT_MIN; lia).
  eexists. eexists. split; [apply (paintGL_inside fr v Hv) |].
  cbn [mesh_culled mesh_drawn gridSize frameCounter].
  split; [reflexivity |].
  pose proof (filter_length_le (fun i => to_int (instanceDrawn fr i) =? 0)
                               (upto (gridSize v * 5))) as Hle.
  rewrite length_upto in Hle. unfold withoutTriangles.
  split; [lia |]. split; [lia |]. split; reflexivity.
Qed.

Lemma paintGL_culled_and_drawn_add_up_witness :
  exists v' signals,
    paintGL (mkFrame 0 (fun i => if i <? 4 then 0 else 12) []) freshView
    = Done (v', signals)
    /\ mesh_culled v' = 4 /\ mesh_drawn v' = 11.
Proof.
  destruct (paintGL_culled_and_drawn_add_up
              (mkFrame 0 (fun i => if i <? 4 then 0 else 12) []) freshView)
    as [v' [signals [E [C [_ [D _] ] ] ] ] ].
  - cbn. lia.
  - unfold INT_MAX. cbn. lia.
  - exists v', signals. split; [exact E |].
    assert (C4 : mesh_culled v' = 4) by (rewrite C; reflexivity).
    split; [exact C4 |]. rewrite C4 in D. cbn [gridSize freshView generateRandomPosition] in D.
    lia.
Defined.

(** X15 ([setGridSize], [getTriangleCount], [paintGL]).  [setGridSize]
    takes any grid size, announces a triangle count of zero whatever is
    drawn, and leaves the recorded total and the positions alone.  When
    the positions suffice for the new size, the frame painted next
    announces its total only if it differs from the total recorded before
    the grid changed, so a frame with the same total leaves the announced
    zero standing; when the new size asks for more instances than there
    are positions, the frame painted next subscripts [objectPositions]
    behind its end. *)
Theorem setGridSize_announces_zero (newGridSize : Z) (v : OpenGLView) (fr : Frame) :
  let v1 := fst (setGridSize newGridSize v) in
  let total := spec_frameTotal (newGridSize * 5) fr in
  let positions := Z.of_nat (List.length (objectPositions v)) in
  snd (setGridSize newGridSize v) = [triangleCountChanged 0]
  /\ gridSize v1 = newGridSize
  /\ trianglesLastRun v1 = trianglesLastRun v
  /\ objectPositions v1 = objectPositions v
  /\ (INT_MIN <= newGridSize * 5 <= INT_MAX -> newGridSize * 5 <= positions ->
      exists v2,
        paintGL fr v1
        = Done (v2, if total =? trianglesLastRun v then []
                    else [triangleCountChanged total]))
  /\ (positions < newGridSize * 5 <= INT_MAX ->
      paintGL fr v1 = Undefined (OutOfBounds "objectPositions" positions positions))
  /\ (newGridSize * 5 < INT_MIN \/ INT_MAX < newGridSize * 5 ->
      paintGL fr v1 = Undefined (SignedOverflow "gridSize * 5")).
Proof.
  cbv zeta. split; [reflexivity |]. split; [reflexivity |]. split; [reflexivity |].
  split; [reflexivity |].
  destruct (paintGL_outside fr (fst (setGridSize newGridSize v))) as [Hover Hout].
  cbn [setGridSize fst gridSize objectPositions] in Hover, Hout.
  split; [| split; [exact Hout | exact Hover] ].
  intros Hint Hlen. eexists.
  apply (paintGL_inside fr (fst (setGridSize newGridSize v))).
  split; assumption.
Qed.

(** X16 ([refreshFpsCounter], [paintGL]).  [refreshFpsCounter] reports the
    number of frames painted since the refresh before it and starts the
    count again: after a refresh and [n] frames, fewer than 2^31 and each
    painted to its end, the next refresh announces [n], and a refresh right
    after it announces zero.  This holds for both variants of [paintGL];
    the one with the random positions paints each frame to its end when
    the positions suffice for the grid size. *)
Theorem refreshFpsCounter_reports_the_frames_since_the_last_refresh
    (frames : list Frame) (v : OpenGLView) :
  Z.of_nat (List.length frames) < 2 ^ 31 ->
  let started := fst (refreshFpsCounter v) in
  let reported (paint : Frame -> OpenGLView -> outcome (OpenGLView * list signal)) :=
    exists painted signals,
      paintFrames paint frames started = Done (painted, signals)
      /\ snd (refreshFpsCounter painted)
         = [fpsCountChanged (Z.of_nat (List.length frames))]
      /\ snd (refreshFpsCounter (fst (refreshFpsCounter painted)))
         = [fpsCountChanged 0] in
  (positionsSuffice v -> reported paintGL)
  /\ reported (always paintGL_row).
Proof.
  intros Hn started reported.
  assert (Hreport : forall painted,
             frameCounter painted = Z.of_nat (List.length frames) ->
             snd (refreshFpsCounter painted)
             = [fpsCountChanged (Z.of_nat (List.length frames))]
             /\ snd (refreshFpsCounter (fst (refreshFpsCounter painted)))
                = [fpsCountChanged 0]).
  { intros painted Hc. unfold refreshFpsCounter. cbn [snd fst frameCounter].
    rewrite Hc. split; [| reflexivity]. rewrite to_int_small by lia. reflexivity. }
  assert (H32 : 0 + Z.of_nat (List.length frames) < 2 ^ 32)
    by (change (2 ^ 32) with (2 * 2 ^ 31); lia).
  split.
  - intros Hv.
    destruct (paintFrames_run paintGL positionsSuffice
                (fun g => spec_frameTotal (g * 5)) paintGL_step frames started Hv)
      as [painted [E [_ [Hcount _] ] ] ].
    exists painted. eexists. split; [exact E |].
    apply Hreport. rewrite Hcount; [reflexivity | exact H32 | cbn; lia].
  - destruct (paintFrames_run (always paintGL_row) (fun _ => True)
                spec_frameTotal paintGL_row_step frames started I)
      as [painted [E [_ [Hcount _] ] ] ].
    exists painted. eexists. split; [exact E |].
    apply Hreport. rewrite Hcount; [reflexivity | exact H32 | cbn; lia].
Qed.

Lemma refreshFpsCounter_reports_the_frames_since_the_last_refresh_witness :
  exists painted signals,
    paintFrames paintGL [mkFrame 0 (fun _ => 0) []; mkFrame 0 (fun _ => 0) [] ]
                (fst (refreshFpsCounter freshView))
    = Done (painted, signals)
    /\ snd (refreshFpsCounter painted) = [fpsCountChanged 2].
Proof.
  destruct (refreshFpsCounter_reports_the_frames_since_the_last_refresh
              [mkFrame 0 (fun _ => 0) []; mkFrame 0 (fun _ => 0) [] ] freshView)
    as [H _].
  - reflexivity.
  - destruct H as [painted [signals [E [R _] ] ] ].
    + unfold positionsSuffice, INT_MIN, INT_MAX. cbn. lia.
    + exists painted, signals. split; [exact E | exact R].
Defined.

(* ------------------------------------------------------------------ *)
(** ** The terrain beyond the height field *)

Lemma Forall_replace_nth {A} (Q : A -> Prop) (n : nat) (a : A) (v : list A) :
  Forall Q v -> Q a -> Forall Q (replace_nth n a v).
Proof.
  intros Hv Ha. revert n. induction Hv as [| x v Hx Hv IH]; intros [| n]; simpl;
    constructor; auto.
Qed.

Lemma at_In {A} (what : string) (v : list A) (i : Z) (a : A) :
  at_ what v i = Done a -> In a v.
Proof.
  unfold at_. destruct ((0 <=? i) && (i <? Z.of_nat (List.length v))); [| discriminate].
  destruct (nth_error v (Z.to_nat i)) eqn:E; [| discriminate].
  intros H. inversion H; subst. eapply nth_error_In. exact E.
Qed.

Lemma put_done {A} (what : string) (v v' : list A) (i : Z) (a : A) :
  put what v i a = Done v' -> v' = replace_nth (Z.to_nat i) a v.
Proof.
  unfold put. destruct ((0 <=? i) && (i <? Z.of_nat (List.length v))); [| discriminate].
  intros H. now inversion H.
Qed.

Lemma setHeight_shaped (columns rows : nat) (hm hm' : Heightmap) (x z : Z) (y : float) :
  shaped columns rows hm -> setHeight hm x z y = Done hm' -> shaped columns rows hm'.
Proof.
  intros [Hl Hf]. unfold setHeight.
  destruct (at_ "heightmap" hm x) as [column | u] eqn:Ea; [| discriminate].
  cbn [obind].
  destruct (put "heightmap[x]" column z y) as [column' | u] eqn:Ep; [| discriminate].
  cbn [obind]. intros H. apply put_done in H. apply put_done in Ep. subst.
  split.
  - now rewrite length_replace_nth.
  - apply Forall_replace_nth; [exact Hf |].
    rewrite length_replace_nth.
    apply (proj1 (Forall_forall _ _) Hf). eapply at_In. exact Ea.
Qed.

Lemma foldM_invariant {A S} (Inv : S -> Prop) (body : A -> S -> outcome S) :
  (forall a s s', body a s = Done s' -> Inv s -> Inv s') ->
  forall l s s', foldM body l s = Done s' -> Inv s -> Inv s'.
Proof.
  intros Hbody. induction l as [| a l IH]; intros s s' H Hs; simpl in H.
  - now inversion H; subst.
  - destruct (body a s) as [s1 | u] eqn:E; [| discriminate].
    cbn [obind] in H. eapply IH; [exact H |]. eapply Hbody; eassumption.
Qed.

Lemma foldM_total {A S} (Inv : S -> Prop) (body : A -> S -> outcome S) (l : list A) :
  (forall a s, In a l -> Inv s -> exists s', body a s = Done s' /\ Inv s') ->
  forall s, Inv s -> exists s', foldM body l s = Done s' /\ Inv s'.
Proof.
  induction l as [| a l IH]; intros Hbody s Hs; simpl.
  - now exists s.
  - destruct (Hbody a s (or_introl eq_refl) Hs) as [s1 [E1 H1] ].
    rewrite E1. cbn [obind]. apply IH; [| exact H1].
    intros a' s0 Hin. apply Hbody. now right.
Qed.

Section TerrainShape.
Variable dist : nat -> float.
Variables h w : Z.

Lemma diamond_shaped (columns rows : nat) (halfStep : Z) (roughness : float) (x z : Z)
    (fd fd' : Field) :
  diamond dist halfStep roughness x z fd = Done fd' ->
  shaped columns rows (fst fd) -> shaped columns rows (fst fd').
Proof.
  unfold diamond. destruct fd as [hm k].
  repeat match goal with
  | |- context [obind (height ?a ?b ?c) _] =>
      destruct (height a b c); [cbn [obind] | discriminate]
  end.
  destruct (setHeight hm x z _) as [hm' | u] eqn:E; [| discriminate].
  cbn [obind]. intros H Hs. inversion H; subst. cbn [fst] in *.
  eapply setHeight_shaped; eassumption.
Qed.

Lemma square_shaped (columns rows : nat) (halfStep : Z) (roughness : float) (x z : Z)
    (fd fd' : Field) :
  square dist h w halfStep roughness x z fd = Done fd' ->
  shaped columns rows (fst fd) -> shaped columns rows (fst fd').
Proof.
  unfold square. destruct fd as [hm k]. cbv zeta.
  repeat match goal with
  | |- context [obind (neighbour ?a ?b ?c ?d ?e) _] =>
      destruct (neighbour a b c d e) as [ [? ?] | ?]; [cbn [obind] | discriminate]
  end.
  destruct (setHeight hm x z _) as [hm' | u] eqn:E; [| discriminate].
  cbn [obind]. intros H Hs. inversion H; subst. cbn [fst] in *.
  eapply setHeight_shaped; eassumption.
Qed.

Lemma refine_shaped (columns rows : nat) (stepSize : Z) (roughness : float)
    (fd fd' : Field) :
  refine dist h w stepSize roughness fd = Done fd' ->
  shaped columns rows (fst fd) -> shaped columns rows (fst fd').
Proof.
  unfold refine. cbv zeta.
  destruct (foldM _ (stride (stepSize / 2) (to_int w) stepSize) fd) as [fd1 | u] eqn:E1;
    [| discriminate].
  cbn [obind]. intros E2 Hs.
  set (Inv := fun s : Field => shaped columns rows (fst s)).
  assert (H1 : Inv fd1).
  { apply (fun Hb => foldM_invariant Inv _ Hb _ _ _ E1 Hs).
    intros x s s' Hx. apply (fun Hb => foldM_invariant Inv _ Hb _ _ _ Hx).
    intros z s0 s0'. apply diamond_shaped. }
  apply (fun Hb => foldM_invariant Inv _ Hb _ _ _ E2 H1).
  intros x s s' Hx. apply (fun Hb => foldM_invariant Inv _ Hb _ _ _ Hx).
  intros z s0 s0'. apply square_shaped.
Qed.

Lemma diamondSquare_shaped (columns rows : nat) (rounds : nat) :
  forall (stepSize : Z) (roughness : float) (fd fd' : Field),
    diamondSquare dist h w rounds stepSize roughness fd = Done fd' ->
    shaped columns rows (fst fd) -> shaped columns rows (fst fd').
Proof.
  induction rounds as [| rounds IH]; intros stepSize roughness fd fd' H Hs; simpl in H.
  - now inversion H; subst.
  - destruct (refine dist h w stepSize roughness fd) as [fd1 | u] eqn:E; [| discriminate].
    cbn [obind] in H. eapply IH; [exact H |]. eapply refine_shaped; eassumption.
Qed.

Lemma heightField_shaped (hm : Heightmap) :
  heightField dist h w = Done hm ->
  shaped (Z.to_nat (to_uint (w + 1))) (Z.to_nat (to_uint (h + 1))) hm.
Proof.
  unfold heightField. cbv zeta.
  set (hm0 := repeat _ _).
  assert (H0 : shaped (Z.to_nat (to_uint (w + 1))) (Z.to_nat (to_uint (h + 1))) hm0).
  { unfold hm0. split; [apply repeat_length |].
    apply Forall_forall. intros c Hc. apply repeat_spec in Hc. subst.
    apply repeat_length. }
  destruct (setHeight hm0 0 0 _) as [hm1 | u] eqn:E1; [| discriminate]. cbn [obind].
  destruct (setHeight hm1 w 0 _) as [hm2 | u] eqn:E2; [| discriminate]. cbn [obind].
  destruct (setHeight hm2 0 h _) as [hm3 | u] eqn:E3; [| discriminate]. cbn [obind].
  destruct (setHeight hm3 w h _) as [hm4 | u] eqn:E4; [| discriminate]. cbn [obind].
  destruct (diamondSquare _ _ _ _ _ _ _) as [fd | u] eqn:E5; [| discriminate].
  cbn [obind]. intros H. inversion H; subst.
  eapply diamondSquare_shaped; [exact E5 |]. cbn [fst].
  eauto using setHeight_shaped.
Qed.

End TerrainShape.

Lemma height_shaped (columns rows : nat) (hm : Heightmap) (x z : Z) :
  shaped columns rows hm ->
  0 <= x < Z.of_nat columns -> 0 <= z < Z.of_nat rows ->
  exists y, height hm x z = Done y.
Proof.
  intros [Hl Hf] Hx Hz. unfold height.
  rewrite (at_in_range "heightmap" hm x []) by lia. cbn [obind].
  assert (Hc : List.length (nth (Z.to_nat x) hm []) = rows).
  { apply (proj1 (Forall_forall _ _) Hf). apply nth_In. lia. }
  rewrite (at_in_range "heightmap[x]" _ z F32.zero) by lia.
  eexists. reflexivity.
Qed.

Lemma terrainRow (hm : Heightmap) (z : Z) (l : list Z) :
  (forall x, In x l -> exists y, height hm x z = Done y) ->
  forall g,
    foldM (terrainVertex hm z) l g
    = Done (mkGeometry (g_vertices g ++ map (gridVertex hm z) l)
                       (g_triangles g)
                       (g_normals g ++ map (fun _ => up) l)
                       (g_colors g ++ map (fun x => computeColor (heightAt hm x z)) l)
                       (g_texCoords g) (g_tangents g)).
Proof.
  induction l as [| x l IH]; intros Hin g; cbn [foldM map].
  - rewrite !app_nil_r. now destruct g.
  - destruct (Hin x (or_introl eq_refl)) as [y Hy].
    unfold terrainVertex at 1. rewrite Hy. cbn [obind].
    rewrite IH by (intros x' Hx'; apply Hin; now right).
    cbn [g_vertices g_triangles g_normals g_colors g_texCoords g_tangents].
    unfold gridVertex, heightAt. rewrite Hy. now rewrite <- !app_assoc.
Qed.

Lemma terrainRows (hm : Heightmap) (lx lz : list Z) :
  (forall z x, In z lz -> In x lx -> exists y, height hm x z = Done y) ->
  forall g,
    foldM (fun z => foldM (terrainVertex hm z) lx) lz g
    = Done (mkGeometry
              (g_vertices g ++ flat_map (fun z => map (gridVertex hm z) lx) lz)
              (g_triangles g)
              (g_normals g ++ flat_map (fun z => map (fun _ => up) lx) lz)
              (g_colors g
               ++ flat_map (fun z => map (fun x => computeColor (heightAt hm x z)) lx) lz)
              (g_texCoords g) (g_tangents g)).
Proof.
  induction lz as [| z lz IH]; intros Hin g; cbn [foldM flat_map].
  - rewrite !app_nil_r. now destruct g.
  - rewrite terrainRow by (intros x Hx; apply Hin; [now left | exact Hx]).
    cbn [obind]. rewrite IH by (intros z' x Hz'; apply Hin; now right).
    cbn [g_vertices g_triangles g_normals g_colors g_texCoords g_tangents].
    now rewrite <- !app_assoc.
Qed.

Lemma nth_upto (n : Z) (i : nat) (d : Z) :
  (i < Z.to_nat n)%nat -> nth i (upto n) d = Z.of_nat i.
Proof.
  intros H. unfold upto.
  rewrite (nth_indep _ d (Z.of_nat 0)) by (now rewrite length_map, length_seq).
  rewrite map_nth, seq_nth by exact H. reflexivity.
Qed.

Lemma nth_flat_map_rows {A B} (row : A -> list B) (n : nat) (d : B) (a0 : A) :
  forall (l : list A),
    (forall a, In a l -> List.length (row a) = n) ->
    forall i j, (i < List.length l)%nat -> (j < n)%nat ->
      nth (i * n + j) (flat_map row l) d = nth j (row (nth i l a0)) d.
Proof.
  induction l as [| a l IH]; intros Hrow i j Hi Hj; cbn [List.length] in Hi; [lia |].
  cbn [flat_map]. destruct i as [| i].
  - cbn [Nat.mul Nat.add nth]. apply app_nth1. rewrite Hrow by now left. exact Hj.
  - rewrite app_nth2 by (rewrite Hrow by (now left); lia).
    rewrite Hrow by now left.
    replace (S i * n + j - n)%nat with (i * n + j)%nat by lia.
    cbn [nth]. apply IH; [| lia | exact Hj].
    intros a' Ha'. apply Hrow. now right.
Qed.

Section TerrainMesh.
Context {P : Platform}.
Variable dist : nat -> float.

Lemma generateTerrain_after_heightField
    (h w : Z) (m : TriangleMesh) (world : World) :
  0 <= h -> 0 <= w -> (w + 1) * (h + 1) < 2 ^ 31 ->
  match heightField dist h w with
  | Undefined u => generateTerrain dist h w m world = Undefined u
  | Done hm =>
      exists m' world',
        generateTerrain dist h w m world = Done (m', world')
        /\ len (vertices m') = (w + 1) * (h + 1)
        /\ len (triangles m') = 2 * w * h
        /\ len (normals m') = len (vertices m')
        /\ colors m' = map (fun v => computeColor (vy v)) (vertices m')
        /\ Forall (inRange (vertices m')) (triangles m')
        /\ (forall x z, 0 <= x <= w -> 0 <= z <= h ->
              exists y,
                height hm x z = Done y
                /\ nth (Z.to_nat (z * (w + 1) + x)) (vertices m') Vec.zero
                   = mkVec3 (F32.of_Z x) y (F32.of_Z z))
  end.
Proof.
  intros Hh Hw Hsize.
  assert (Hw1 : w + 1 <= (w + 1) * (h + 1)) by nia.
  assert (Hh1 : h + 1 <= (w + 1) * (h + 1)) by nia.
  change (2 ^ 31) with 2147483648 in Hsize.
  assert (Ih : to_int h = h) by (apply to_int_small; change (2 ^ 31) with 2147483648; lia).
  assert (Iw : to_int w = w) by (apply to_int_small; change (2 ^ 31) with 2147483648; lia).
  assert (U : forall z, 0 <= z < 4294967296 -> to_uint z = z)
    by (intros z Hz; unfold to_uint; now apply Z.mod_small).
  pose proof (heightField_shaped dist h w) as Hshape.
  rewrite !U in Hshape by lia.
  unfold generateTerrain, bind. rewrite clear_run. unfold lift.
  destruct (heightField dist h w) as [hm | u]; [| reflexivity].
  specialize (Hshape hm eq_refl).
  assert (Hheight : forall z x, In z (upto (h + 1)) -> In x (upto (w + 1)) ->
                      exists y, height hm x z = Done y).
  { intros z x Hz Hx. apply In_upto in Hz. apply In_upto in Hx.
    apply (height_shaped _ _ hm x z Hshape); lia. }
  (* the vertices *)
  unfold terrainGeometry. rewrite Ih, Iw.
  rewrite (terrainRows hm (upto (w + 1)) (upto (h + 1)) Hheight).
  cbn [obind geometry cleared g_vertices g_triangles g_normals g_colors g_texCoords
       g_tangents app].
  remember (flat_map (fun z => map (gridVertex hm z) (upto (w + 1))) (upto (h + 1)))
    as vs eqn:Evs.
  remember (flat_map (fun z => map (fun x => computeColor (heightAt hm x z))
                                   (upto (w + 1))) (upto (h + 1))) as cs eqn:Ecs.
  remember (flat_map (fun z => map (fun _ : Z => up) (upto (w + 1))) (upto (h + 1)))
    as ns0 eqn:Ens0.
  assert (Hlenvs : len vs = (w + 1) * (h + 1)).
  { rewrite Evs. unfold len.
    rewrite (flat_map_constant_length (c := Z.to_nat (w + 1))).
    - rewrite length_upto. rewrite Nat2Z.inj_mul, !Z2Nat.id by lia. lia.
    - intros z _. now rewrite length_map, length_upto. }
  (* the triangles *)
  match goal with
  | |- context [grid h w (terrainCell w) ?g] =>
      remember g as g1 eqn:Eg1; remember (grid h w (terrainCell w) g1) as g2 eqn:Eg2
  end.
  assert (H2 : exists ts,
             g2 = mkGeometry vs ts ns0 cs [] (tangents m)
             /\ Forall (inRange vs) ts).
  { rewrite Eg2.
    apply (grid_invariant
             (fun g => exists ts,
                g = mkGeometry vs ts ns0 cs [] (tangents m)
                /\ Forall (inRange vs) ts)).
    - intros r c g Hr Hc [ts [-> Hin] ]. eexists. split; [reflexivity |].
      apply Forall_app. split; [exact Hin |].
      assert (Hn : Z.of_nat (List.length vs) = (w + 1) * (h + 1)) by exact Hlenvs.
      rewrite (U (w + 1)) by lia.
      assert (A1 : 0 <= r * (w + 1)) by (apply Z.mul_nonneg_nonneg; lia).
      assert (A2 : (r + 1) * (w + 1) <= h * (w + 1))
        by (apply Z.mul_le_mono_nonneg_r; lia).
      assert (A3 : (w + 1) * (h + 1) = h * (w + 1) + (w + 1)) by ring.
      assert (A4 : (r + 1) * (w + 1) = r * (w + 1) + (w + 1)) by ring.
      clear - Hn U Hr Hc Hh Hw Hsize A1 A2 A3 A4.
      repeat constructor; unfold inRange; cbn [vx vy vz]; rewrite Hn;
        repeat match goal with
        | |- context [to_uint ?z] => rewrite (U z) by lia
        end; lia.
    - exists []. rewrite Eg1. split; [reflexivity | constructor]. }
  destruct H2 as [ts [Hg2 Hin2] ].
  assert (Hlents : len ts = 2 * w * h).
  { assert (Hc : Z.of_nat (List.length (g_triangles g2))
                 = Z.of_nat (List.length (g_triangles g1)) + Z.of_nat 2 * (w * h)).
    { rewrite Eg2.
      apply (grid_count_Z (fun g => List.length (g_triangles g)) 2); [lia | lia |].
      intros r c g. cbn. rewrite length_app. reflexivity. }
    assert (Hx : List.length (g_triangles g2) = List.length ts) by now rewrite Hg2.
    assert (Hy : List.length (g_triangles g1) = 0%nat) by now rewrite Eg1.
    unfold len. lia. }
  rewrite Hg2.
  (* the normals *)
  unfold calculateNormalsByArea.
  cbn [vertices triangles normals set_geometry geometry g_vertices g_triangles g_normals].
  match goal with
  | |- context [sumTriangleNormals vs ts ?ns1] =>
      destruct (sumTriangleNormals_spec vs ts Hin2 ns1) as [ns' [En [Ln _] ] ]
  end.
  { unfold resize. rewrite length_app, length_firstn, repeat_length. lia. }
  rewrite En. cbn [obind].
  match goal with
  | |- context [createAllVBOs ?m2] =>
      remember m2 as built eqn:Ebuilt;
      destruct (createAllVBOs_returns built (afterClear m world))
        as [m' [w' [E [hs Hm'] ] ] ]
  end.
  assert (Hgeo : geometry m' = mkGeometry vs ts (map Vec.normalize ns') cs []
                                          (tangents m))
    by (rewrite Hm', Ebuilt; reflexivity).
  exists m', w'. split; [exact E |].
  unfold vertices, triangles, normals, colors. rewrite Hgeo.
  cbn [g_vertices g_triangles g_normals g_colors].
  split; [exact Hlenvs |]. split; [exact Hlents |].
  split; [unfold len; now rewrite length_map, Ln |].
  split.
  { rewrite Ecs, Evs. rewrite !flat_map_concat_map, concat_map, map_map.
    f_equal. apply map_ext. intros z. rewrite map_map. reflexivity. }
  split; [exact Hin2 |].
  intros x z Hx Hz.
  destruct (height_shaped _ _ hm x z Hshape) as [y Hy]; [lia | lia |].
  exists y. split; [exact Hy |].
  rewrite Z2Nat.inj_add by (try apply Z.mul_nonneg_nonneg; lia).
  rewrite Z2Nat.inj_mul by lia.
  rewrite Evs.
  rewrite (nth_flat_map_rows _ (Z.to_nat (w + 1)) Vec.zero 0).
  - rewrite (nth_indep _ Vec.zero (gridVertex hm (nth (Z.to_nat z) (upto (h + 1)) 0) 0))
      by (rewrite length_map, length_upto; lia).
    rewrite map_nth. rewrite !nth_upto by lia. rewrite !Z2Nat.id by lia.
    unfold gridVertex, heightAt. now rewrite Hy.
  - intros a _. now rewrite length_map, length_upto.
  - rewrite length_upto. lia.
  - lia.
Qed.

(** X17 ([generateTerrain]).  On a grid of [w] by [h] cells with fewer than
    2^31 grid points, [generateTerrain] can fail only while it builds the
    height field: it is undefined exactly when the diamond-square loops
    are, with their fault.  When the height field is built the call
    returns a mesh with one vertex, one normal and one colour per grid
    point and two triangles per cell; the vertex of the grid point
    [(x, z)] has the index [z * (w + 1) + x] and the coordinates
    [(x, heightmap[x][z], z)], its colour is [computeColor] of its height,
    and each index of each triangle addresses a vertex. *)
Theorem generateTerrain_fails_only_in_the_height_field
    (h w : Z) (m : TriangleMesh) (world : World) :
  0 <= h -> 0 <= w -> (w + 1) * (h + 1) < 2 ^ 31 ->
  match heightField dist h w with
  | Undefined u => generateTerrain dist h w m world = Undefined u
  | Done hm =>
      exists m' world',
        generateTerrain dist h w m world = Done (m', world')
        /\ len (vertices m') = (w + 1) * (h + 1)
        /\ len (triangles m') = 2 * w * h
        /\ len (normals m') = len (vertices m')
        /\ colors m' = map (fun v => computeColor (vy v)) (vertices m')
        /\ Forall (inRange (vertices m')) (triangles m')
        /\ (forall x z, 0 <= x <= w -> 0 <= z <= h ->
              exists y,
                height hm x z = Done y
                /\ nth (Z.to_nat (z * (w + 1) + x)) (vertices m') Vec.zero
                   = mkVec3 (F32.of_Z x) y (F32.of_Z z))
  end.
Proof. apply generateTerrain_after_heightField. Qed.

End TerrainMesh.

Lemma generateTerrain_fails_only_in_the_height_field_witness :
  exists m' world',
    generateTerrain (P := referencePlatform) exampleDraws 4 4 emptyMesh exampleWorld
    = Done (m', world')
    /\ len (vertices m') = 25 /\ len (triangles m') = 32.
Proof.
  assert (E : exists hm, heightField exampleDraws 4 4 = Done hm)
    by (vm_compute; eexists; reflexivity).
  destruct E as [hm E].
  pose proof (generateTerrain_fails_only_in_the_height_field (P := referencePlatform)
                exampleDraws 4 4 emptyMesh exampleWorld
                ltac:(lia) ltac:(lia) ltac:(reflexivity)) as H.
  rewrite E in H.
  destruct H as [m' [world' [Eg [Hv [Ht _] ] ] ] ].
  exists m', world'. split; [exact Eg |]. split; [exact Hv | exact Ht].
Defined.

(* ------------------------------------------------------------------ *)
(** ** NaN coordinates in the bounding box *)

Lemma is_nan_eq (x : float) : F32.is_nan x = true -> x = S754_nan.
Proof. destruct x; try discriminate. reflexivity. Qed.

Lemma min_nan_l (y : float) : F32.min S754_nan y = S754_nan.
Proof. unfold F32.min. now destruct y. Qed.

Lemma max_nan_l (y : float) : F32.max S754_nan y = S754_nan.
Proof. unfold F32.max. now destruct y. Qed.

Lemma min_nan_r (x : float) : F32.min x S754_nan = x.
Proof. unfold F32.min. now destruct x. Qed.

Lemma max_nan_r (x : float) : F32.max x S754_nan = x.
Proof. unfold F32.max. now destruct x. Qed.

Lemma mul_nan_r (x : float) : (x * S754_nan)%f32 = S754_nan.
Proof. now destruct x. Qed.

Lemma add_nan_r (x : float) : (x + S754_nan)%f32 = S754_nan.
Proof. now destruct x. Qed.

Lemma planeValue_nan (p : Plane.t) (c : Vec3f) :
  F32.is_nan (vx c) = true \/ F32.is_nan (vy c) = true \/ F32.is_nan (vz c) = true ->
  onInside p c = false.
Proof.
  intros H. unfold onInside, planeValue.
  destruct H as [H | [H | H] ]; apply is_nan_eq in H; rewrite H;
    rewrite mul_nan_r, ?add_nan_r, ?add_nan_l; reflexivity.
Qed.

Lemma fold_left_last {A B} (body : A -> B -> A) (l : list B) (b : B) (a : A) :
  fold_left body (l ++ [b]) a = body (fold_left body l a) b.
Proof. now rewrite fold_left_app. Qed.

Section HiddenMesh.
Context {P : Platform}.

Lemma box_component (m : TriangleMesh) (c : Vec3f -> float) :
  c = vx \/ c = vy \/ c = vz ->
  c (boundingBoxMin (calculateBB m))
  = fold_left (fun acc x => F32.min x acc) (map c (vertices m)) F32.FLT_MAX
  /\ c (boundingBoxMax (calculateBB m))
     = fold_left (fun acc x => F32.max x acc) (map c (vertices m)) (F32.neg F32.FLT_MAX).
Proof.
  intros Hc. unfold boundingBoxMin, boundingBoxMax. rewrite calculateBB_unfold.
  cbn [bbMin bbMax].
  destruct (growMin_component (vertices m) FLT_MAX3) as [Ex [Ey Ez] ].
  destruct (growMax_component (vertices m) negFLT_MAX3) as [Fx [Fy Fz] ].
  destruct Hc as [-> | [-> | ->] ]; split; assumption.
Qed.

Lemma hidden_by_NaN_in_the_last_vertex (m : TriangleMesh) (vs : list Vec3f) (v : Vec3f) :
  vertices m = vs ++ [v] ->
  F32.is_nan (vx v) = true \/ F32.is_nan (vy v) = true \/ F32.is_nan (vz v) = true ->
  forall state w,
    boundingBoxIsVisible state (calculateBB m) = false
    /\ draw (calculateBB m) state w = Done ((0, state), w).
Proof.
  intros Hm Hnan state w.
  assert (Hvis : boundingBoxIsVisible state (calculateBB m) = false).
  { unfold boundingBoxIsVisible, frustumPlanes, extractPlanes.
    cbn [map noPlaneRejects].
    match goal with
    | |- (if allOutside ?p ?cs then _ else _) = _ =>
        replace (allOutside p cs) with true; [reflexivity |]
    end.
    symmetry. apply allOutside_true. intros c Hc. apply planeValue_nan.
    unfold getBoundingBoxMin, getBoundingBoxMax, boundingBoxMin, boundingBoxMax in Hc.
    rewrite calculateBB_unfold in Hc. cbn [bbMin bbMax] in Hc.
    rewrite Hm, !fold_left_last in Hc.
    unfold growMin at 1, growMax at 1 in Hc.
    cbn [boxCorners vx vy vz In] in Hc.
    destruct Hnan as [H | [H | H] ]; apply is_nan_eq in H; rewrite H in Hc;
      rewrite ?min_nan_l, ?max_nan_l in Hc;
      repeat (destruct Hc as [<- | Hc]; [cbn [vx vy vz]; tauto |]);
      destruct Hc. }
  split; [exact Hvis |].
  unfold draw. rewrite Hvis. reflexivity.
Qed.

(** X19 ([calculateBB], [boundingBoxIsVisible], [draw]).  The box keeps a
    NaN coordinate only of the last vertex; [c] is one of the three
    coordinates.  If the coordinate of the last vertex is NaN, the box
    minimum and maximum are NaN in it, the visibility test fails for each
    plane whatever the render state, and [draw] returns zero without a GL
    call.  If an earlier vertex [u] has the NaN, the box is in that
    coordinate the running minimum and maximum of the vertices behind [u]
    alone, started from the first of them: [u] and the vertices before it
    are forgotten.  When the vertices behind [u] have numbers in that
    coordinate, so has the box, and it encloses them there. *)
Theorem calculateBB_keeps_NaN_of_the_last_vertex_only
    (m : TriangleMesh) (c : Vec3f -> float) :
  c = vx \/ c = vy \/ c = vz ->
  (forall vs v,
     vertices m = vs ++ [v] -> F32.is_nan (c v) = true ->
     F32.is_nan (c (boundingBoxMin (calculateBB m))) = true
     /\ F32.is_nan (c (boundingBoxMax (calculateBB m))) = true
     /\ forall state w,
          boundingBoxIsVisible state (calculateBB m) = false
          /\ draw (calculateBB m) state w = Done ((0, state), w))
  /\ (forall vs u v ws,
        vertices m = vs ++ u :: v :: ws -> F32.is_nan (c u) = true ->
        c (boundingBoxMin (calculateBB m))
        = fold_left (fun acc x => F32.min x acc) (map c ws) (c v)
        /\ c (boundingBoxMax (calculateBB m))
           = fold_left (fun acc x => F32.max x acc) (map c ws) (c v)
        /\ (Forall (fun x => F32.is_nan (c x) = false) (v :: ws) ->
            F32.is_nan (c (boundingBoxMin (calculateBB m))) = false
            /\ F32.is_nan (c (boundingBoxMax (calculateBB m))) = false
            /\ Forall (fun x => F32.leb (c (boundingBoxMin (calculateBB m))) (c x) = true
                                /\ F32.leb (c x) (c (boundingBoxMax (calculateBB m))) = true)
                      (v :: ws))).
Proof.
  intros Hc. destruct (box_component m c Hc) as [Emin Emax]. split.
  - intros vs v Hm Hnan.
    rewrite Emin, Emax, Hm, map_app. cbn [map]. rewrite !fold_left_last.
    apply is_nan_eq in Hnan. rewrite Hnan, min_nan_l, max_nan_l.
    split; [reflexivity |]. split; [reflexivity |].
    apply (hidden_by_NaN_in_the_last_vertex m vs v Hm).
    destruct Hc as [-> | [-> | ->] ]; rewrite Hnan; auto.
  - intros vs u v ws Hm Hnan.
    assert (E : c (boundingBoxMin (calculateBB m))
                = fold_left (fun acc x => F32.min x acc) (map c ws) (c v)
                /\ c (boundingBoxMax (calculateBB m))
                   = fold_left (fun acc x => F32.max x acc) (map c ws) (c v)).
    { rewrite Emin, Emax, Hm, map_app. cbn [map]. rewrite !fold_left_app.
      cbn [fold_left]. apply is_nan_eq in Hnan.
      rewrite Hnan, min_nan_l, max_nan_l, min_nan_r, max_nan_r.
      split; reflexivity. }
    destruct E as [E1 E2]. split; [exact E1 |]. split; [exact E2 |].
    intros Hall. rewrite E1, E2.
    assert (Hv : F32.is_nan (c v) = false) by now inversion Hall.
    assert (Hws : Forall (fun x => F32.is_nan x = false) (map c ws)).
    { inversion Hall as [| ? ? _ Hrest]; subst. apply Forall_map. exact Hrest. }
    destruct (running_min (map c ws) Hws (c v) Hv) as [Hn1 [Hle1 Hall1] ].
    destruct (running_max (map c ws) Hws (c v) Hv) as [Hn2 [Hle2 Hall2] ].
    cbv zeta in Hn1, Hle1, Hall1, Hn2, Hle2, Hall2.
    split; [exact Hn1 |]. split; [exact Hn2 |].
    constructor; [split; assumption |].
    rewrite Forall_map in Hall1, Hall2.
    rewrite Forall_forall in Hall1, Hall2. apply Forall_forall.
    intros x Hx. split; [now apply Hall1 | now apply Hall2].
Qed.

End HiddenMesh.

Lemma calculateBB_keeps_NaN_of_the_last_vertex_only_witness :
  F32.is_nan (vx (boundingBoxMin
                    (calculateBB (set_vertices [unitZ; mkVec3 S754_nan F32.zero F32.zero]
                                               unitBox)))) = true
  /\ draw (P := referencePlatform)
          (calculateBB (set_vertices [unitZ; mkVec3 S754_nan F32.zero F32.zero] unitBox))
          (stateWith perspective13) exampleWorld
     = Done ((0, stateWith perspective13), exampleWorld).
Proof.
  destruct (calculateBB_keeps_NaN_of_the_last_vertex_only (P := referencePlatform)
              (set_vertices [unitZ; mkVec3 S754_nan F32.zero F32.zero] unitBox) vx)
    as [H _].
  - left. reflexivity.
  - destruct (H [unitZ] (mkVec3 S754_nan F32.zero F32.zero) eq_refl eq_refl)
      as [Hmin [_ Hdraw] ].
    split; [exact Hmin | apply Hdraw].
Defined.

(* ------------------------------------------------------------------ *)
(** ** The height field on power-of-two squares *)

Lemma In_stride (start bound step x : Z) :
  0 < step -> In x (stride start bound step) ->
  exists k, 0 <= k /\ x = start + k * step /\ x < bound.
Proof.
  intros Hstep H. unfold stride in H. apply in_map_iff in H.
  destruct H as [k [<- Hk] ]. apply In_upto in Hk.
  exists k. split; [lia |]. split; [reflexivity |].
  pose proof (Z.mul_div_le (bound - start + step - 1) step Hstep) as Hd.
  assert (Hk1 : (k + 1) * step <= step * ((bound - start + step - 1) / step)).
  { rewrite (Z.mul_comm step). apply Z.mul_le_mono_nonneg_r; lia. }
  lia.
Qed.

Lemma setHeight_total (columns rows : nat) (hm : Heightmap) (x z : Z) (y : float) :
  shaped columns rows hm ->
  0 <= x < Z.of_nat columns -> 0 <= z < Z.of_nat rows ->
  exists hm', setHeight hm x z y = Done hm' /\ shaped columns rows hm'.
Proof.
  intros Hs Hx Hz.
  assert (E : exists hm', setHeight hm x z y = Done hm').
  { destruct Hs as [Hl Hf]. unfold setHeight.
    rewrite (at_in_range "heightmap" hm x []) by lia. cbn [obind].
    assert (Hc : List.length (nth (Z.to_nat x) hm []) = rows).
    { apply (proj1 (Forall_forall _ _) Hf). apply nth_In. lia. }
    rewrite put_in_range by lia. cbn [obind].
    rewrite put_in_range by lia. eexists. reflexivity. }
  destruct E as [hm' E]. exists hm'. split; [exact E |].
  eapply setHeight_shaped; eassumption.
Qed.

Section InsideTheMap.
Variable dist : nat -> float.
Variables h w : Z.
Hypothesis h_range : 0 <= h < 2 ^ 31 - 1.
Hypothesis w_range : 0 <= w < 2 ^ 31 - 1.

Local Abbreviation columns := (Z.to_nat (w + 1)).
Local Abbreviation rows := (Z.to_nat (h + 1)).
Local Abbreviation Inv := (fieldOf w h).

Lemma height_inside (hm : Heightmap) (x z : Z) :
  shaped columns rows hm -> 0 <= x <= w -> 0 <= z <= h ->
  exists y, height hm x z = Done y.
Proof.
  intros Hs Hx Hz. apply (height_shaped columns rows); [exact Hs | |]; lia.
Qed.

Lemma diamond_total (halfStep : Z) (roughness : float) (x z : Z) (fd : Field) :
  Inv fd -> 0 <= halfStep ->
  0 <= x - halfStep -> x + halfStep <= w ->
  0 <= z - halfStep -> z + halfStep <= h ->
  exists fd', diamond dist halfStep roughness x z fd = Done fd' /\ Inv fd'.
Proof.
  intros Hs Hh Hx1 Hx2 Hz1 Hz2. unfold diamond. destruct fd as [hm k].
  unfold fieldOf in *. cbn [fst] in *.
  destruct (height_inside hm (x - halfStep) (z - halfStep) Hs) as [a ->]; [lia | lia |].
  destruct (height_inside hm (x + halfStep) (z - halfStep) Hs) as [b ->]; [lia | lia |].
  destruct (height_inside hm (x - halfStep) (z + halfStep) Hs) as [c ->]; [lia | lia |].
  destruct (height_inside hm (x + halfStep) (z + halfStep) Hs) as [d ->]; [lia | lia |].
  cbn [obind].
  match goal with
  | |- context [setHeight hm x z ?y] =>
      destruct (setHeight_total columns rows hm x z y Hs) as [hm' [-> Hs'] ]
  end; [lia | lia |].
  cbn [obind]. eexists. split; [reflexivity | exact Hs'].
Qed.

Lemma neighbour_total (hm : Heightmap) (guard : bool) (x z : Z) (acc : float * Z) :
  shaped columns rows hm ->
  (guard = true -> 0 <= x <= w /\ 0 <= z <= h) ->
  exists acc', neighbour hm guard x z acc = Done acc'.
Proof.
  intros Hs Hg. unfold neighbour. destruct guard.
  - destruct (Hg eq_refl) as [Hx Hz].
    destruct (height_inside hm x z Hs Hx Hz) as [y ->]. cbn [obind].
    eexists. reflexivity.
  - eexists. reflexivity.
Qed.

Lemma square_total (halfStep : Z) (roughness : float) (x z : Z) (fd : Field) :
  Inv fd -> 0 <= halfStep -> 0 <= x <= w -> 0 <= z <= h ->
  exists fd', square dist h w halfStep roughness x z fd = Done fd' /\ Inv fd'.
Proof.
  intros Hs Hh Hx Hz. unfold square. destruct fd as [hm k].
  unfold fieldOf in *. cbn [fst] in *. cbv zeta.
  rewrite (to_int_small w), (to_int_small h) by lia.
  match goal with
  | |- context [neighbour hm ?g ?a ?b ?acc] =>
      destruct (neighbour_total hm g a b acc Hs) as [acc1 ->]
  end.
  { intros Hg. apply andb_prop in Hg. destruct Hg as [G1 G2].
    apply Z.geb_le in G1. apply Z.geb_le in G2. lia. }
  cbn [obind].
  match goal with
  | |- context [neighbour hm ?g ?a ?b ?acc] =>
      destruct (neighbour_total hm g a b acc Hs) as [acc2 ->]
  end.
  { intros Hg. apply andb_prop in Hg. destruct Hg as [G1 G2].
    apply Z.leb_le in G1. apply Z.geb_le in G2. lia. }
  cbn [obind].
  match goal with
  | |- context [neighbour hm ?g ?a ?b ?acc] =>
      destruct (neighbour_total hm g a b acc Hs) as [acc3 ->]
  end.
  { intros Hg. apply andb_prop in Hg. destruct Hg as [G1 G2].
    apply Z.geb_le in G1. apply Z.leb_le in G2. lia. }
  cbn [obind].
  match goal with
  | |- context [neighbour hm ?g ?a ?b ?acc] =>
      destruct (neighbour_total hm g a b acc Hs) as [acc4 ->]
  end.
  { intros Hg. apply andb_prop in Hg. destruct Hg as [G1 G2].
    apply Z.leb_le in G1. apply Z.leb_le in G2. lia. }
  cbn [obind]. destruct acc4 as [sum count].
  match goal with
  | |- context [setHeight hm x z ?y] =>
      destruct (setHeight_total columns rows hm x z y Hs) as [hm' [-> Hs'] ]
  end; [lia | lia |].
  cbn [obind]. eexists. split; [reflexivity | exact Hs'].
Qed.

Lemma refine_total (stepSize : Z) (roughness : float) (fd : Field) :
  Inv fd -> 2 <= stepSize ->
  (forall x, In x (stride (stepSize / 2) w stepSize) ->
     0 <= x - stepSize / 2 /\ x + stepSize / 2 <= w) ->
  (forall z, In z (stride (stepSize / 2) h stepSize) ->
     0 <= z - stepSize / 2 /\ z + stepSize / 2 <= h) ->
  exists fd', refine dist h w stepSize roughness fd = Done fd' /\ Inv fd'.
Proof.
  intros Hs Hstep Hxin Hzin. unfold refine. cbv zeta.
  rewrite (to_int_small w), (to_int_small h) by lia.
  assert (Hhalf : 1 <= stepSize / 2)
    by (apply Z.div_le_lower_bound; lia).
  set (halfStep := stepSize / 2) in *.
  destruct (foldM_total Inv
              (fun x => foldM (diamond dist halfStep roughness x)
                              (stride halfStep h stepSize))
              (stride halfStep w stepSize)) with (s := fd)
    as [fd1 [E1 H1] ]; [| exact Hs |].
  { intros x s Hx Hs0. apply foldM_total; [| exact Hs0].
    intros z s1 Hz Hs1. destruct (Hxin x Hx). destruct (Hzin z Hz).
    apply diamond_total; auto; lia. }
  rewrite E1. cbn [obind].
  apply foldM_total; [| exact H1].
  intros x s Hx Hs0. apply In_stride in Hx; [| lia].
  destruct Hx as [kx [Hkx [-> Hltx] ] ].
  assert (0 <= kx * halfStep) by (apply Z.mul_nonneg_nonneg; lia).
  apply foldM_total; [| exact Hs0].
  intros z s1 Hz Hs1. apply In_stride in Hz; [| lia].
  destruct Hz as [kz [Hkz [-> Hltz] ] ].
  assert (0 <= kz * stepSize) by (apply Z.mul_nonneg_nonneg; lia).
  apply square_total; auto; try lia.
  destruct ((0 + kx * halfStep) / halfStep mod 2 =? 0); lia.
Qed.

Lemma diamondInside_spec (stepSize : Z) :
  diamondInside w h stepSize = true ->
  (forall x, In x (stride (stepSize / 2) w stepSize) ->
     0 <= x - stepSize / 2 /\ x + stepSize / 2 <= w)
  /\ (forall z, In z (stride (stepSize / 2) h stepSize) ->
        0 <= z - stepSize / 2 /\ z + stepSize / 2 <= h).
Proof.
  unfold diamondInside. cbv zeta. intros H. apply andb_prop in H.
  destruct H as [Hx Hz]. split.
  - intros x Hin. apply (proj1 (forallb_forall _ _) Hx) in Hin.
    apply andb_prop in Hin. destruct Hin as [A B].
    apply Z.leb_le in A. apply Z.leb_le in B. lia.
  - intros z Hin. apply (proj1 (forallb_forall _ _) Hz) in Hin.
    apply andb_prop in Hin. destruct Hin as [A B].
    apply Z.leb_le in A. apply Z.leb_le in B. lia.
Qed.

Lemma diamondSquare_total (rounds : nat) :
  forall (stepSize : Z) (roughness : float) (fd : Field),
    Inv fd -> roundsInside w h rounds stepSize = true ->
    exists fd', diamondSquare dist h w rounds stepSize roughness fd = Done fd' /\ Inv fd'.
Proof.
  induction rounds as [| rounds IH]; intros stepSize roughness fd Hs Hsafe.
  - exists fd. split; [reflexivity | exact Hs].
  - cbn [diamondSquare roundsInside] in *.
    apply andb_prop in Hsafe. destruct Hsafe as [Hsafe Hrest].
    apply andb_prop in Hsafe. destruct Hsafe as [Hstep Hdiamond].
    apply Z.leb_le in Hstep.
    destruct (diamondInside_spec stepSize Hdiamond) as [Hxin Hzin].
    destruct (refine_total stepSize roughness fd Hs Hstep Hxin Hzin) as [fd1 [E1 Hs1] ].
    rewrite E1. cbn [obind]. apply IH; assumption.
Qed.

Lemma heightField_total :
  roundsInside w h (Z.to_nat (Z.log2 (Z.max w h))) (Z.max w h) = true ->
  exists hm, heightField dist h w = Done hm.
Proof.
  intros Hsafe. unfold heightField. cbv zeta.
  assert (U : forall z, 0 <= z < 2 ^ 31 -> to_uint z = z)
    by (intros z Hz; unfold to_uint; apply Z.mod_small;
        change (2 ^ 32) with (2 * 2 ^ 31); lia).
  rewrite (U (w + 1)), (U (h + 1)) by lia.
  assert (H0 : shaped columns rows (repeat (repeat F32.zero rows) columns)).
  { split; [apply repeat_length |].
    apply Forall_forall. intros col Hc. apply repeat_spec in Hc. subst.
    apply repeat_length. }
  destruct (setHeight_total columns rows _ 0 0 (dist 0) H0) as [hm1 [-> H1] ];
    [lia | lia |].
  cbn [obind].
  destruct (setHeight_total columns rows hm1 w 0 (dist 1) H1) as [hm2 [-> H2] ];
    [lia | lia |].
  cbn [obind].
  destruct (setHeight_total columns rows hm2 0 h (dist 2) H2) as [hm3 [-> H3] ];
    [lia | lia |].
  cbn [obind].
  destruct (setHeight_total columns rows hm3 w h (dist 3) H3) as [hm4 [-> H4] ];
    [lia | lia |].
  cbn [obind].
  rewrite (to_int_small (Z.max w h)) by lia.
  destruct (diamondSquare_total _ (Z.max w h) (F32.of_Z 3) (hm4, 4%nat) H4 Hsafe)
    as [fd [-> _] ].
  cbn [obind]. eexists. reflexivity.
Qed.

End InsideTheMap.

Lemma roundsInside_power_of_two (rounds : nat) :
  forall c, 1 <= c ->
    roundsInside (c * 2 ^ Z.of_nat rounds) (c * 2 ^ Z.of_nat rounds) rounds
                 (2 ^ Z.of_nat rounds) = true.
Proof.
  induction rounds as [| rounds IH]; intros c Hc; [reflexivity |].
  cbn [roundsInside].
  assert (Hp : 2 ^ Z.of_nat (S rounds) = 2 * 2 ^ Z.of_nat rounds)
    by (rewrite Nat2Z.inj_succ, Z.pow_succ_r; lia).
  assert (H1 : 1 <= 2 ^ Z.of_nat rounds)
    by (pose proof (Z.pow_pos_nonneg 2 (Z.of_nat rounds)); lia).
  rewrite Hp.
  replace (2 * 2 ^ Z.of_nat rounds / 2) with (2 ^ Z.of_nat rounds)
    by (rewrite Z.mul_comm, Z.div_mul; lia).
  set (half := 2 ^ Z.of_nat rounds) in *.
  apply andb_true_intro. split.
  - apply andb_true_intro. split; [apply Z.leb_le; lia |].
    unfold diamondInside. cbv zeta.
    replace (2 * half / 2) with half by (rewrite Z.mul_comm, Z.div_mul; lia).
    assert (Hin : forallb (fun x => (0 <=? x - half) && (x + half <=? c * (2 * half)))
                          (stride half (c * (2 * half)) (2 * half)) = true).
    { apply forallb_forall. intros x Hx. apply In_stride in Hx; [| lia].
      destruct Hx as [k [Hk [-> Hlt] ] ].
      assert (k < c) by nia.
      assert ((k + 1) * (2 * half) <= c * (2 * half))
        by (apply Z.mul_le_mono_nonneg_r; lia).
      assert (0 <= k * (2 * half)) by (apply Z.mul_nonneg_nonneg; lia).
      apply andb_true_intro. split; [apply Z.leb_le | apply Z.leb_le]; lia. }
    now rewrite Hin.
  - replace (c * (2 * half)) with (2 * c * half) by ring. apply IH. lia.
Qed.

Section TerrainReturns.
Context {P : Platform}.
Variable dist : nat -> float.

(** X18 ([generateTerrain], the diamond-square loops).  On a square grid
    whose side is a power of two, up to 2^15, no read or write of the
    diamond and square steps leaves the height map, whatever the random
    source draws: [generateTerrain] returns a mesh, with [(2^k + 1)^2]
    vertices and [2 * 4^k] triangles. *)
Theorem generateTerrain_returns_on_power_of_two_squares
    (k : nat) (m : TriangleMesh) (world : World) :
  (k <= 15)%nat ->
  exists m' world',
    generateTerrain dist (2 ^ Z.of_nat k) (2 ^ Z.of_nat k) m world = Done (m', world')
    /\ len (vertices m') = (2 ^ Z.of_nat k + 1) * (2 ^ Z.of_nat k + 1)
    /\ len (triangles m') = 2 * 2 ^ Z.of_nat k * 2 ^ Z.of_nat k
    /\ Forall (inRange (vertices m')) (triangles m').
Proof.
  intros Hk.
  assert (Hpos : 1 <= 2 ^ Z.of_nat k)
    by (pose proof (Z.pow_pos_nonneg 2 (Z.of_nat k)); lia).
  assert (Hle : 2 ^ Z.of_nat k <= 2 ^ 15) by (apply Z.pow_le_mono_r; lia).
  change (2 ^ 15) with 32768 in Hle.
  pose proof (roundsInside_power_of_two k 1 ltac:(lia)) as Hsafe.
  rewrite Z.mul_1_l in Hsafe.
  assert (Hlog : Z.to_nat (Z.log2 (2 ^ Z.of_nat k)) = k)
    by (rewrite Z.log2_pow2 by lia; lia).
  remember (2 ^ Z.of_nat k) as n eqn:En.
  assert (Hsize : (n + 1) * (n + 1) < 2 ^ 31).
  { change (2 ^ 31) with 2147483648.
    assert ((n + 1) * (n + 1) <= 32769 * 32769)
      by (apply Z.mul_le_mono_nonneg; lia).
    lia. }
  assert (Hrange : 0 <= n < 2 ^ 31 - 1) by (change (2 ^ 31) with 2147483648; lia).
  destruct (heightField_total dist n n Hrange Hrange) as [hm Ehm].
  { now rewrite Z.max_id, Hlog. }
  pose proof (generateTerrain_after_heightField dist n n m world
                ltac:(lia) ltac:(lia) Hsize) as H.
  rewrite Ehm in H.
  destruct H as [m' [world' [E [Hv [Ht [_ [_ [Hin _] ] ] ] ] ] ] ].
  exists m', world'. split; [exact E |]. split; [exact Hv |].
  split; [exact Ht | exact Hin].
Qed.

(** X20 ([generateTerrain], [recreateTerrain]).  Which reads the diamond
    step makes depends on the grid alone, not on the heights.  When each
    of them stays inside the height map - a check on the loop indices of
    each round - [generateTerrain] returns a mesh whatever the random
    source draws.  The grid of 50 by 50 cells that [recreateTerrain] asks
    for passes the check. *)
Theorem generateTerrain_returns_when_the_diamond_step_stays_inside
    (h w : Z) (m : TriangleMesh) (world : World) :
  0 <= h -> 0 <= w -> (w + 1) * (h + 1) < 2 ^ 31 ->
  roundsInside w h (Z.to_nat (Z.log2 (Z.max w h))) (Z.max w h) = true ->
  exists m' world',
    generateTerrain dist h w m world = Done (m', world')
    /\ len (vertices m') = (w + 1) * (h + 1)
    /\ len (triangles m') = 2 * w * h
    /\ Forall (inRange (vertices m')) (triangles m').
Proof.
  intros Hh Hw Hsize Hsafe.
  assert (Hw1 : w + 1 <= (w + 1) * (h + 1)) by nia.
  assert (Hh1 : h + 1 <= (w + 1) * (h + 1)) by nia.
  destruct (heightField_total dist h w ltac:(lia) ltac:(lia) Hsafe) as [hm Ehm].
  pose proof (generateTerrain_after_heightField dist h w m world Hh Hw Hsize) as H.
  rewrite Ehm in H.
  destruct H as [m' [world' [E [Hv [Ht [_ [_ [Hin _] ] ] ] ] ] ] ].
  exists m', world'. split; [exact E |]. split; [exact Hv |].
  split; [exact Ht | exact Hin].
Qed.

End TerrainReturns.

Lemma generateTerrain_returns_on_power_of_two_squares_witness :
  exists m' world',
    generateTerrain (P := referencePlatform) exampleDraws (2 ^ Z.of_nat 3)
      (2 ^ Z.of_nat 3) emptyMesh exampleWorld = Done (m', world')
    /\ len (vertices m') = 81.
Proof.
  destruct (generateTerrain_returns_on_power_of_two_squares (P := referencePlatform)
              exampleDraws 3 emptyMesh exampleWorld)
    as [m' [world' [E [Hv _] ] ] ].
  - lia.
  - exists m', world'. split; [exact E | exact Hv].
Defined.

Lemma generateTerrain_returns_when_the_diamond_step_stays_inside_witness :
  exists m' world',
    generateTerrain (P := referencePlatform) exampleDraws 50 50 emptyMesh exampleWorld
    = Done (m', world')
    /\ len (vertices m') = 2601 /\ len (triangles m') = 5000.
Proof.
  destruct (generateTerrain_returns_when_the_diamond_step_stays_inside
              (P := referencePlatform) exampleDraws 50 50 emptyMesh exampleWorld)
    as [m' [world' [E [Hv [Ht _] ] ] ] ].
  - lia.
  - lia.
  - reflexivity.
  - vm_compute. reflexivity.
  - exists m', world'. split; [exact E |]. split; [exact Hv | exact Ht].
Defined.

(** On the grid of the call site, 50 by 50, and on a grid of 4 by 4 the
    generator runs to its end. *)
Lemma generateTerrain_returns_on_square_grids :
  returned (generateTerrain (P := referencePlatform) exampleDraws 4 4
                            emptyMesh exampleWorld) = true
  /\ returned (generateTerrain (P := referencePlatform) exampleDraws 50 50
                               emptyMesh exampleWorld) = true.
Proof.
  assert (H : forall n, 0 <= n <= 50 ->
             roundsInside n n (Z.to_nat (Z.log2 (Z.max n n))) (Z.max n n) = true ->
             returned (generateTerrain (P := referencePlatform) exampleDraws n n
                                       emptyMesh exampleWorld) = true).
  { intros n Hn Hsafe.
    assert (Hsize : (n + 1) * (n + 1) < 2 ^ 31)
      by (change (2 ^ 31) with 2147483648; nia).
    assert (Hn1 : n + 1 <= (n + 1) * (n + 1)) by nia.
    destruct (heightField_total exampleDraws n n ltac:(lia) ltac:(lia) Hsafe)
      as [hm Ehm].
    pose proof (generateTerrain_after_heightField (P := referencePlatform)
                  exampleDraws n n emptyMesh exampleWorld
                  ltac:(lia) ltac:(lia) Hsize) as Hrun.
    rewrite Ehm in Hrun. destruct Hrun as [m' [world' [E _] ] ].
    now rewrite E. }
  split; apply H; try lia; vm_compute; reflexivity.
Qed.
